(** * The autonomous agent's control loop

    A shallow embedding of [src/next/src/services/agent/autonomous-agent.ts]
    (class [AutonomousAgent] and [getMessageFromError]) together with the
    callbacks that [src/next/src/pages/index.tsx] hands to the constructor.

    The agent is a JavaScript object whose methods mutate its own fields,
    push messages to a message service, read the task list of the message
    store and await a remote API.  The embedding threads one [State] value
    (agent fields, task store and an event trace of everything the agent
    did to the outside) through a state-and-exception monad [M].

    - Promises are awaited one after the other, so an [async] method is a
      computation in [M]: resolving is [Ret], rejecting is [Throw].
    - [loop] calls itself; the model recurses on a fuel argument and
      [loop_returns] shows that the loop budget bounds the fuel needed.
    - The remote API is a record of oracles; the message service, the
      task store and the translation table, which live in other modules
      of the repository, are modelled from the specification or taken as
      parameters, as said at each definition.
    - [console.log] and [console.error] are left out.

    Two smaller embeddings stand before the agent: the node block
    definitions of [src/unnamed/part_000] with the lookup of a node's
    block definition, and the handlers of the page that create, resume
    and stop an agent. *)

From Stdlib Require Import List ZArith String Bool Lia.
Import ListNotations.

Local Open Scope Z_scope.
Local Open Scope string_scope.
Local Open Scope list_scope.

(** ** Data *)

(** [AgentMode] and [AgentPlaybackControl] of [types/agentTypes]. *)
Inductive AgentMode : Type := AUTOMATIC_MODE | PAUSE_MODE.
Inductive AgentPlaybackControl : Type := AGENT_PLAY | AGENT_PAUSE.

Definition AgentMode_eqb (a b : AgentMode) : bool :=
  match a, b with
  | AUTOMATIC_MODE, AUTOMATIC_MODE | PAUSE_MODE, PAUSE_MODE => true
  | _, _ => false
  end.

Definition Playback_eqb (a b : AgentPlaybackControl) : bool :=
  match a, b with
  | AGENT_PLAY, AGENT_PLAY | AGENT_PAUSE, AGENT_PAUSE => true
  | _, _ => false
  end.

(** The [status] field of a task message. *)
Inductive TaskStatus : Type := started | executing | completed | final.

Definition TaskStatus_eqb (a b : TaskStatus) : bool :=
  match a, b with
  | started, started | executing, executing
  | completed, completed | final, final => true
  | _, _ => false
  end.

(** A message of [type: "task"].  [taskId] is the string [v1().toString()];
    the identifiers are opaque and only compared, so they are numbered. *)
Record Task : Type := mkTask {
  taskId : nat;
  value : string;
  status : TaskStatus;
  info : option string
}.

Definition withStatus (t : Task) (st : TaskStatus) : Task :=
  mkTask (taskId t) (value t) st (info t).

Definition withResult (t : Task) (result : string) (st : TaskStatus) : Task :=
  mkTask (taskId t) (value t) st (Some result).

(** What a rejected promise of the API carries: an axios error with
    [e.response?.status], or anything else. [TypeError] is the runtime's
    own error for a property read on [undefined]. *)
Inductive Exn : Type :=
| AxiosError (responseStatus : option Z)
| OtherError
| TypeError.

Inductive Reply (A : Type) : Type :=
| Resolved (a : A)
| Rejected (e : Exn).
Arguments Resolved {A} a.
Arguments Rejected {A} e.

Definition TIMEOUT_LONG : Z := 1000.
Definition TIMOUT_SHORT : Z := 800.

(** ** Node block definitions

    [src/unnamed/part_000]: the blocks of the workflow editor and the
    lookup of a node's block definition. *)

(** [z.enum(["string", "array"])] *)
Inductive IOType : Type := IOString | IOArray.

(** [IOField]; [items], when present, is an object with the one field
    [type]. *)
Module IOField.
Record t : Type := mk {
  name : string;
  description : string;
  type : IOType;
  items : option string
}.
End IOField.

Module NodeBlockDefinition.
Record t : Type := mk {
  name : string;
  type : string;
  description : string;
  image_url : string;
  input_fields : list IOField.t;
  output_fields : list IOField.t
}.
End NodeBlockDefinition.

Definition UrlStatusCheckBlockDefinition : NodeBlockDefinition.t :=
  NodeBlockDefinition.mk "URL Status Check" "UrlStatusCheck"
    "Check the status of a URL" "/tools/web.png"
    [IOField.mk "url" "The URL to check" IOString None]
    [IOField.mk "url" "The URL to check" IOString None;
     IOField.mk "code" "The HTTP status code" IOString None].

Definition SlackWebhookBlockDefinition : NodeBlockDefinition.t :=
  NodeBlockDefinition.mk "Slack Message Webhook" "SlackWebhook"
    "Sends a message to a slack webhook" "/tools/web.png"
    [IOField.mk "url" "The Slack WebHook URL" IOString None;
     IOField.mk "message" "The message to send" IOString None]
    [IOField.mk "message" "The message that was sent" IOString None].

Definition SummaryWebhookBlockDefinition : NodeBlockDefinition.t :=
  NodeBlockDefinition.mk "Summary Agent" "SummaryWebhook"
    "Summarize or extract key details from text using OpenAI"
    "/tools/web.png"
    [IOField.mk "prompt" "What do you want to do with the text?" IOString
       None;
     IOField.mk "filename" "reference a file that you want to summarize"
       IOString None]
    [IOField.mk "result" "The result was built." IOString None].

Definition TextInputWebhookBlockDefinition : NodeBlockDefinition.t :=
  NodeBlockDefinition.mk "Text Input" "TextInputWebhook" EmptyString
    "/tools/web.png"
    [IOField.mk "text"
       "What text would you like to extract information from?" IOString
       None]
    [IOField.mk "result" "The result was built." IOString None].

Definition IfBlockDefinition : NodeBlockDefinition.t :=
  NodeBlockDefinition.mk "If Condition" "IfCondition"
    "Conditionally take a path" "/tools/web.png" [] [].

Definition TriggerBlockDefinition : NodeBlockDefinition.t :=
  NodeBlockDefinition.mk "Manual Trigger" "ManualTriggerBlock"
    "Trigger a block manually" "/tools/web.png" [] [].

Definition WebInteractionAgent : NodeBlockDefinition.t :=
  NodeBlockDefinition.mk "Web Interaction Agent" "WebInteractionAgent"
    "Takes a URL, dynamically interacts with the site given guidance, and returns some results."
    "/tools/web.png"
    [IOField.mk "url" "The website the agent will interact with" IOString
       None;
     IOField.mk "goals" "The actions the agent should take on the site"
       IOString None]
    [].

Definition getNodeBlockDefinitions : list NodeBlockDefinition.t :=
  [UrlStatusCheckBlockDefinition;
   SlackWebhookBlockDefinition;
   IfBlockDefinition;
   WebInteractionAgent;
   TriggerBlockDefinition;
   SummaryWebhookBlockDefinition;
   TextInputWebhookBlockDefinition].

(** What the lookup reads of a [Node<WorkflowNode>]:
    [node.data.block.type].  The other fields of a node, declared in
    [reactflow] and [types/workflow], are not embedded here. *)
Module NodeBlock.
Record t : Type := mk { type : string }.
End NodeBlock.

Module WorkflowNode.
Record t : Type := mk { block : NodeBlock.t }.
End WorkflowNode.

Module Node.
Record t : Type := mk { data : WorkflowNode.t }.
End Node.

(** [getNodeBlockDefinitions().find((d) => d.type === node.data.block.type)];
    [undefined] is [None]. *)
Definition getNodeBlockDefinitionFromNode (node : Node.t)
    : option NodeBlockDefinition.t :=
  find (fun d =>
          String.eqb (NodeBlockDefinition.type d)
            (NodeBlock.type (WorkflowNode.block (Node.data node))))
    getNodeBlockDefinitions.

(** ** The page's handlers

    The handlers of [Home] in [src/next/src/pages/index.tsx] that decide
    whether an agent is created, resumed or stopped.  A handler is
    modelled by the calls it makes, in order, on the agent it finds in
    the agent store and on the stores and the state of the page. *)
Module Home.

Inductive Call : Type :=
| SetNameInput (v : string)
| SetGoalInput (v : string)
| SetShowSignInDialog (b : bool)
| NewAutonomousAgent (name goal : string)  (* new AutonomousAgent(..) *)
| SetAgentNew                              (* setAgent(newAgent) *)
| SetHasSaved (b : bool)
| ResetAllMessageSlices
| NewAgentRun                              (* newAgent.run() *)
| AgentUpdatePlayBackControl (pc : AgentPlaybackControl)
| UpdateIsAgentPausedFromAgent   (* updateIsAgentPaused(agent.playbackControl) *)
| AgentUpdateIsRunning (b : bool)
| AgentRun                                 (* agent.run() *)
| AgentStopAgent                           (* agent.stopAgent() *)
| UpdateIsAgentStopped.

(** A call on the agent that the page holds. *)
Definition onAgent (c : Call) : bool :=
  match c with
  | AgentUpdatePlayBackControl _ | UpdateIsAgentPausedFromAgent
  | AgentUpdateIsRunning _ | AgentRun | AgentStopAgent => true
  | _ => false
  end.

Section Handlers.

(** [isEmptyOrBlank] of [utils/whitespace], which is not embedded here,
    and [String.prototype.trim]. *)
Variable isEmptyOrBlank : string -> bool.
Variable trim : string -> string.

(** The agent of the page, whatever it is, and the user's session. *)
Context {Agent Session : Type}.

(** What a render of [Home] closes its handlers over. *)
Record Page : Type := mkPage {
  agent : option Agent;            (* null when there is none *)
  session : option Session;        (* null when nobody is signed in *)
  nameInput : string;
  goalInput : string;
  isAgentPaused : bool
}.

Definition disableDeployAgent (p : Page) : bool :=
  match agent p with Some _ => true | None => false end
  || isEmptyOrBlank (nameInput p) || isEmptyOrBlank (goalInput p).

Definition handleNewGoal (name goal : string) (p : Page) : list Call :=
  if String.eqb (trim name) EmptyString || String.eqb (trim goal) EmptyString
  then []
  else
    match session p with
    | None => [SetShowSignInDialog true]
    | Some _ =>
        [NewAutonomousAgent (trim name) (trim goal); SetAgentNew;
         SetHasSaved false; ResetAllMessageSlices; NewAgentRun]
    end.

Definition setAgentRun (newName newGoal : string) (p : Page) : list Call :=
  match agent p with
  | Some _ => []
  | None =>
      [SetNameInput newName; SetGoalInput newGoal]
      ++ handleNewGoal newName newGoal p
  end.

Definition handleContinue (p : Page) : list Call :=
  match agent p with
  | None => []
  | Some _ =>
      [AgentUpdatePlayBackControl AGENT_PLAY; UpdateIsAgentPausedFromAgent;
       AgentUpdateIsRunning true; AgentRun]
  end.

(** [e.key] and [e.shiftKey] are what the handler reads of the event. *)
Definition handleKeyPress (key : string) (shiftKey : bool) (p : Page)
    : list Call :=
  if String.eqb key "Enter" && negb (disableDeployAgent p) && negb shiftKey
  then
    (if isAgentPaused p then handleContinue p else [])
    ++ handleNewGoal (nameInput p) (goalInput p) p
  else [].

Definition handleStopAgent (p : Page) : list Call :=
  match agent p with
  | Some _ => [AgentStopAgent; UpdateIsAgentStopped]
  | None => [UpdateIsAgentStopped]
  end.

End Handlers.

Arguments Page Agent Session : clear implicits.

End Home.

Section Orchestrator.

(** The analysis descriptor returned by [analyzeTask]; the agent only
    passes it on. *)
Context {Analysis : Type}.

(** [translate] of [utils/translations] and [DEFAULT_MAX_LOOPS_FREE] of
    [utils/constants], two modules that are not embedded here. *)
Variable translate : string -> string -> string.
Variable DEFAULT_MAX_LOOPS_FREE : Z.

(** JavaScript truthiness of the values behind the constants of
    [types/agentTypes], which the constructor tests with [||]. *)
Variable truthyMode : AgentMode -> bool.
Variable truthyPlayback : AgentPlaybackControl -> bool.

(** Modelled from the spec: the Message variant of the data model, with the
    kinds goal, thinking, task, analysis, error, completed, loop-limit and
    manual-shutdown ([types/agentTypes] is not embedded here). *)
Inductive Message : Type :=
| MGoal (goal : string)
| MThinking
| MTask (t : Task)
| MAnalysis (a : Analysis)
| MError (text : string)
| MCompleted
| MLoop
| MManualShutdown.

(** The four requests of [AgentApi], with their arguments. *)
Inductive ApiCall : Type :=
| CInitial
| CAnalyze (task : string)
| CExecute (task : string) (a : Analysis)
| CAdditional (current : string) (remaining completed : list string)
    (result : string).

(** Everything the agent does to its environment, in order. *)
Inductive Event : Type :=
| EMsg (m : Message)                          (* renderMessage(m) *)
| EShutdown                                   (* this.shutdown() *)
| EHandlePause (pc : AgentPlaybackControl)    (* this.handlePause({..}) *)
| EDelay (ms : Z)                             (* await setTimeout *)
| ECall (c : ApiCall).                        (* a request of this.$api *)

(** The remote side.  Each request is answered by an oracle that may
    depend on how many requests were made before it ([clock]), so that
    equal requests may get different answers.  [hooked] says whether a
    failing request goes through the [onError] callback given to the
    [AgentApi] constructor before it is raised to the caller;
    [services/agent/agent-api] is not embedded here, so both wirings are
    covered. *)
Record AgentApi : Type := mkApi {
  getInitialTasks : nat -> Reply (list string);
  analyzeTask : nat -> string -> Reply Analysis;
  executeTask : nat -> string -> Analysis -> Reply string;
  getAdditionalTasks :
    nat -> string -> list string -> list string -> string ->
    Reply (list string);
  hooked : bool
}.

Variable api : AgentApi.

(** The agent's fields, the store it reads, and the world around it. *)
Record State : Type := mkState {
  (* fields of AutonomousAgent *)
  goal : string;
  completedTasks : list string;
  isRunning : bool;
  numLoops : Z;
  mode : AgentMode;
  playbackControl : AgentPlaybackControl;
  customMaxLoops : option Z;        (* modelSettings.customMaxLoops *)
  serviceRunning : bool;            (* messageService.isRunning *)
  (* useMessageStore.getState().tasks *)
  tasks : list Task;
  (* environment *)
  trace : list Event;
  uuid : nat;                       (* next identifier of v1() *)
  clock : nat;                      (* requests made so far *)
  (* bookkeeping on activations of loop(): pending now, and the most
     that were ever pending at once *)
  frames : nat;
  peak : nat
}.

Definition set_completedTasks v s :=
  mkState (goal s) v (isRunning s) (numLoops s) (mode s) (playbackControl s)
    (customMaxLoops s) (serviceRunning s) (tasks s) (trace s) (uuid s)
    (clock s) (frames s) (peak s).
Definition set_isRunning v s :=
  mkState (goal s) (completedTasks s) v (numLoops s) (mode s)
    (playbackControl s) (customMaxLoops s) (serviceRunning s) (tasks s)
    (trace s) (uuid s) (clock s) (frames s) (peak s).
Definition set_numLoops v s :=
  mkState (goal s) (completedTasks s) (isRunning s) v (mode s)
    (playbackControl s) (customMaxLoops s) (serviceRunning s) (tasks s)
    (trace s) (uuid s) (clock s) (frames s) (peak s).
Definition set_playbackControl v s :=
  mkState (goal s) (completedTasks s) (isRunning s) (numLoops s) (mode s) v
    (customMaxLoops s) (serviceRunning s) (tasks s) (trace s) (uuid s)
    (clock s) (frames s) (peak s).
Definition set_serviceRunning v s :=
  mkState (goal s) (completedTasks s) (isRunning s) (numLoops s) (mode s)
    (playbackControl s) (customMaxLoops s) v (tasks s) (trace s) (uuid s)
    (clock s) (frames s) (peak s).
Definition set_tasks v s :=
  mkState (goal s) (completedTasks s) (isRunning s) (numLoops s) (mode s)
    (playbackControl s) (customMaxLoops s) (serviceRunning s) v (trace s)
    (uuid s) (clock s) (frames s) (peak s).
Definition set_trace v s :=
  mkState (goal s) (completedTasks s) (isRunning s) (numLoops s) (mode s)
    (playbackControl s) (customMaxLoops s) (serviceRunning s) (tasks s) v
    (uuid s) (clock s) (frames s) (peak s).
Definition set_uuid v s :=
  mkState (goal s) (completedTasks s) (isRunning s) (numLoops s) (mode s)
    (playbackControl s) (customMaxLoops s) (serviceRunning s) (tasks s)
    (trace s) v (clock s) (frames s) (peak s).
Definition set_clock v s :=
  mkState (goal s) (completedTasks s) (isRunning s) (numLoops s) (mode s)
    (playbackControl s) (customMaxLoops s) (serviceRunning s) (tasks s)
    (trace s) (uuid s) v (frames s) (peak s).
Definition set_frames f p s :=
  mkState (goal s) (completedTasks s) (isRunning s) (numLoops s) (mode s)
    (playbackControl s) (customMaxLoops s) (serviceRunning s) (tasks s)
    (trace s) (uuid s) (clock s) f p.

(** ** The monad: state, exceptions, and fuel for the recursion *)

Inductive Outcome (A : Type) : Type :=
| Ret (a : A)          (* the promise resolved *)
| Throw (e : Exn)      (* the promise rejected *)
| OutOfFuel.           (* the model ran out of fuel *)
Arguments Ret {A} a.
Arguments Throw {A} e.
Arguments OutOfFuel {A}.

Definition M (A : Type) : Type := State -> Outcome A * State.

Definition ret {A} (a : A) : M A := fun s => (Ret a, s).

Definition bind {A B} (m : M A) (k : A -> M B) : M B :=
  fun s =>
    match m s with
    | (Ret a, s') => k a s'
    | (Throw e, s') => (Throw e, s')
    | (OutOfFuel, s') => (OutOfFuel, s')
    end.

Definition throw {A} (e : Exn) : M A := fun s => (Throw e, s).

(** [try { m } catch (e) { h e }] *)
Definition tryCatch {A} (m : M A) (h : Exn -> M A) : M A :=
  fun s =>
    match m s with
    | (Throw e, s') => h e s'
    | r => r
    end.

Definition gets {A} (f : State -> A) : M A := fun s => (Ret (f s), s).
Definition modify (f : State -> State) : M unit := fun s => (Ret tt, f s).

Notation "x <- m ;; k" := (bind m (fun x => k))
  (at level 61, m at next level, right associativity).
Notation "m ;; k" := (bind m (fun _ => k))
  (at level 61, right associativity).

Definition emit (e : Event) : M unit :=
  modify (fun s => set_trace (trace s ++ [e]) s).

(** ** The collaborators *)

(** The three callbacks that [index.tsx] passes to the constructor.
    [shutdown] is [() => setAgent(null)] and [handlePause] updates the
    agent store: neither touches a field of the agent. *)
Definition shutdown : M unit := emit EShutdown.
Definition handlePause (pc : AgentPlaybackControl) : M unit :=
  emit (EHandlePause pc).

(** Modelled from the spec: the TaskStore operations [updateStatus] and
    [append] of the message store ([stores] is not embedded here).
    [updateStatus] sets the status of the task with the message's
    identifier, and its info when the message carries one; a task is
    created when it is enqueued, always with status [started]. *)
Definition updateTaskStatus (u : Task) (ts : list Task) : list Task :=
  map (fun t =>
         if Nat.eqb (taskId t) (taskId u)
         then mkTask (taskId t) (value t) (status u)
                (match info u with Some i => Some i | None => info t end)
         else t) ts.

(** Modelled from the spec: [append] of the TaskStore, for a task message
    that enqueues a task; a message about a task already enqueued adds
    none. *)
Definition appendTask (u : Task) (ts : list Task) : list Task :=
  if TaskStatus_eqb (status u) started then ts ++ [u] else ts.

(** [handleAddMessage] of [index.tsx], the [renderMessage] callback:
    [if (isTask(message)) updateTaskStatus(message); addMessage(message)]. *)
Definition renderMessage (m : Message) : M unit :=
  match m with
  | MTask u =>
      modify (fun s => set_tasks (updateTaskStatus u (tasks s)) s) ;;
      modify (fun s => set_tasks (appendTask u (tasks s)) s) ;;
      emit (EMsg m)
  | _ => emit (EMsg m)
  end.

(** Modelled from the spec: the message service ([message-service] is not
    embedded here) hands every message to the event sink, in emission
    order; [setIsRunning] records the flag the agent gives it. *)
Definition sendMessage (m : Message) : M unit := renderMessage m.
Definition sendGoalMessage (g : string) : M unit := sendMessage (MGoal g).
Definition sendThinkingMessage : M unit := sendMessage MThinking.
Definition sendAnalysisMessage (a : Analysis) : M unit :=
  sendMessage (MAnalysis a).
Definition sendErrorMessage (text : string) : M unit :=
  sendMessage (MError text).
Definition sendCompletedMessage : M unit := sendMessage MCompleted.
Definition sendLoopMessage : M unit := sendMessage MLoop.
Definition sendManualShutdownMessage : M unit := sendMessage MManualShutdown.
Definition setIsRunning (b : bool) : M unit :=
  modify (set_serviceRunning b).

(** [await new Promise((r) => setTimeout(r, ms))] *)
Definition delay (ms : Z) : M unit := emit (EDelay ms).

(** [v1().toString()] *)
Definition v1 : M nat :=
  fun s => (Ret (uuid s), set_uuid (S (uuid s)) s).

(** ** The agent *)

(** [onApiError]: [this.shutdown(); throw e;] *)
Definition onApiError {A} (e : Exn) : M A := shutdown ;; throw e.

(** A request of [this.$api]. *)
Definition request {A} (c : ApiCall) (oracle : nat -> Reply A) : M A :=
  now <- gets clock ;;
  modify (fun s => set_clock (S (clock s)) s) ;;
  emit (ECall c) ;;
  match oracle now with
  | Resolved a => ret a
  | Rejected e => if hooked api then onApiError e else throw e
  end.

(** The value of [message] at the end of [getMessageFromError]. *)
Definition errorKey (e : Exn) : string :=
  let message := "ERROR_RETRIEVE_INITIAL_TASKS" in
  match e with
  | AxiosError st =>
      let message :=
        if match st with Some c => Z.eqb c 429 | None => false end
        then "ERROR_API_KEY_QUOTA" else message in
      if match st with Some c => Z.eqb c 404 | None => false end
      then "ERROR_OPENAI_API_KEY_NO_GPT4"
      else "ERROR_ACCESSING_OPENAI_API_KEY"
  | _ => message
  end.

Definition getMessageFromError (e : Exn) : string :=
  translate (errorKey e) "errors".

(** The constructor's two computed fields. *)
Definition initialMode (modeArg : option AgentMode) : AgentMode :=
  match modeArg with
  | Some m => if truthyMode m then m else AUTOMATIC_MODE
  | None => AUTOMATIC_MODE
  end.

Definition initialPlayback (modeArg : option AgentMode)
    (playbackArg : option AgentPlaybackControl) : AgentPlaybackControl :=
  let supplied :=
    match playbackArg with Some p => truthyPlayback p | None => false end in
  if supplied || AgentMode_eqb (initialMode modeArg) PAUSE_MODE
  then AGENT_PAUSE else AGENT_PLAY.

(** [new AutonomousAgent(..)] in a world whose task store holds [ts]. *)
Definition construct (g : string) (settings : option Z)
    (modeArg : option AgentMode) (playbackArg : option AgentPlaybackControl)
    (ts : list Task) : State :=
  mkState g [] false 0 (initialMode modeArg)
    (initialPlayback modeArg playbackArg) settings false ts [] 0 0 0 0.

Definition getRemainingTasks (s : State) : list Task :=
  filter (fun t => TaskStatus_eqb (status t) started) (tasks s).

Definition conditionalPause : M unit :=
  m <- gets mode ;;
  if negb (AgentMode_eqb m PAUSE_MODE) then ret tt
  else
    pc <- gets playbackControl ;;
    modify (set_isRunning (negb (Playback_eqb pc AGENT_PAUSE))) ;;
    pc <- gets playbackControl ;;
    if Playback_eqb pc AGENT_PLAY
    then modify (set_playbackControl AGENT_PAUSE)
    else ret tt.

(** [customMaxLoops || DEFAULT_MAX_LOOPS_FREE]: an absent or zero custom
    value is falsy. *)
Definition maxLoops (s : State) : Z :=
  match customMaxLoops s with
  | Some n => if Z.eqb n 0 then DEFAULT_MAX_LOOPS_FREE else n
  | None => DEFAULT_MAX_LOOPS_FREE
  end.

Definition updatePlayBackControl (pc : AgentPlaybackControl) : M unit :=
  modify (set_playbackControl pc).

Definition updateIsRunning (b : bool) : M unit :=
  setIsRunning b ;; modify (set_isRunning b).

Definition stopAgent : M unit :=
  sendManualShutdownMessage ;;
  updateIsRunning false ;;
  shutdown.

(** The two [for (const value of ...)] loops, which are the same code. *)
Fixpoint sendStarted (values : list string) : M unit :=
  match values with
  | [] => ret tt
  | v :: rest =>
      delay TIMOUT_SHORT ;;
      id <- v1 ;;
      sendMessage (MTask (mkTask id v started None)) ;;
      sendStarted rest
  end.

Definition startGoal : M unit :=
  g <- gets goal ;;
  sendGoalMessage g ;;
  sendThinkingMessage ;;
  tryCatch
    (taskValues <- request CInitial (getInitialTasks api) ;;
     sendStarted taskValues)
    (fun e =>
       sendErrorMessage (getMessageFromError e) ;;
       shutdown).

(** Lines 126 to 176 of [loop]: one task, from its selection to the
    enqueueing of its follow-ups. *)
Definition taskCycle : M unit :=
  remaining <- gets getRemainingTasks ;;
  match remaining with
  | [] =>
      (* [currentTask] is undefined and [currentTask.value] raises; the
         list was found non-empty at line 109 and nothing ran since *)
      throw TypeError
  | currentTask :: _ =>
      sendMessage (MTask (withStatus currentTask executing)) ;;
      sendThinkingMessage ;;
      analysis <- request (CAnalyze (value currentTask))
                    (fun t => analyzeTask api t (value currentTask)) ;;
      sendAnalysisMessage analysis ;;
      result <- request (CExecute (value currentTask) analysis)
                  (fun t => executeTask api t (value currentTask) analysis) ;;
      sendMessage (MTask (withResult currentTask result completed)) ;;
      modify (fun s =>
                set_completedTasks (completedTasks s ++ [value currentTask]) s) ;;
      delay TIMEOUT_LONG ;;
      sendThinkingMessage ;;
      tryCatch
        (remaining <- gets getRemainingTasks ;;
         done <- gets completedTasks ;;
         newTasks <- request
                       (CAdditional (value currentTask)
                          (map value remaining) done result)
                       (fun t => getAdditionalTasks api t (value currentTask)
                                   (map value remaining) done result) ;;
         sendStarted newTasks ;;
         if Nat.eqb (List.length newTasks) 0
         then sendMessage (MTask (withStatus currentTask final))
         else ret tt)
        (fun _ =>
           sendErrorMessage (translate "ERROR_ADDING_ADDITIONAL_TASKS" "errors") ;;
           sendMessage (MTask (withStatus currentTask final)))
  end.

(** One pass through the body of [loop] up to its last line.  The result
    is [false] where the body leaves through one of its [return]
    statements and [true] where it reaches [await this.loop()]. *)
Definition iteration : M bool :=
  conditionalPause ;;
  running <- gets isRunning ;;
  if negb running then ret false
  else
    remaining <- gets getRemainingTasks ;;
    if Nat.eqb (List.length remaining) 0 then
      sendCompletedMessage ;; shutdown ;; ret false
    else
      modify (fun s => set_numLoops (numLoops s + 1) s) ;;
      limit <- gets maxLoops ;;
      n <- gets numLoops ;;
      if Z.ltb limit n then
        sendLoopMessage ;; shutdown ;; ret false
      else
        delay TIMEOUT_LONG ;;
        taskCycle ;;
        ret true.

(** An activation of [loop()]: it is pending from its call until its
    promise settles, whether it resolves or rejects. *)
Definition activation {A} (m : M A) : M A :=
  fun s =>
    let s1 := set_frames (S (frames s)) (Nat.max (peak s) (S (frames s))) s in
    let (r, s2) := m s1 in
    (r, set_frames (Nat.pred (frames s2)) (peak s2) s2).

(** [loop]: the body, and at its end [await this.loop()]. *)
Fixpoint loop (fuel : nat) : M unit :=
  match fuel with
  | O => fun s => (OutOfFuel, s)
  | S fuel' =>
      activation
        (again <- iteration ;;
         if again then loop fuel' else ret tt)
  end.

Definition run (fuel : nat) : M unit :=
  running <- gets isRunning ;;
  (if negb running then updateIsRunning true ;; startGoal else ret tt) ;;
  loop fuel ;;
  m <- gets mode ;;
  running <- gets isRunning ;;
  if AgentMode_eqb m PAUSE_MODE && negb running
  then pc <- gets playbackControl ;; handlePause pc
  else ret tt.

(** [handleContinue] of [index.tsx], as far as it acts on the agent:
    [agent.updatePlayBackControl(AGENT_PLAY); agent.updateIsRunning(true);
    agent.run()].  (Between the first two it updates the page's own
    store.) *)
Definition handleContinue (fuel : nat) : M unit :=
  updatePlayBackControl AGENT_PLAY ;;
  updateIsRunning true ;;
  run fuel.

(** ** Reading a trace *)

(** The events that one or more calls added to the trace. *)
Definition newEvents (s s' : State) : list Event :=
  skipn (List.length (trace s)) (trace s').

(** The messages among some events, in order. *)
Fixpoint messages (es : list Event) : list Message :=
  match es with
  | [] => []
  | EMsg m :: rest => m :: messages rest
  | _ :: rest => messages rest
  end.

Definition isTaskMessage (m : Message) : bool :=
  match m with MTask _ => true | _ => false end.

Definition isErrorMessage (m : Message) : bool :=
  match m with MError _ => true | _ => false end.

Definition isInitialCall (e : Event) : bool :=
  match e with ECall CInitial => true | _ => false end.

Definition isGoalMessage (e : Event) : bool :=
  match e with EMsg (MGoal _) => true | _ => false end.

Definition isShutdown (e : Event) : bool :=
  match e with EShutdown => true | _ => false end.

Definition isLoopMessage (e : Event) : bool :=
  match e with EMsg MLoop => true | _ => false end.

(** A task message that selects a task: the start of a task cycle. *)
Definition isSelection (e : Event) : bool :=
  match e with
  | EMsg (MTask u) => TaskStatus_eqb (status u) executing
  | _ => false
  end.

Definition count (p : Event -> bool) (es : list Event) : nat :=
  List.length (filter p es).

(** The statuses that the task messages about [id] announce, in order. *)
Fixpoint statusesOf (id : nat) (es : list Event) : list TaskStatus :=
  match es with
  | [] => []
  | EMsg (MTask u) :: rest =>
      if Nat.eqb (taskId u) id then status u :: statusesOf id rest
      else statusesOf id rest
  | _ :: rest => statusesOf id rest
  end.

(** ** States and outcomes in closed form

    What each step of the agent leaves behind, written as a function of
    the state it starts from; the lemmas below prove that the
    computations of the model arrive there. *)

(** What delivering a message does to the task store. *)
Definition storeAfter (m : Message) (ts : list Task) : list Task :=
  match m with
  | MTask u => appendTask u (updateTaskStatus u ts)
  | _ => ts
  end.

(** The state after [sendMessage(m)]. *)
Definition delivered (m : Message) (s : State) : State :=
  mkState (goal s) (completedTasks s) (isRunning s) (numLoops s) (mode s)
    (playbackControl s) (customMaxLoops s) (serviceRunning s)
    (storeAfter m (tasks s)) (trace s ++ [EMsg m]) (uuid s) (clock s)
    (frames s) (peak s).

(** The state after an action that only shows in the trace. *)
Definition emitted (e : Event) (s : State) : State :=
  set_trace (trace s ++ [e]) s.

(** *** Enqueueing *)

(** The task message that enqueues [v]. *)
Definition startedTask (id : nat) (v : string) : Task :=
  mkTask id v started None.

(** The events, and the store, of [for (const value of values)] when the
    next identifier is [u]. *)
Fixpoint startedEvents (u : nat) (values : list string) : list Event :=
  match values with
  | [] => []
  | v :: rest =>
      EDelay TIMOUT_SHORT :: EMsg (MTask (startedTask u v))
        :: startedEvents (S u) rest
  end.

Fixpoint enqueuedTasks (u : nat) (values : list string) (ts : list Task)
    : list Task :=
  match values with
  | [] => ts
  | v :: rest =>
      enqueuedTasks (S u) rest (storeAfter (MTask (startedTask u v)) ts)
  end.

(** The state after the [for] loop over [values]. *)
Definition enqueued (values : list string) (s : State) : State :=
  mkState (goal s) (completedTasks s) (isRunning s) (numLoops s) (mode s)
    (playbackControl s) (customMaxLoops s) (serviceRunning s)
    (enqueuedTasks (uuid s) values (tasks s))
    (trace s ++ startedEvents (uuid s) values)
    (uuid s + List.length values)%nat (clock s) (frames s) (peak s).

(** *** Requests *)

(** The state after a request that was answered. *)
Definition called (c : ApiCall) (s : State) : State :=
  mkState (goal s) (completedTasks s) (isRunning s) (numLoops s) (mode s)
    (playbackControl s) (customMaxLoops s) (serviceRunning s) (tasks s)
    (trace s ++ [ECall c]) (uuid s) (S (clock s)) (frames s) (peak s).

(** The error hook, when the API has one, shuts down before the error
    reaches the caller. *)
Definition hookEvents : list Event :=
  if hooked api then [EShutdown] else [].

(** The state after a request that failed. *)
Definition failed (c : ApiCall) (s : State) : State :=
  mkState (goal s) (completedTasks s) (isRunning s) (numLoops s) (mode s)
    (playbackControl s) (customMaxLoops s) (serviceRunning s) (tasks s)
    (trace s ++ ECall c :: hookEvents) (uuid s) (S (clock s)) (frames s)
    (peak s).

(** *** The phases of a task cycle *)

(** The task is announced as executing. *)
Definition selected (t : Task) (s : State) : State :=
  delivered MThinking (delivered (MTask (withStatus t executing)) s).

(** The analysis came back and was announced. *)
Definition analysed (t : Task) (a : Analysis) (s : State) : State :=
  delivered (MAnalysis a) (called (CAnalyze (value t)) (selected t s)).

(** The result came back: the task is announced as completed and its
    value recorded. *)
Definition executed (t : Task) (a : Analysis) (r : string) (s : State)
    : State :=
  let s1 := delivered (MTask (withResult t r completed))
              (called (CExecute (value t) a) (analysed t a s)) in
  delivered MThinking
    (emitted (EDelay TIMEOUT_LONG)
       (set_completedTasks (completedTasks s1 ++ [value t]) s1)).

(** The request for follow-up tasks, as made in state [s]. *)
Definition followUpCall (t : Task) (r : string) (s : State) : ApiCall :=
  CAdditional (value t) (map value (getRemainingTasks s))
    (completedTasks s) r.

(** The follow-ups arrived and were enqueued. *)
Definition expanded (t : Task) (r : string) (vs : list string) (s : State)
    : State :=
  let s1 := enqueued vs (called (followUpCall t r s) s) in
  if Nat.eqb (List.length vs) 0
  then delivered (MTask (withStatus t final)) s1
  else s1.

(** The request for follow-ups failed and the failure was caught. *)
Definition absorbed (t : Task) (r : string) (s : State) : State :=
  delivered (MTask (withStatus t final))
    (delivered (MError (translate "ERROR_ADDING_ADDITIONAL_TASKS" "errors"))
       (failed (followUpCall t r s) s)).

(** Outcome and final state of [taskCycle] on the task [t]. *)
Definition taskCycleResult (t : Task) (s : State) : Outcome unit * State :=
  let s1 := selected t s in
  match analyzeTask api (clock s1) (value t) with
  | Rejected e => (Throw e, failed (CAnalyze (value t)) s1)
  | Resolved a =>
      let s2 := analysed t a s in
      match executeTask api (clock s2) (value t) a with
      | Rejected e => (Throw e, failed (CExecute (value t) a) s2)
      | Resolved r =>
          let s3 := executed t a r s in
          match getAdditionalTasks api (clock s3) (value t)
                  (map value (getRemainingTasks s3)) (completedTasks s3) r
          with
          | Rejected _ => (Ret tt, absorbed t r s3)
          | Resolved vs => (Ret tt, expanded t r vs s3)
          end
      end
  end.

(** *** A pass through the body of [loop] *)

(** Whether the pause check lets the pass go on. *)
Definition admits (s : State) : bool :=
  match mode s with
  | AUTOMATIC_MODE => isRunning s
  | PAUSE_MODE => negb (Playback_eqb (playbackControl s) AGENT_PAUSE)
  end.

(** The state that [conditionalPause] leaves: in pause mode [isRunning]
    is what the flag said, and the flag is [AGENT_PAUSE]. *)
Definition admitted (s : State) : State :=
  mkState (goal s) (completedTasks s) (admits s) (numLoops s) (mode s)
    (match mode s with
     | AUTOMATIC_MODE => playbackControl s
     | PAUSE_MODE => AGENT_PAUSE
     end)
    (customMaxLoops s) (serviceRunning s) (tasks s) (trace s) (uuid s)
    (clock s) (frames s) (peak s).

(** The state after [this.numLoops += 1]. *)
Definition counted (s : State) : State :=
  set_numLoops (numLoops (admitted s) + 1) (admitted s).

(** The pass goes on to [await this.loop()] when the task cycle returns. *)
Definition continued (p : Outcome unit * State) : Outcome bool * State :=
  match p with
  | (Ret _, s') => (Ret true, s')
  | (Throw e, s') => (Throw e, s')
  | (OutOfFuel, s') => (OutOfFuel, s')
  end.

(** Outcome and final state of [iteration]. *)
Definition iterationResult (s : State) : Outcome bool * State :=
  if negb (admits s) then (Ret false, admitted s)
  else
    match getRemainingTasks (admitted s) with
    | [] => (Ret false, emitted EShutdown (delivered MCompleted (admitted s)))
    | t :: _ =>
        if Z.ltb (maxLoops (counted s)) (numLoops (counted s))
        then (Ret false, emitted EShutdown (delivered MLoop (counted s)))
        else
          continued
            (taskCycleResult t (emitted (EDelay TIMEOUT_LONG) (counted s)))
    end.

(** The four ways through a task cycle. *)
Inductive Cycle (t : Task) (s : State) : Outcome unit * State -> Prop :=
| CycleAnalysisFailed (e : Exn) :
    analyzeTask api (clock s) (value t) = Rejected e ->
    Cycle t s (Throw e, failed (CAnalyze (value t)) (selected t s))
| CycleExecutionFailed (a : Analysis) (e : Exn) :
    analyzeTask api (clock s) (value t) = Resolved a ->
    executeTask api (S (clock s)) (value t) a = Rejected e ->
    Cycle t s (Throw e, failed (CExecute (value t) a) (analysed t a s))
| CycleAbsorbed (a : Analysis) (r : string) (e : Exn) :
    analyzeTask api (clock s) (value t) = Resolved a ->
    executeTask api (S (clock s)) (value t) a = Resolved r ->
    getAdditionalTasks api (S (S (clock s))) (value t)
      (map value (getRemainingTasks (executed t a r s)))
      (completedTasks s ++ [value t]) r = Rejected e ->
    Cycle t s (Ret tt, absorbed t r (executed t a r s))
| CycleExpanded (a : Analysis) (r : string) (vs : list string) :
    analyzeTask api (clock s) (value t) = Resolved a ->
    executeTask api (S (clock s)) (value t) a = Resolved r ->
    getAdditionalTasks api (S (S (clock s))) (value t)
      (map value (getRemainingTasks (executed t a r s)))
      (completedTasks s ++ [value t]) r = Resolved vs ->
    Cycle t s (Ret tt, expanded t r vs (executed t a r s)).

(** The four ways through the body of [loop]. *)
Inductive Pass (s : State) : Outcome bool * State -> Prop :=
| PassSuspended :
    admits s = false ->
    Pass s (Ret false, admitted s)
| PassCompleted :
    admits s = true ->
    getRemainingTasks s = [] ->
    Pass s (Ret false, emitted EShutdown (delivered MCompleted (admitted s)))
| PassLimit (t : Task) (rest : list Task) :
    admits s = true ->
    getRemainingTasks s = t :: rest ->
    maxLoops s < numLoops s + 1 ->
    Pass s (Ret false, emitted EShutdown (delivered MLoop (counted s)))
| PassCycle (t : Task) (rest : list Task) :
    admits s = true ->
    getRemainingTasks s = t :: rest ->
    numLoops s + 1 <= maxLoops s ->
    Pass s (continued
              (taskCycleResult t (emitted (EDelay TIMEOUT_LONG) (counted s)))).

(** *** What the steps leave alone *)

(** The agent's control fields and the activation bookkeeping. *)
Definition sameControl (s s' : State) : Prop :=
  goal s' = goal s /\ isRunning s' = isRunning s /\
  numLoops s' = numLoops s /\ mode s' = mode s /\
  playbackControl s' = playbackControl s /\
  customMaxLoops s' = customMaxLoops s /\
  serviceRunning s' = serviceRunning s /\
  frames s' = frames s /\ peak s' = peak s.

(** The events of a task cycle. *)
Definition cycleEvent (e : Event) : bool :=
  match e with
  | EMsg (MTask _) | EMsg MThinking | EMsg (MAnalysis _) | EMsg (MError _) =>
      true
  | EShutdown | EDelay _ => true
  | ECall (CAnalyze _) | ECall (CExecute _ _) | ECall (CAdditional _ _ _ _) =>
      true
  | _ => false
  end.

(** The events of [loop]: those of a task cycle and the two closing
    messages. *)
Definition loopEvent (e : Event) : bool :=
  match e with
  | EMsg MCompleted | EMsg MLoop => true
  | _ => cycleEvent e
  end.

(** Settings that no pass changes, and the bookkeeping. *)
Definition sameSettings (s s' : State) : Prop :=
  goal s' = goal s /\ mode s' = mode s /\
  customMaxLoops s' = customMaxLoops s /\
  serviceRunning s' = serviceRunning s /\
  frames s' = frames s /\ peak s' = peak s.

(** *** Activations of [loop] *)

(** The state on entering, and on leaving, an activation. *)
Definition entered (s : State) : State :=
  set_frames (S (frames s)) (Nat.max (peak s) (S (frames s))) s.

Definition exited (s : State) : State :=
  set_frames (Nat.pred (frames s)) (peak s) s.

(** [loop] with one more unit of fuel. *)
Definition loopResult (fuel : nat) (s : State) : Outcome unit * State :=
  match iteration (entered s) with
  | (Ret true, s1) => let (r, s2) := loop fuel s1 in (r, exited s2)
  | (Ret false, s1) => (Ret tt, exited s1)
  | (Throw e, s1) => (Throw e, exited s1)
  | (OutOfFuel, s1) => (OutOfFuel, exited s1)
  end.

(** *** Starting, resuming and stopping *)

(** The state after [updateIsRunning(true)]. *)
Definition launched (s : State) : State :=
  set_isRunning true (set_serviceRunning true s).

(** The state after the two opening messages of [startGoal]. *)
Definition announced (s : State) : State :=
  delivered MThinking (delivered (MGoal (goal s)) s).

(** The state after the [catch] block of [startGoal]. *)
Definition startFailed (e : Exn) (s : State) : State :=
  emitted EShutdown
    (delivered (MError (getMessageFromError e))
       (failed CInitial (announced s))).

(** The state after [startGoal] when the initial tasks arrived. *)
Definition startSucceeded (vs : list string) (s : State) : State :=
  enqueued vs (called CInitial (announced s)).

(** The end of [run]: the owner is told when the agent is paused. *)
Definition notified (s : State) : State :=
  if AgentMode_eqb (mode s) PAUSE_MODE && negb (isRunning s)
  then emitted (EHandlePause (playbackControl s)) s
  else s.

(** Outcome and final state of [run], from those of its [loop]. *)
Definition runResult (p : Outcome unit * State) : Outcome unit * State :=
  match p with
  | (Ret _, s') => (Ret tt, notified s')
  | other => other
  end.

(** The state after [stopAgent]. *)
Definition stopped (s : State) : State :=
  mkState (goal s) (completedTasks s) false (numLoops s) (mode s)
    (playbackControl s) (customMaxLoops s) false (tasks s)
    (trace s ++ [EMsg MManualShutdown; EShutdown]) (uuid s) (clock s)
    (frames s) (peak s).

(** *** Relations between the states before and after *)

(** The events of [loop]. *)
Definition addsLoopEvents (s s' : State) : Prop :=
  exists d, trace s' = trace s ++ d /\ forallb loopEvent d = true.

(** Settings and, in automatic mode, [isRunning] across [loop]. *)
Definition keepsRunning (s s' : State) : Prop :=
  mode s' = mode s /\
  (mode s = AUTOMATIC_MODE -> isRunning s' = isRunning s).

(** A reasoning service that always answers, and always with one
    follow-up task, keeps the loop going until the budget is spent. *)
Definition alwaysOneMore : Prop :=
  (forall n v, exists a, analyzeTask api n v = Resolved a) /\
  (forall n v a, exists r, executeTask api n v a = Resolved r) /\
  (forall n c remaining done r,
     exists v, getAdditionalTasks api n c remaining done r = Resolved [v]).

(** *** The announcements of a task *)

(** The order in which the statuses of one task are announced: a prefix
    of started, executing, completed, final. *)
Definition orderly (l : list TaskStatus) : bool :=
  match l with
  | [] | [started] | [started; executing]
  | [started; executing; completed]
  | [started; executing; completed; final] => true
  | _ => false
  end.

(** The trace and the store agree: every task has been announced in
    order, a task waiting in the store has been announced as started and
    nothing more, and no identifier still to be drawn has been used. *)
Definition consistent (s : State) : Prop :=
  (forall id, orderly (statusesOf id (trace s)) = true) /\
  (forall t, In t (tasks s) -> status t = started ->
             statusesOf (taskId t) (trace s) = [started]) /\
  (forall id, (uuid s <= id)%nat -> statusesOf id (trace s) = []).




(** *** Cost, history and the queue *)

(** A request of the reasoning service. *)
Definition isRequest (e : Event) : bool :=
  match e with ECall _ => true | _ => false end.

(** The owner is told that the agent is paused. *)
Definition isPauseNotice (e : Event) : bool :=
  match e with EHandlePause _ => true | _ => false end.

(** The values of the tasks announced as completed, in order. *)
Fixpoint completedValues (es : list Event) : list string :=
  match es with
  | [] => []
  | EMsg (MTask u) :: rest =>
      if TaskStatus_eqb (status u) completed
      then value u :: completedValues rest
      else completedValues rest
  | _ :: rest => completedValues rest
  end.

(** The events of the start phase. *)
Definition startEvent (e : Event) : bool :=
  match e with
  | EMsg (MGoal _) | EMsg MThinking | EMsg (MError _) => true
  | EMsg (MTask u) => TaskStatus_eqb (status u) started
  | EDelay _ | EShutdown | ECall CInitial => true
  | _ => false
  end.

(** What a call of [loop] adds to the agent's books: the completed list
    grows by the values announced as completed, each task selected costs
    at most three requests and one loop of the budget, the settings stay,
    and the owner is not told anything. *)
Definition ledger (s s' : State) : Prop :=
  exists d,
    trace s' = trace s ++ d /\
    completedTasks s' = completedTasks s ++ completedValues d /\
    (count isRequest d <= 3 * count isSelection d)%nat /\
    numLoops s + Z.of_nat (count isSelection d) <= numLoops s' /\
    Z.of_nat (count isSelection d) <= Z.max 0 (maxLoops s - numLoops s) /\
    customMaxLoops s' = customMaxLoops s /\
    count isPauseNotice d = 0%nat.

(** No task of the store is being executed. *)
Definition noneExecuting (ts : list Task) : Prop :=
  forall t, In t ts -> status t <> executing.

(** The tasks that enqueue [values] under consecutive identifiers. *)
Fixpoint numbered (u : nat) (values : list string) : list Task :=
  match values with
  | [] => []
  | v :: rest => startedTask u v :: numbered (S u) rest
  end.

(** The identifiers in the store are pairwise distinct and have all been
    drawn already. *)
Definition wellNumbered (s : State) : Prop :=
  NoDup (map taskId (tasks s)) /\
  forall t, In t (tasks s) -> (taskId t < uuid s)%nat.

(** The task [t] of the store after an update by the message [u]. *)
Definition replaced (u t : Task) : Task :=
  mkTask (taskId t) (value t) (status u)
    (match info u with Some i => Some i | None => info t end).

(** The store is the tasks that were carried out, in the order in which
    the completed list has them, followed by the tasks that wait. *)
Definition inOrder (s : State) : Prop :=
  exists done,
    tasks s = done ++ getRemainingTasks s /\
    (forall y, In y done -> status y <> started) /\
    completedTasks s = map value done.

(** What no call of [loop] changes, and the counter that it only
    raises. *)
Definition keepsSettings (s s' : State) : Prop :=
  goal s' = goal s /\ mode s' = mode s /\
  customMaxLoops s' = customMaxLoops s /\
  serviceRunning s' = serviceRunning s /\
  numLoops s <= numLoops s'.

(** *** Pacing and closing *)

(** The time that the agent spends waiting, in milliseconds. *)
Fixpoint totalDelay (es : list Event) : Z :=
  match es with
  | [] => 0
  | EDelay ms :: rest => ms + totalDelay rest
  | _ :: rest => totalDelay rest
  end.

(** A task message that enqueues a task, and one that announces a task
    as completed. *)
Definition isEnqueue (e : Event) : bool :=
  match e with
  | EMsg (MTask u) => TaskStatus_eqb (status u) started
  | _ => false
  end.

Definition isCompletion (e : Event) : bool :=
  match e with
  | EMsg (MTask u) => TaskStatus_eqb (status u) completed
  | _ => false
  end.

(** One second before each task selected and after each task
    completed, and eight tenths of a second before each task enqueued. *)
Definition paced (d : list Event) : Prop :=
  totalDelay d =
  TIMEOUT_LONG * Z.of_nat (count isSelection d + count isCompletion d)
  + TIMOUT_SHORT * Z.of_nat (count isEnqueue d).

(** One of the two messages that close a run. *)
Definition isClosing (e : Event) : bool :=
  match e with
  | EMsg MCompleted | EMsg MLoop => true
  | _ => false
  end.

(** Events without a closing message, or ending with the one closing
    message and the call of [shutdown]. *)
Definition closedOnce (d : list Event) : Prop :=
  count isClosing d = 0%nat \/
  exists d' m,
    d = d' ++ [EMsg m; EShutdown] /\ (m = MCompleted \/ m = MLoop) /\
    count isClosing d' = 0%nat.

(** The state with another playback flag. *)
Definition flagged (pc : AgentPlaybackControl) (p : Outcome unit * State)
    : Outcome unit * State :=
  (fst p, set_playbackControl pc (snd p)).

(** ** Equations of the building blocks *)

Create HintDb agent.
#[local] Hint Unfold ret bind throw tryCatch gets modify emit shutdown
  handlePause renderMessage sendMessage sendGoalMessage sendThinkingMessage
  sendAnalysisMessage sendErrorMessage sendCompletedMessage sendLoopMessage
  sendManualShutdownMessage setIsRunning delay v1 onApiError request
  updatePlayBackControl updateIsRunning : agent.

(** Run the straight-line part of a computation. *)
Ltac exec := repeat (autounfold with agent; simpl).

Lemma AgentMode_eqb_eq (a b : AgentMode) : AgentMode_eqb a b = true <-> a = b.
Proof. destruct a, b; simpl; split; congruence. Qed.

Lemma Playback_eqb_eq (a b : AgentPlaybackControl) :
  Playback_eqb a b = true <-> a = b.
Proof. destruct a, b; simpl; split; congruence. Qed.

Lemma TaskStatus_eqb_eq (a b : TaskStatus) :
  TaskStatus_eqb a b = true <-> a = b.
Proof. destruct a, b; simpl; split; congruence. Qed.

Lemma sendMessage_eq (m : Message) (s : State) :
  sendMessage m s = (Ret tt, delivered m s).
Proof. destruct s, m; reflexivity. Qed.

Lemma emit_eq (e : Event) (s : State) : emit e s = (Ret tt, emitted e s).
Proof. reflexivity. Qed.

Lemma newEvents_app (s s' : State) (d : list Event) :
  trace s' = trace s ++ d -> newEvents s s' = d.
Proof.
  intros H. unfold newEvents. rewrite H.
  rewrite skipn_app, skipn_all, Nat.sub_diag. reflexivity.
Qed.

Lemma messages_app (a b : list Event) :
  messages (a ++ b) = messages a ++ messages b.
Proof.
  induction a as [|e a IH]; simpl; [reflexivity|].
  destruct e; simpl; rewrite IH; reflexivity.
Qed.


Lemma count_app (p : Event -> bool) (a b : list Event) :
  count p (a ++ b) = (count p a + count p b)%nat.
Proof. unfold count. rewrite filter_app, length_app. reflexivity. Qed.

(** *** Enqueueing a list of new tasks *)

Lemma sendStarted_eq (values : list string) (s : State) :
  sendStarted values s = (Ret tt, enqueued values s).
Proof.
  revert s. induction values as [|v rest IH]; intros s.
  - destruct s. unfold enqueued. simpl.
    rewrite app_nil_r, Nat.add_0_r. reflexivity.
  - simpl sendStarted. exec. rewrite IH.
    destruct s. unfold enqueued. simpl.
    rewrite <- !app_assoc. simpl. rewrite Nat.add_succ_r. reflexivity.
Qed.

(** *** A request and its two ends *)

Lemma request_resolved {A} (c : ApiCall) (oracle : nat -> Reply A)
    (s : State) (a : A) :
  oracle (clock s) = Resolved a ->
  request c oracle s = (Ret a, called c s).
Proof. intros H. destruct s. exec. simpl in H. rewrite H. reflexivity. Qed.

Lemma request_rejected {A} (c : ApiCall) (oracle : nat -> Reply A)
    (s : State) (e : Exn) :
  oracle (clock s) = Rejected e ->
  request c oracle s = (@Throw A e, failed c s).
Proof.
  intros H. destruct s. unfold failed, hookEvents. exec. simpl in H.
  rewrite H. destruct (hooked api); exec; [|reflexivity].
  rewrite <- app_assoc. reflexivity.
Qed.

(** *** One task cycle, phase by phase *)

Lemma bind_ret {A B} (m : M A) (k : A -> M B) (s s' : State) (a : A) :
  m s = (Ret a, s') -> bind m k s = k a s'.
Proof. intros H. unfold bind. rewrite H. reflexivity. Qed.

Lemma bind_throw {A B} (m : M A) (k : A -> M B) (s s' : State) (e : Exn) :
  m s = (Throw e, s') -> bind m k s = (Throw e, s').
Proof. intros H. unfold bind. rewrite H. reflexivity. Qed.

Lemma tryCatch_ret {A} (m : M A) (h : Exn -> M A) (s s' : State) (a : A) :
  m s = (Ret a, s') -> tryCatch m h s = (Ret a, s').
Proof. intros H. unfold tryCatch. rewrite H. reflexivity. Qed.

Lemma tryCatch_throw {A} (m : M A) (h : Exn -> M A) (s s' : State)
    (e : Exn) :
  m s = (Throw e, s') -> tryCatch m h s = h e s'.
Proof. intros H. unfold tryCatch. rewrite H. reflexivity. Qed.

(** One step of a computation whose first action is known. *)
Ltac known H := first
  [ rewrite (bind_ret _ _ _ _ _ H)
  | rewrite (bind_throw _ _ _ _ _ H)
  | rewrite (tryCatch_ret _ _ _ _ _ H)
  | rewrite (tryCatch_throw _ _ _ _ _ H) ];
  cbv beta iota.

Ltac sends :=
  unfold sendGoalMessage, sendThinkingMessage, sendAnalysisMessage,
    sendErrorMessage, sendCompletedMessage, sendLoopMessage,
    sendManualShutdownMessage, delay, shutdown, handlePause.

Lemma gets_eq {A} (f : State -> A) (s : State) : gets f s = (Ret (f s), s).
Proof. reflexivity. Qed.

Lemma modify_eq (f : State -> State) (s : State) :
  modify f s = (Ret tt, f s).
Proof. reflexivity. Qed.

Lemma taskCycle_eq (s : State) (t : Task) (rest : list Task) :
  getRemainingTasks s = t :: rest ->
  taskCycle s = taskCycleResult t s.
Proof.
  intros Hrem. unfold taskCycle, taskCycleResult. sends.
  known (gets_eq getRemainingTasks s). rewrite Hrem.
  known (sendMessage_eq (MTask (withStatus t executing)) s).
  known (sendMessage_eq MThinking
           (delivered (MTask (withStatus t executing)) s)).
  fold (selected t s).
  destruct (analyzeTask api (clock (selected t s)) (value t)) as [a|e] eqn:Ha.
  2:{ known (request_rejected (CAnalyze (value t))
               (fun n => analyzeTask api n (value t)) _ _ Ha).
      reflexivity. }
  known (request_resolved (CAnalyze (value t))
           (fun n => analyzeTask api n (value t)) _ _ Ha).
  known (sendMessage_eq (MAnalysis a)
           (called (CAnalyze (value t)) (selected t s))).
  fold (analysed t a s).
  destruct (executeTask api (clock (analysed t a s)) (value t) a)
    as [r|e] eqn:Hr.
  2:{ known (request_rejected (CExecute (value t) a)
               (fun n => executeTask api n (value t) a) _ _ Hr).
      reflexivity. }
  known (request_resolved (CExecute (value t) a)
           (fun n => executeTask api n (value t) a) _ _ Hr).
  known (sendMessage_eq (MTask (withResult t r completed))
           (called (CExecute (value t) a) (analysed t a s))).
  set (s1 := delivered (MTask (withResult t r completed))
               (called (CExecute (value t) a) (analysed t a s))).
  known (modify_eq
           (fun s => set_completedTasks (completedTasks s ++ [value t]) s) s1).
  known (emit_eq (EDelay TIMEOUT_LONG)
           (set_completedTasks (completedTasks s1 ++ [value t]) s1)).
  known (sendMessage_eq MThinking
           (emitted (EDelay TIMEOUT_LONG)
              (set_completedTasks (completedTasks s1 ++ [value t]) s1))).
  subst s1. fold (executed t a r s).
  set (s3 := executed t a r s).
  destruct (getAdditionalTasks api (clock s3) (value t)
              (map value (getRemainingTasks s3)) (completedTasks s3) r)
    as [vs|e] eqn:Hf.
  - apply tryCatch_ret.
    known (gets_eq getRemainingTasks s3).
    known (gets_eq completedTasks s3).
    known (request_resolved (followUpCall t r s3)
             (fun n => getAdditionalTasks api n (value t)
                         (map value (getRemainingTasks s3))
                         (completedTasks s3) r) _ _ Hf).
    known (sendStarted_eq vs (called (followUpCall t r s3) s3)).
    unfold expanded. destruct (Nat.eqb (List.length vs) 0).
    + apply sendMessage_eq.
    + reflexivity.
  - rewrite (tryCatch_throw _ _ s3 (failed (followUpCall t r s3) s3) e).
    + known (sendMessage_eq
               (MError (translate "ERROR_ADDING_ADDITIONAL_TASKS" "errors"))
               (failed (followUpCall t r s3) s3)).
      apply sendMessage_eq.
    + known (gets_eq getRemainingTasks s3).
      known (gets_eq completedTasks s3).
      apply bind_throw.
      apply (request_rejected (followUpCall t r s3)
               (fun n => getAdditionalTasks api n (value t)
                           (map value (getRemainingTasks s3))
                           (completedTasks s3) r)). exact Hf.
Qed.

(** *** One pass through the body of [loop] *)

Lemma conditionalPause_eq (s : State) :
  conditionalPause s = (Ret tt, admitted s).
Proof.
  destruct s as [g ct ir nl md pc cm sr ts tr uu ck fr pk].
  destruct md, pc; reflexivity.
Qed.

Lemma iteration_eq (s : State) : iteration s = iterationResult s.
Proof.
  unfold iteration, iterationResult. sends.
  known (conditionalPause_eq s).
  known (gets_eq isRunning (admitted s)).
  change (isRunning (admitted s)) with (admits s).
  destruct (admits s); cbv beta iota delta [negb]; [|reflexivity].
  known (gets_eq getRemainingTasks (admitted s)).
  destruct (getRemainingTasks (admitted s)) as [|t rest] eqn:Hrem.
  - cbn [Nat.eqb List.length]. cbv iota.
    known (sendMessage_eq MCompleted (admitted s)).
    known (emit_eq EShutdown (delivered MCompleted (admitted s))).
    reflexivity.
  - cbn [Nat.eqb List.length]. cbv iota.
    known (modify_eq (fun s => set_numLoops (numLoops s + 1) s) (admitted s)).
    fold (counted s).
    known (gets_eq maxLoops (counted s)).
    known (gets_eq numLoops (counted s)).
    destruct (Z.ltb (maxLoops (counted s)) (numLoops (counted s))).
    + known (sendMessage_eq MLoop (counted s)).
      known (emit_eq EShutdown (delivered MLoop (counted s))).
      reflexivity.
    + known (emit_eq (EDelay TIMEOUT_LONG) (counted s)).
      unfold bind.
      rewrite (taskCycle_eq (emitted (EDelay TIMEOUT_LONG) (counted s)) t rest).
      * destruct (taskCycleResult t (emitted (EDelay TIMEOUT_LONG) (counted s)))
          as [[[]|e|] s']; reflexivity.
      * rewrite <- Hrem. reflexivity.
Qed.

Lemma taskCycle_cases (t : Task) (s : State) :
  Cycle t s (taskCycleResult t s).
Proof.
  unfold taskCycleResult.
  change (clock (selected t s)) with (clock s).
  destruct (analyzeTask api (clock s) (value t)) as [a|e] eqn:Ha;
    [|apply CycleAnalysisFailed; exact Ha].
  change (clock (analysed t a s)) with (S (clock s)).
  destruct (executeTask api (S (clock s)) (value t) a) as [r|e] eqn:Hr;
    [|apply CycleExecutionFailed; assumption].
  change (clock (executed t a r s)) with (S (S (clock s))).
  change (completedTasks (executed t a r s))
    with (completedTasks s ++ [value t]).
  destruct (getAdditionalTasks api (S (S (clock s))) (value t)
              (map value (getRemainingTasks (executed t a r s)))
              (completedTasks s ++ [value t]) r) as [vs|e] eqn:Hf.
  - apply CycleExpanded with (a := a); assumption.
  - apply CycleAbsorbed with (a := a) (e := e); assumption.
Qed.

Lemma iteration_pass (s : State) : Pass s (iteration s).
Proof.
  rewrite iteration_eq. unfold iterationResult.
  destruct (admits s) eqn:Hadm; cbv beta iota delta [negb];
    [|apply PassSuspended; exact Hadm].
  change (getRemainingTasks (admitted s)) with (getRemainingTasks s).
  destruct (getRemainingTasks s) as [|t rest] eqn:Hrem;
    [apply PassCompleted; assumption|].
  change (maxLoops (counted s)) with (maxLoops s).
  change (numLoops (counted s)) with (numLoops s + 1).
  destruct (Z.ltb_spec (maxLoops s) (numLoops s + 1)).
  - apply PassLimit with (t := t) (rest := rest); assumption.
  - apply PassCycle with (rest := rest); assumption.
Qed.

(** *** What a task cycle leaves alone and what it adds *)

Lemma cycle_control (t : Task) (s : State) (p : Outcome unit * State) :
  Cycle t s p -> sameControl s (snd p).
Proof.
  intros [e H|a e Ha H|a r e Ha Hr H|a r vs Ha Hr H]; unfold sameControl;
    try (simpl; tauto).
  unfold expanded. destruct (Nat.eqb (List.length vs) 0); simpl; tauto.
Qed.

Lemma startedEvents_cycle (u : nat) (vs : list string) :
  forallb cycleEvent (startedEvents u vs) = true.
Proof. revert u. induction vs as [|v vs IH]; intros u; simpl; auto. Qed.

Lemma startedEvents_selection (u : nat) (vs : list string) :
  count isSelection (startedEvents u vs) = 0%nat.
Proof.
  revert u. induction vs as [|v vs IH]; intros u; [reflexivity|].
  unfold count in *. simpl. apply IH.
Qed.

Lemma hookEvents_cycle : forallb cycleEvent hookEvents = true.
Proof. unfold hookEvents. destruct (hooked api); reflexivity. Qed.

Lemma hookEvents_selection : count isSelection hookEvents = 0%nat.
Proof. unfold hookEvents. destruct (hooked api); reflexivity. Qed.

(** Bring a trace built by successive appends to the form
    [trace s ++ d]. *)
Ltac flatten_trace :=
  simpl trace; rewrite <- ?app_assoc; simpl app.

Lemma cycle_trace (t : Task) (s : State) (p : Outcome unit * State) :
  Cycle t s p ->
  exists d, trace (snd p) = trace s ++ d /\
            forallb cycleEvent d = true /\
            count isSelection d = 1%nat.
Proof.
  intros [e H|a e Ha H|a r e Ha Hr H|a r vs Ha Hr H]; simpl snd.
  - eexists. split; [flatten_trace; reflexivity|].
    unfold count. simpl. rewrite hookEvents_cycle.
    fold (count isSelection hookEvents). rewrite hookEvents_selection. auto.
  - eexists. split; [flatten_trace; reflexivity|].
    unfold count. simpl. rewrite hookEvents_cycle.
    fold (count isSelection hookEvents). rewrite hookEvents_selection. auto.
  - eexists. split; [flatten_trace; reflexivity|].
    unfold count. simpl.
    rewrite forallb_app, filter_app, length_app, hookEvents_cycle.
    fold (count isSelection hookEvents). rewrite hookEvents_selection. auto.
  - unfold expanded.
    destruct vs as [|v vs]; cbn [List.length Nat.eqb]; cbv iota.
    + eexists. split; [flatten_trace; reflexivity|].
      unfold count. simpl. auto.
    + eexists. split; [flatten_trace; reflexivity|].
      unfold count. simpl. rewrite startedEvents_cycle.
      fold (count isSelection
              (startedEvents (S (uuid s)) vs)).
      rewrite startedEvents_selection. auto.
Qed.

Lemma cycle_completed (t : Task) (s : State) (p : Outcome unit * State) :
  Cycle t s p ->
  fst p <> OutOfFuel /\
  (fst p = Ret tt -> completedTasks (snd p) = completedTasks s ++ [value t]) /\
  (List.length (completedTasks (snd p)) <=
   S (List.length (completedTasks s)))%nat.
Proof.
  intros [e H|a e Ha H|a r e Ha Hr H|a r vs Ha Hr H]; simpl fst;
    (split; [discriminate|]); (split; [try discriminate|]).
  - simpl. lia.
  - simpl. lia.
  - reflexivity.
  - simpl. rewrite length_app. simpl. lia.
  - intros _. unfold expanded.
    destruct (Nat.eqb (List.length vs) 0); reflexivity.
  - unfold expanded. destruct (Nat.eqb (List.length vs) 0); simpl;
      rewrite length_app; simpl; lia.
Qed.

(** *** What a pass leaves alone and what it adds *)

Lemma cycleEvent_loopEvent (d : list Event) :
  forallb cycleEvent d = true -> forallb loopEvent d = true.
Proof.
  induction d as [|e d IH]; simpl; [reflexivity|].
  intros H. apply andb_true_iff in H as [He Hd].
  rewrite (IH Hd), andb_true_r.
  destruct e as [[]| | | |[]]; simpl in *; congruence.
Qed.

Lemma maxLoops_settings (s s' : State) :
  customMaxLoops s' = customMaxLoops s -> maxLoops s' = maxLoops s.
Proof. intros H. unfold maxLoops. rewrite H. reflexivity. Qed.

Lemma pass_settings (s : State) (p : Outcome bool * State) :
  Pass s p -> sameSettings s (snd p).
Proof.
  intros [H|H Hr|t rest H Hr Hl|t rest H Hr Hl]; unfold sameSettings;
    try (simpl; tauto).
  pose proof (cycle_control t _ _ (taskCycle_cases t
    (emitted (EDelay TIMEOUT_LONG) (counted s)))) as Hc.
  destruct (taskCycleResult t (emitted (EDelay TIMEOUT_LONG) (counted s)))
    as [[[]|e|] s']; unfold sameControl in Hc; simpl in *; tauto.
Qed.

Lemma pass_returns (s : State) (p : Outcome bool * State) :
  Pass s p -> fst p <> OutOfFuel.
Proof.
  intros [H|H Hr|t rest H Hr Hl|t rest H Hr Hl]; try discriminate.
  pose proof (cycle_completed t _ _ (taskCycle_cases t
    (emitted (EDelay TIMEOUT_LONG) (counted s)))) as [Hc _].
  destruct (taskCycleResult t (emitted (EDelay TIMEOUT_LONG) (counted s)))
    as [[[]|e|] s']; simpl in *; congruence.
Qed.

Lemma pass_trace (s : State) (p : Outcome bool * State) :
  Pass s p ->
  exists d, trace (snd p) = trace s ++ d /\
            forallb loopEvent d = true /\
            (count isSelection d <= 1)%nat.
Proof.
  intros [H|H Hr|t rest H Hr Hl|t rest H Hr Hl].
  - exists []. simpl. rewrite app_nil_r. auto.
  - eexists. split; [flatten_trace; reflexivity|]. simpl. auto.
  - eexists. split; [flatten_trace; reflexivity|]. simpl. auto.
  - pose proof (cycle_trace t _ _ (taskCycle_cases t
      (emitted (EDelay TIMEOUT_LONG) (counted s)))) as [d [Ht [Hd Hc]]].
    exists (EDelay TIMEOUT_LONG :: d).
    destruct (taskCycleResult t (emitted (EDelay TIMEOUT_LONG) (counted s)))
      as [[[]|e|] s']; simpl in *; rewrite Ht, <- app_assoc; simpl;
      (split; [reflexivity|]);
      (split; [apply cycleEvent_loopEvent; exact Hd|]);
      unfold count in *; simpl; lia.
Qed.

(** A pass that goes on to the recursive call has counted one loop,
    within the budget, and completed the first remaining task. *)
Lemma pass_continues (s : State) (p : Outcome bool * State) :
  Pass s p -> fst p = Ret true ->
  admits s = true /\
  numLoops (snd p) = numLoops s + 1 /\
  numLoops s + 1 <= maxLoops s /\
  isRunning (snd p) = true /\
  playbackControl (snd p) = playbackControl (admitted s) /\
  exists t rest,
    getRemainingTasks s = t :: rest /\
    completedTasks (snd p) = completedTasks s ++ [value t] /\
    count isSelection (newEvents s (snd p)) = 1%nat.
Proof.
  intros [H|H Hr|t rest H Hr Hl|t rest H Hr Hl]; try discriminate.
  pose proof (taskCycle_cases t (emitted (EDelay TIMEOUT_LONG) (counted s)))
    as Hc.
  pose proof (cycle_control _ _ _ Hc) as Hk.
  pose proof (cycle_completed _ _ _ Hc) as [_ [Hdone _]].
  pose proof (cycle_trace _ _ _ Hc) as [d [Ht [_ Hsel]]].
  destruct (taskCycleResult t (emitted (EDelay TIMEOUT_LONG) (counted s)))
    as [[[]|e|] s']; try discriminate.
  intros _. unfold sameControl in Hk. simpl in *.
  destruct Hk as (_ & Hrun & Hn & _ & Hpc & _).
  repeat split; try assumption.
  - rewrite Hrun. exact H.
  - exists t, rest. split; [exact Hr|]. split; [auto|].
    rewrite (newEvents_app s s' (EDelay TIMEOUT_LONG :: d)).
    + unfold count in *. simpl. exact Hsel.
    + rewrite Ht, <- app_assoc. reflexivity.
Qed.

(** A pass that returns has completed no task. *)
Lemma pass_stops (s : State) (p : Outcome bool * State) :
  Pass s p -> fst p = Ret false ->
  completedTasks (snd p) = completedTasks s /\
  tasks (snd p) = tasks s /\
  clock (snd p) = clock s /\
  count isSelection (newEvents s (snd p)) = 0%nat /\
  playbackControl (snd p) = playbackControl (admitted s) /\
  isRunning (snd p) = admits s.
Proof.
  intros [H|H Hr|t rest H Hr Hl|t rest H Hr Hl]; intros Hf.
  - unfold newEvents. simpl. rewrite skipn_all. repeat split.
  - simpl. repeat split.
    rewrite (newEvents_app s _ [EMsg MCompleted; EShutdown]);
      [reflexivity | flatten_trace; reflexivity].
  - simpl. repeat split.
    rewrite (newEvents_app s _ [EMsg MLoop; EShutdown]);
      [reflexivity | flatten_trace; reflexivity].
  - pose proof (cycle_completed _ _ _ (taskCycle_cases t
      (emitted (EDelay TIMEOUT_LONG) (counted s)))) as [Hc _].
    destruct (taskCycleResult t (emitted (EDelay TIMEOUT_LONG) (counted s)))
      as [[[]|e|] s']; simpl in *; congruence.
Qed.

(** *** Unfolding [loop] *)

Lemma loop_S (fuel : nat) (s : State) : loop (S fuel) s = loopResult fuel s.
Proof.
  unfold loopResult. simpl loop. unfold activation, bind.
  fold (entered s).
  destruct (iteration (entered s)) as [[[]|e|] s1]; try reflexivity.
Qed.

(** A relation between states that holds across entering and leaving an
    activation and across every pass holds across [loop]. *)
Lemma loop_relates (R : State -> State -> Prop) :
  (forall s, R s s) ->
  (forall a b c, R a b -> R b c -> R a c) ->
  (forall s, R s (entered s)) ->
  (forall s, R s (exited s)) ->
  (forall s p, Pass s p -> R s (snd p)) ->
  forall fuel s, R s (snd (loop fuel s)).
Proof.
  intros Hrefl Htrans Hin Hout Hpass.
  induction fuel as [|fuel IH]; intros s; [apply Hrefl|].
  rewrite loop_S. unfold loopResult.
  pose proof (Hpass _ _ (iteration_pass (entered s))) as Hp.
  destruct (iteration (entered s)) as [[[]|e|] s1]; simpl in *.
  - specialize (IH s1). destruct (loop fuel s1) as [r s2]. simpl in *.
    eapply Htrans; [apply Hin|]. eapply Htrans; [exact Hp|].
    eapply Htrans; [exact IH|apply Hout].
  - eapply Htrans; [apply Hin|]. eapply Htrans; [exact Hp|apply Hout].
  - eapply Htrans; [apply Hin|]. eapply Htrans; [exact Hp|apply Hout].
  - eapply Htrans; [apply Hin|]. eapply Htrans; [exact Hp|apply Hout].
Qed.

(** [loop] adds events of its own kinds only. *)
Lemma loop_events (fuel : nat) (s : State) :
  addsLoopEvents s (snd (loop fuel s)).
Proof.
  apply loop_relates; unfold addsLoopEvents.
  - intros a. exists []. rewrite app_nil_r. auto.
  - intros a b c [d1 [H1 F1]] [d2 [H2 F2]]. exists (d1 ++ d2).
    rewrite H2, H1, app_assoc, forallb_app, F1, F2. auto.
  - intros a. exists []. simpl. rewrite app_nil_r. auto.
  - intros a. exists []. simpl. rewrite app_nil_r. auto.
  - intros a p Hp. destruct (pass_trace _ _ Hp) as [d [Ht [Fd _]]].
    exists d. auto.
Qed.

(** [loop] returns or raises once the fuel exceeds what is left of the
    budget: every pass that goes on to the recursive call has counted a
    loop within the budget. *)
Lemma loop_returns (fuel : nat) (s : State) :
  (Z.to_nat (maxLoops s - numLoops s) < fuel)%nat ->
  fst (loop fuel s) <> OutOfFuel.
Proof.
  revert s. induction fuel as [|fuel IH]; intros s Hfuel; [lia|].
  rewrite loop_S. unfold loopResult.
  pose proof (iteration_pass (entered s)) as Hp.
  pose proof (pass_settings _ _ Hp) as (_ & _ & Hcm & _).
  pose proof (pass_returns _ _ Hp) as Hret.
  destruct (iteration (entered s)) as [[[]|e|] s1];
    cbn [fst snd] in *; try discriminate; try congruence.
  pose proof (pass_continues _ _ Hp eq_refl) as (_ & Hn & Hle & _).
  cbn [fst snd] in *.
  change (maxLoops (entered s)) with (maxLoops s) in *.
  change (numLoops (entered s)) with (numLoops s) in *.
  specialize (IH s1). rewrite (maxLoops_settings _ _ Hcm), Hn in IH.
  change (maxLoops (entered s)) with (maxLoops s) in IH.
  destruct (loop fuel s1) as [r s2]. cbn [fst snd] in *.
  apply IH. lia.
Qed.

(** *** Which way a pass goes *)

Lemma pass_suspended (s : State) (p : Outcome bool * State) :
  Pass s p -> admits s = false -> p = (Ret false, admitted s).
Proof. intros [H|H Hr|t rest H Hr Hl|t rest H Hr Hl] Ha; congruence. Qed.

Lemma pass_completed (s : State) (p : Outcome bool * State) :
  Pass s p -> admits s = true -> getRemainingTasks s = [] ->
  p = (Ret false, emitted EShutdown (delivered MCompleted (admitted s))).
Proof. intros [H|H Hr|t rest H Hr Hl|t rest H Hr Hl] Ha He; congruence. Qed.

Lemma pass_limit (s : State) (p : Outcome bool * State) :
  Pass s p -> admits s = true -> getRemainingTasks s <> [] ->
  maxLoops s < numLoops s + 1 ->
  p = (Ret false, emitted EShutdown (delivered MLoop (counted s))).
Proof.
  intros [H|H Hr|t rest H Hr Hl|t rest H Hr Hl] Ha He Hlt;
    try congruence; lia.
Qed.

Lemma pass_cycle (s : State) (p : Outcome bool * State) (t : Task)
    (rest : list Task) :
  Pass s p -> admits s = true -> getRemainingTasks s = t :: rest ->
  numLoops s + 1 <= maxLoops s ->
  p = continued (taskCycleResult t (emitted (EDelay TIMEOUT_LONG) (counted s))).
Proof.
  intros [H|H Hr|t' rest' H Hr Hl|t' rest' H Hr Hl] Ha He Hle;
    try congruence; lia.
Qed.

Lemma continued_snd (p : Outcome unit * State) : snd (continued p) = snd p.
Proof. destruct p as [[[]|e|] s']; reflexivity. Qed.


(** ** The loop budget (C2) *)




(** ** Stepping through a paused run (C1) *)

Lemma pass_flags (s : State) (p : Outcome bool * State) :
  Pass s p ->
  playbackControl (snd p) = playbackControl (admitted s) /\
  isRunning (snd p) = admits s /\
  numLoops s <= numLoops (snd p) <= numLoops s + 1.
Proof.
  intros [H|H Hr|t rest H Hr Hl|t rest H Hr Hl];
    try (simpl; repeat split; lia).
  rewrite continued_snd.
  pose proof (cycle_control _ _ _ (taskCycle_cases t
     (emitted (EDelay TIMEOUT_LONG) (counted s))))
    as (_ & Hrun & Hn & _ & Hpc & _).
  rewrite Hrun, Hn, Hpc. simpl. repeat split; lia.
Qed.

Lemma pass_within_budget (s : State) (p : Outcome bool * State)
    (t : Task) (rest : list Task) :
  Pass s p -> admits s = true -> getRemainingTasks s = t :: rest ->
  numLoops s + 1 <= maxLoops s ->
  numLoops (snd p) = numLoops s + 1 /\
  count isSelection (newEvents s (snd p)) = 1%nat.
Proof.
  intros Hp Ha Hr Hle.
  rewrite (pass_cycle _ _ t rest Hp Ha Hr Hle), continued_snd.
  pose proof (taskCycle_cases t (emitted (EDelay TIMEOUT_LONG) (counted s)))
    as Hc.
  pose proof (cycle_control _ _ _ Hc) as (_ & _ & Hn & _).
  pose proof (cycle_trace _ _ _ Hc) as [d [Ht [_ Hsel]]].
  split; [exact Hn|].
  rewrite (newEvents_app s _ (EDelay TIMEOUT_LONG :: d)).
  - unfold count in *. simpl. exact Hsel.
  - rewrite Ht. flatten_trace. reflexivity.
Qed.

Lemma newEvents_same (a a' b b' : State) :
  trace a = trace a' -> trace b = trace b' ->
  newEvents a b = newEvents a' b'.
Proof. intros H H'. unfold newEvents. rewrite H, H'. reflexivity. Qed.

(** A call of [loop] on a paused agent in pause mode. *)
Lemma loop_suspends (fuel : nat) (s : State) :
  admits s = false ->
  loop (S fuel) s = (Ret tt, exited (admitted (entered s))).
Proof.
  intros Ha. rewrite loop_S. unfold loopResult.
  rewrite (pass_suspended _ _ (iteration_pass (entered s)) Ha).
  reflexivity.
Qed.

(** C1.  In pause mode, a call of [loop] that finds the flag at
    [AGENT_PAUSE] clears [isRunning] and returns: it counts no loop,
    emits nothing, makes no request and leaves the task store alone.  A
    call that finds [AGENT_PLAY] resets the flag to [AGENT_PAUSE] at once
    and lets one pass through: at most one task is selected, and when a
    task is waiting and the budget allows, exactly one is; the recursive
    call then finds the flag at [AGENT_PAUSE] and suspends, so that
    [isRunning] is false again after one completed task. *)
Theorem pause_mode_one_cycle_per_resume (s : State) (fuel : nat) :
  mode s = PAUSE_MODE ->
  (playbackControl s = AGENT_PAUSE ->
   fst (loop (S fuel) s) = Ret tt /\
   isRunning (snd (loop (S fuel) s)) = false /\
   playbackControl (snd (loop (S fuel) s)) = AGENT_PAUSE /\
   numLoops (snd (loop (S fuel) s)) = numLoops s /\
   tasks (snd (loop (S fuel) s)) = tasks s /\
   completedTasks (snd (loop (S fuel) s)) = completedTasks s /\
   clock (snd (loop (S fuel) s)) = clock s /\
   newEvents s (snd (loop (S fuel) s)) = []) /\
  (playbackControl s = AGENT_PLAY ->
   fst (loop (S (S fuel)) s) <> OutOfFuel /\
   playbackControl (snd (loop (S (S fuel)) s)) = AGENT_PAUSE /\
   (count isSelection (newEvents s (snd (loop (S (S fuel)) s))) <= 1)%nat /\
   numLoops (snd (loop (S (S fuel)) s)) <= numLoops s + 1 /\
   forall t rest,
     getRemainingTasks s = t :: rest ->
     numLoops s + 1 <= maxLoops s ->
     count isSelection (newEvents s (snd (loop (S (S fuel)) s))) = 1%nat /\
     numLoops (snd (loop (S (S fuel)) s)) = numLoops s + 1 /\
     (fst (loop (S (S fuel)) s) = Ret tt ->
      isRunning (snd (loop (S (S fuel)) s)) = false /\
      completedTasks (snd (loop (S (S fuel)) s)) =
        completedTasks s ++ [value t])).
Proof.
  intros Hmode. split; intros Hpc.
  - assert (Ha : admits (entered s) = false).
    { unfold admits. simpl. rewrite Hmode, Hpc. reflexivity. }
    rewrite (loop_suspends fuel s Ha). simpl.
    rewrite Ha, Hmode.
    unfold newEvents. simpl. rewrite skipn_all. repeat split.
  - assert (Ha : admits (entered s) = true).
    { unfold admits. simpl. rewrite Hmode, Hpc. reflexivity. }
    rewrite loop_S. unfold loopResult.
    pose proof (iteration_pass (entered s)) as Hp.
    pose proof (pass_flags _ _ Hp) as (Hflag & Hrun & Hn).
    pose proof (pass_settings _ _ Hp) as (_ & Hm & _).
    pose proof (pass_trace _ _ Hp) as [d [Ht [_ Hsel]]].
    pose proof (pass_returns _ _ Hp) as Hret.
    assert (Hpause : playbackControl (snd (iteration (entered s)))
                     = AGENT_PAUSE).
    { rewrite Hflag. simpl. rewrite Hmode. reflexivity. }
    assert (Hgo : fst (iteration (entered s)) = Ret true ->
                  admits (entered (snd (iteration (entered s)))) = false).
    { intros _. unfold admits. simpl. rewrite Hm. simpl. rewrite Hmode.
      rewrite Hpause. reflexivity. }
    assert (Hwithin : forall t rest,
               getRemainingTasks s = t :: rest ->
               numLoops s + 1 <= maxLoops s ->
               numLoops (snd (iteration (entered s))) = numLoops s + 1 /\
               count isSelection
                 (newEvents s (snd (iteration (entered s)))) = 1%nat).
    { intros t rest Hr Hle.
      apply (pass_within_budget (entered s) _ t rest Hp Ha Hr Hle). }
    assert (Hev : newEvents s (snd (iteration (entered s))) = d).
    { apply newEvents_app. exact Ht. }
    destruct (iteration (entered s)) as [[[]|e|] s1] eqn:Hit;
      cbn [fst snd] in *.
    + rewrite (loop_suspends fuel s1 (Hgo eq_refl)).
      pose proof (pass_continues _ _ Hp eq_refl)
        as (_ & _ & _ & _ & _ & t0 & rest0 & Hr0 & Hdone & _).
      cbn [fst snd] in *.
      rewrite (newEvents_same s s
                 (exited (exited (admitted (entered s1)))) s1)
        by reflexivity.
      simpl. rewrite Hm. simpl. rewrite Hmode. rewrite Hev.
      split; [discriminate|]. split; [reflexivity|].
      split; [exact Hsel|]. split; [simpl in Hn; lia|].
      intros t rest Hr Hle.
      destruct (Hwithin t rest Hr Hle) as [Hn1 Hone]. rewrite Hev in Hone.
      split; [exact Hone|]. split; [exact Hn1|]. intros _.
      split; [apply Hgo; reflexivity|].
      rewrite Hdone. change (getRemainingTasks (entered s))
        with (getRemainingTasks s) in Hr0.
      simpl. congruence.
    + rewrite (newEvents_same s s (exited s1) s1) by reflexivity.
      simpl. rewrite Hev, Hpause.
      split; [discriminate|]. split; [reflexivity|].
      split; [exact Hsel|]. split; [simpl in Hn; lia|].
      intros t rest Hr Hle.
      destruct (Hwithin t rest Hr Hle) as [Hn1 Hone]. rewrite Hev in Hone.
      split; [exact Hone|]. split; [exact Hn1|]. intros _.
      pose proof (pass_stops _ _ Hp eq_refl) as (_ & _ & _ & Hzero & _).
      cbn [snd] in Hzero.
      rewrite (newEvents_same (entered s) s s1 s1) in Hzero by reflexivity.
      rewrite Hev in Hzero. congruence.
    + rewrite (newEvents_same s s (exited s1) s1) by reflexivity.
      simpl. rewrite Hev, Hpause.
      split; [discriminate|]. split; [reflexivity|].
      split; [exact Hsel|]. split; [simpl in Hn; lia|].
      intros t rest Hr Hle.
      destruct (Hwithin t rest Hr Hle) as [Hn1 Hone]. rewrite Hev in Hone.
      split; [exact Hone|]. split; [exact Hn1|]. discriminate.
    + congruence.
Qed.

(** ** A failed request for follow-up tasks (C6) *)

Lemma cycle_absorbed (t : Task) (s : State) (p : Outcome unit * State)
    (a : Analysis) (r : string) (e : Exn) :
  Cycle t s p ->
  analyzeTask api (clock s) (value t) = Resolved a ->
  executeTask api (S (clock s)) (value t) a = Resolved r ->
  getAdditionalTasks api (S (S (clock s))) (value t)
    (map value (getRemainingTasks (executed t a r s)))
    (completedTasks s ++ [value t]) r = Rejected e ->
  p = (Ret tt, absorbed t r (executed t a r s)).
Proof.
  intros [e' H|a' e' Ha' H|a' r' e' Ha' Hr' H|a' r' vs Ha' Hr' H] Ha Hr Hf;
    congruence.
Qed.

Lemma updateTaskStatus_status (u x : Task) (ts : list Task) :
  In x (updateTaskStatus u ts) -> taskId x = taskId u -> status x = status u.
Proof.
  unfold updateTaskStatus. intros Hin Hid.
  apply in_map_iff in Hin as [y [Hy _]].
  destruct (Nat.eqb_spec (taskId y) (taskId u)) as [Heq|Hneq].
  - subst x. reflexivity.
  - subst x. contradiction.
Qed.

(** C6.  When the request for follow-up tasks that a pass makes fails,
    in a pass that has analysed and executed its task, the failure is
    caught inside the pass.  The request in question is the one the code
    sends: the values of the tasks still waiting once the task has been
    announced as completed, and the completed list with the task at its
    end; nothing is assumed about other requests.  The pass emits one
    error message (the fixed text for a failed expansion), announces the
    task as final, which is then its status in the store, raises nothing,
    and goes on to the recursive call of [loop]. *)
Theorem followup_failure_absorbed (s : State) (t : Task) (rest : list Task)
    (a : Analysis) (r : string) (e : Exn) :
  admits s = true ->
  getRemainingTasks s = t :: rest ->
  numLoops s + 1 <= maxLoops s ->
  analyzeTask api (clock s) (value t) = Resolved a ->
  executeTask api (S (clock s)) (value t) a = Resolved r ->
  getAdditionalTasks api (S (S (clock s))) (value t)
    (map value
       (getRemainingTasks
          (executed t a r (emitted (EDelay TIMEOUT_LONG) (counted s)))))
    (completedTasks s ++ [value t]) r = Rejected e ->
  fst (iteration s) = Ret true /\
  (exists d,
     newEvents s (snd (iteration s)) =
     d ++ [EMsg (MError (translate "ERROR_ADDING_ADDITIONAL_TASKS" "errors"));
           EMsg (MTask (withStatus t final))]) /\
  filter isErrorMessage (messages (newEvents s (snd (iteration s)))) =
    [MError (translate "ERROR_ADDING_ADDITIONAL_TASKS" "errors")] /\
  (forall u, In u (tasks (snd (iteration s))) ->
             taskId u = taskId t -> status u = final) /\
  (forall fuel,
     loop (S fuel) s =
     let (r', s') := loop fuel (snd (iteration (entered s))) in
     (r', exited s')).
Proof.
  intros Hadm Hrem Hle Ha Hr Hf.
  assert (Hit : forall s0, admits s0 = true ->
            getRemainingTasks s0 = t :: rest ->
            numLoops s0 + 1 <= maxLoops s0 ->
            analyzeTask api (clock s0) (value t) = Resolved a ->
            executeTask api (S (clock s0)) (value t) a = Resolved r ->
            getAdditionalTasks api (S (S (clock s0))) (value t)
              (map value
                 (getRemainingTasks
                    (executed t a r
                       (emitted (EDelay TIMEOUT_LONG) (counted s0)))))
              (completedTasks s0 ++ [value t]) r = Rejected e ->
            iteration s0 =
            (Ret true,
             absorbed t r
               (executed t a r (emitted (EDelay TIMEOUT_LONG) (counted s0))))).
  { intros s0 Hadm0 Hrem0 Hle0 Ha0 Hr0 Hf0.
    rewrite (pass_cycle _ _ t rest (iteration_pass s0) Hadm0 Hrem0 Hle0).
    rewrite (cycle_absorbed t _ _ a r e
               (taskCycle_cases t (emitted (EDelay TIMEOUT_LONG) (counted s0))));
      [reflexivity|exact Ha0|exact Hr0|exact Hf0]. }
  assert (Hev : newEvents s (snd (iteration s)) =
    ([EDelay TIMEOUT_LONG; EMsg (MTask (withStatus t executing));
      EMsg MThinking; ECall (CAnalyze (value t)); EMsg (MAnalysis a);
      ECall (CExecute (value t) a);
      EMsg (MTask (withResult t r completed)); EDelay TIMEOUT_LONG;
      EMsg MThinking;
      ECall (followUpCall t r
               (executed t a r (emitted (EDelay TIMEOUT_LONG) (counted s))))]
     ++ hookEvents) ++
    [EMsg (MError (translate "ERROR_ADDING_ADDITIONAL_TASKS" "errors"));
     EMsg (MTask (withStatus t final))]).
  { rewrite (Hit s); auto. cbn [snd].
    apply newEvents_app. flatten_trace. reflexivity. }
  split; [|split; [|split; [|split]]].
  - rewrite (Hit s); auto.
  - eexists. exact Hev.
  - rewrite Hev, !messages_app. simpl.
    unfold hookEvents. destruct (hooked api); reflexivity.
  - rewrite (Hit s); auto. cbn [snd]. intros u Hin Hid.
    unfold absorbed in Hin. cbn [tasks delivered storeAfter] in Hin.
    unfold appendTask in Hin. cbn [status withStatus TaskStatus_eqb] in Hin.
    apply (updateTaskStatus_status (withStatus t final)) in Hin; auto.
  - intros fuel. rewrite loop_S. unfold loopResult.
    rewrite (Hit (entered s) Hadm Hrem Hle Ha Hr Hf). reflexivity.
Qed.

(** ** Starting and resuming (C3, C7) *)

Lemma startGoal_failed (s : State) (e : Exn) :
  getInitialTasks api (clock s) = Rejected e ->
  startGoal s = (Ret tt, startFailed e s).
Proof.
  intros H. unfold startGoal, startFailed. sends.
  known (gets_eq goal s).
  known (sendMessage_eq (MGoal (goal s)) s).
  known (sendMessage_eq MThinking (delivered (MGoal (goal s)) s)).
  fold (announced s).
  rewrite (tryCatch_throw _ _ (announced s) (failed CInitial (announced s)) e).
  - known (sendMessage_eq (MError (getMessageFromError e))
             (failed CInitial (announced s))).
    reflexivity.
  - apply bind_throw. apply request_rejected. exact H.
Qed.

Lemma startGoal_succeeded (s : State) (vs : list string) :
  getInitialTasks api (clock s) = Resolved vs ->
  startGoal s = (Ret tt, startSucceeded vs s).
Proof.
  intros H. unfold startGoal, startSucceeded. sends.
  known (gets_eq goal s).
  known (sendMessage_eq (MGoal (goal s)) s).
  known (sendMessage_eq MThinking (delivered (MGoal (goal s)) s)).
  fold (announced s).
  apply tryCatch_ret.
  known (request_resolved CInitial (getInitialTasks api) (announced s) vs H).
  apply sendStarted_eq.
Qed.

Lemma run_tail (fuel : nat) (s : State) :
  (loop fuel ;;
   m <- gets mode ;;
   running <- gets isRunning ;;
   if AgentMode_eqb m PAUSE_MODE && negb running
   then pc <- gets playbackControl ;; handlePause pc
   else ret tt) s = runResult (loop fuel s).
Proof.
  unfold bind at 1. unfold runResult.
  destruct (loop fuel s) as [[[]|e|] s']; try reflexivity.
  unfold notified. sends.
  known (gets_eq mode s'). known (gets_eq isRunning s').
  destruct (AgentMode_eqb (mode s') PAUSE_MODE && negb (isRunning s'));
    reflexivity.
Qed.

Lemma run_running (fuel : nat) (s : State) :
  isRunning s = true -> run fuel s = runResult (loop fuel s).
Proof.
  intros H. unfold run.
  known (gets_eq isRunning s). rewrite H. cbv beta iota delta [negb].
  known (eq_refl (@ret unit tt s)).
  apply run_tail.
Qed.

Lemma run_starting (fuel : nat) (s s' : State) :
  isRunning s = false ->
  startGoal (launched s) = (Ret tt, s') ->
  run fuel s = runResult (loop fuel s').
Proof.
  intros H Hs. unfold run.
  known (gets_eq isRunning s). rewrite H. cbv beta iota delta [negb].
  assert (Hstart : (updateIsRunning true ;; startGoal) s = (Ret tt, s')).
  { unfold updateIsRunning, setIsRunning, bind, modify. cbv beta iota.
    exact Hs. }
  known Hstart. apply run_tail.
Qed.

Lemma loop_keeps_running (fuel : nat) (s : State) :
  keepsRunning s (snd (loop fuel s)).
Proof.
  apply loop_relates; unfold keepsRunning.
  - auto.
  - intros a b c [M1 R1] [M2 R2]. split; [congruence|].
    intros Ha. rewrite R2, R1; congruence.
  - intros a. simpl. auto.
  - intros a. simpl. auto.
  - intros a p Hp. destruct (pass_settings _ _ Hp) as (_ & Hm & _).
    destruct (pass_flags _ _ Hp) as (_ & Hrun & _).
    split; [exact Hm|]. intros Ha. rewrite Hrun. unfold admits.
    rewrite Ha. reflexivity.
Qed.

Lemma loopEvent_not_start (d : list Event) :
  forallb loopEvent d = true ->
  count isInitialCall d = 0%nat /\ count isGoalMessage d = 0%nat.
Proof.
  unfold count. induction d as [|e d IH]; simpl; [auto|].
  intros H. apply andb_true_iff in H as [He Hd].
  destruct (IH Hd) as [H1 H2].
  destruct e as [[]| | | |[]]; simpl in *; try discriminate; auto.
Qed.

Lemma runResult_snd_trace (p : Outcome unit * State) :
  exists d, trace (snd (runResult p)) = trace (snd p) ++ d /\
            count isInitialCall d = 0%nat /\ count isGoalMessage d = 0%nat /\
            filter isErrorMessage (messages d) = [].
Proof.
  destruct p as [[[]|e|] s']; simpl;
    try solve [exists []; rewrite app_nil_r; auto].
  unfold notified.
  destruct (AgentMode_eqb (mode s') PAUSE_MODE && negb (isRunning s')).
  - eexists. split; [reflexivity|]. auto.
  - exists []. rewrite app_nil_r. auto.
Qed.

Lemma runResult_fields (p : Outcome unit * State) :
  isRunning (snd (runResult p)) = isRunning (snd p) /\
  numLoops (snd (runResult p)) = numLoops (snd p) /\
  fst (runResult p) = fst p.
Proof.
  destruct p as [[[]|e|] s']; simpl; auto.
  unfold notified.
  destruct (AgentMode_eqb (mode s') PAUSE_MODE && negb (isRunning s')); auto.
Qed.

(** [run] returns or raises once the fuel exceeds the budget left. *)
Lemma run_returns (fuel : nat) (s : State) :
  (Z.to_nat (maxLoops s - numLoops s) < fuel)%nat ->
  fst (run fuel s) <> OutOfFuel.
Proof.
  intros Hfuel. destruct (isRunning s) eqn:Hr.
  - rewrite (run_running fuel s Hr).
    destruct (runResult_fields (loop fuel s)) as (_ & _ & ->).
    apply loop_returns. exact Hfuel.
  - destruct (getInitialTasks api (clock (launched s))) as [vs|e] eqn:Hi.
    + rewrite (run_starting fuel s _ Hr (startGoal_succeeded _ _ Hi)).
      destruct (runResult_fields
                  (loop fuel (startSucceeded vs (launched s))))
        as (_ & _ & ->).
      apply loop_returns. exact Hfuel.
    + rewrite (run_starting fuel s _ Hr (startGoal_failed _ _ Hi)).
      destruct (runResult_fields
                  (loop fuel (startFailed e (launched s))))
        as (_ & _ & ->).
      apply loop_returns. exact Hfuel.
Qed.

(** A call of [run] on a running agent adds no start-phase event. *)
Lemma run_running_events (fuel : nat) (s : State) :
  isRunning s = true ->
  count isInitialCall (newEvents s (snd (run fuel s))) = 0%nat /\
  count isGoalMessage (newEvents s (snd (run fuel s))) = 0%nat.
Proof.
  intros H. rewrite (run_running fuel s H).
  destruct (loop_events fuel s) as [d [Ht Fd]].
  destruct (runResult_snd_trace (loop fuel s)) as [d' [Ht' [I' [G' _]]]].
  destruct (loopEvent_not_start d Fd) as [I G].
  rewrite (newEvents_app s _ (d ++ d')).
  - rewrite !count_app, I, G, I', G'. auto.
  - rewrite Ht', Ht, app_assoc. reflexivity.
Qed.

(** C7, as the code has it.  The start phase is guarded by [isRunning]
    and by nothing else.  A call of [run] on an agent whose [isRunning] is
    true requests no initial tasks and sends no goal message: it is the
    loop followed by the pause notification.  In automatic mode [run]
    leaves [isRunning] true, so every later call is such a call; and the
    page's resume handler sets [isRunning] before it calls [run], so a
    resume after a pause is such a call too. *)
Theorem run_while_running_only_resumes (s : State) (fuel : nat) :
  isRunning s = true ->
  run fuel s = runResult (loop fuel s) /\
  count isInitialCall (newEvents s (snd (run fuel s))) = 0%nat /\
  count isGoalMessage (newEvents s (snd (run fuel s))) = 0%nat /\
  (mode s = AUTOMATIC_MODE -> isRunning (snd (run fuel s)) = true) /\
  (forall s0,
     count isInitialCall (newEvents s0 (snd (handleContinue fuel s0)))
     = 0%nat /\
     count isGoalMessage (newEvents s0 (snd (handleContinue fuel s0)))
     = 0%nat).
Proof.
  intros H. split; [apply run_running; exact H|].
  destruct (run_running_events fuel s H) as [I G].
  split; [exact I|]. split; [exact G|]. split.
  - intros Hm. rewrite (run_running fuel s H).
    destruct (runResult_fields (loop fuel s)) as [-> _].
    destruct (loop_keeps_running fuel s) as [_ Hk]. rewrite (Hk Hm). exact H.
  - intros s0.
    assert (Hc : handleContinue fuel s0 =
                 run fuel (launched (set_playbackControl AGENT_PLAY s0))).
    { reflexivity. }
    rewrite Hc.
    rewrite (newEvents_same s0 (launched (set_playbackControl AGENT_PLAY s0))
               _ _ eq_refl eq_refl).
    apply run_running_events. reflexivity.
Qed.

(** In automatic mode [run] always leaves [isRunning] true. *)
Lemma run_automatic_stays_running (s : State) (fuel : nat) :
  mode s = AUTOMATIC_MODE -> isRunning (snd (run fuel s)) = true.
Proof.
  intros Hm. destruct (isRunning s) eqn:Hr.
  - rewrite (run_running fuel s Hr).
    destruct (runResult_fields (loop fuel s)) as [-> _].
    destruct (loop_keeps_running fuel s) as [_ Hk]. rewrite (Hk Hm). exact Hr.
  - destruct (getInitialTasks api (clock (launched s))) as [vs|e] eqn:Hi.
    + rewrite (run_starting fuel s _ Hr (startGoal_succeeded _ _ Hi)).
      destruct (runResult_fields
                  (loop fuel (startSucceeded vs (launched s)))) as [-> _].
      destruct (loop_keeps_running fuel (startSucceeded vs (launched s)))
        as [_ Hk].
      rewrite Hk; [reflexivity|exact Hm].
    + rewrite (run_starting fuel s _ Hr (startGoal_failed _ _ Hi)).
      destruct (runResult_fields
                  (loop fuel (startFailed e (launched s)))) as [-> _].
      destruct (loop_keeps_running fuel (startFailed e (launched s)))
        as [_ Hk].
      rewrite Hk; [reflexivity|exact Hm].
Qed.

(** A call of [loop] when no task is waiting: it suspends or announces
    completion, and in either case counts no loop and reports no error. *)
Lemma loop_nothing_to_do (fuel : nat) (s : State) :
  getRemainingTasks s = [] ->
  fst (loop (S fuel) s) = Ret tt /\
  numLoops (snd (loop (S fuel) s)) = numLoops s /\
  exists d, trace (snd (loop (S fuel) s)) = trace s ++ d /\
            filter isErrorMessage (messages d) = [].
Proof.
  intros Hr. rewrite loop_S. unfold loopResult.
  pose proof (iteration_pass (entered s)) as Hp.
  destruct (admits (entered s)) eqn:Ha.
  - rewrite (pass_completed _ _ Hp Ha Hr). simpl.
    split; [reflexivity|]. split; [reflexivity|].
    exists [EMsg MCompleted; EShutdown].
    split; [rewrite <- app_assoc|]; reflexivity.
  - rewrite (pass_suspended _ _ Hp Ha). simpl.
    split; [reflexivity|]. split; [reflexivity|].
    exists []. rewrite app_nil_r. auto.
Qed.

(** C3, as the code has it.  When [getInitialTasks] fails, the start
    phase sends the goal and thinking messages and then exactly one error
    message, the one [getMessageFromError] makes of the failure, and calls
    [shutdown]; it counts no loop, enqueues nothing and leaves
    [isRunning] as [run] has just set it, true.  Over the whole call of
    [run], on a store without waiting tasks, that error message stays the
    only one and [numLoops] stays what it was. *)
Theorem failed_start_reports_once (s : State) (e : Exn) (fuel : nat) :
  isRunning s = false ->
  getInitialTasks api (clock s) = Rejected e ->
  fst ((updateIsRunning true ;; startGoal) s) = Ret tt /\
  messages (newEvents s (snd ((updateIsRunning true ;; startGoal) s))) =
    [MGoal (goal s); MThinking; MError (getMessageFromError e)] /\
  existsb isShutdown
    (newEvents s (snd ((updateIsRunning true ;; startGoal) s))) = true /\
  numLoops (snd ((updateIsRunning true ;; startGoal) s)) = numLoops s /\
  tasks (snd ((updateIsRunning true ;; startGoal) s)) = tasks s /\
  isRunning (snd ((updateIsRunning true ;; startGoal) s)) = true /\
  (getRemainingTasks s = [] ->
   fst (run (S fuel) s) = Ret tt /\
   filter isErrorMessage (messages (newEvents s (snd (run (S fuel) s)))) =
     [MError (getMessageFromError e)] /\
   numLoops (snd (run (S fuel) s)) = numLoops s).
Proof.
  intros Hrun Hfail.
  assert (Hstart : (updateIsRunning true ;; startGoal) s =
                   (Ret tt, startFailed e (launched s))).
  { unfold updateIsRunning, setIsRunning, bind, modify. cbv beta iota.
    apply (startGoal_failed (launched s)). exact Hfail. }
  assert (Hev : newEvents s (startFailed e (launched s)) =
                [EMsg (MGoal (goal s)); EMsg MThinking; ECall CInitial]
                ++ hookEvents
                ++ [EMsg (MError (getMessageFromError e)); EShutdown]).
  { apply newEvents_app. flatten_trace. reflexivity. }
  rewrite Hstart. cbn [fst snd]. rewrite Hev.
  split; [reflexivity|]. split; [|split; [|split; [|split; [|split]]]];
    try reflexivity.
  - simpl. rewrite messages_app. unfold hookEvents.
    destruct (hooked api); reflexivity.
  - simpl. rewrite existsb_app. simpl. apply orb_true_r.
  - intros Hrem.
    rewrite (run_starting (S fuel) s (startFailed e (launched s)) Hrun)
      by (apply (startGoal_failed (launched s)); exact Hfail).
    destruct (loop_nothing_to_do fuel (startFailed e (launched s)) Hrem)
      as (Hret & Hn & d & Ht & Hd).
    destruct (runResult_fields (loop (S fuel) (startFailed e (launched s))))
      as (_ & Hn' & Hf').
    destruct (runResult_snd_trace
                (loop (S fuel) (startFailed e (launched s))))
      as (d' & Ht' & _ & _ & Hd').
    rewrite Hf', Hn', Hn. split; [exact Hret|]. split; [|reflexivity].
    rewrite (newEvents_app s _
               (([EMsg (MGoal (goal s)); EMsg MThinking; ECall CInitial]
                 ++ hookEvents
                 ++ [EMsg (MError (getMessageFromError e)); EShutdown])
                ++ d ++ d')).
    + rewrite !messages_app, !filter_app, Hd, Hd'. simpl.
      unfold hookEvents. destruct (hooked api); reflexivity.
    + rewrite Ht', Ht. flatten_trace. reflexivity.
Qed.

(** ** The depth of the recursion (C8) *)

Lemma loop_depth (fuel : nat) (s : State) :
  frames (snd (loop fuel s)) = frames s /\
  (fst (loop fuel s) = Ret tt ->
   exists k,
     List.length (completedTasks (snd (loop fuel s))) =
       (List.length (completedTasks s) + k)%nat /\
     peak (snd (loop fuel s)) = Nat.max (peak s) (frames s + k + 1)) /\
  (peak (snd (loop fuel s)) <=
   Nat.max (peak s) (frames s + Z.to_nat (maxLoops s - numLoops s) + 1))%nat.
Proof.
  revert s. induction fuel as [|fuel IH]; intros s.
  - simpl. split; [reflexivity|]. split; [discriminate|]. lia.
  - rewrite loop_S. unfold loopResult.
    pose proof (iteration_pass (entered s)) as Hp.
    pose proof (pass_settings _ _ Hp) as (_ & _ & Hcm & _ & Hfr & Hpk).
    pose proof (pass_returns _ _ Hp) as Hret.
    destruct (iteration (entered s)) as [[[]|e|] s1] eqn:Hit;
      cbn [fst snd] in *.
    + pose proof (pass_continues _ _ Hp eq_refl)
        as (_ & Hn & Hle & _ & _ & t & rest & _ & Hdone & _).
      cbn [fst snd] in *.
      specialize (IH s1). destruct (loop fuel s1) as [r s2].
      cbn [fst snd] in *. destruct IH as (F2 & D2 & B2).
      rewrite (maxLoops_settings _ _ Hcm) in B2.
      change (maxLoops (entered s)) with (maxLoops s) in *.
      change (numLoops (entered s)) with (numLoops s) in *.
      change (completedTasks (entered s)) with (completedTasks s) in *.
      simpl in Hfr, Hpk. simpl.
      split; [lia|]. split.
      * intros Hr. destruct (D2 Hr) as [k [Hlen Hpeak]].
        exists (S k). rewrite Hdone, length_app in Hlen. simpl in Hlen.
        split; lia.
      * lia.
    + pose proof (pass_stops _ _ Hp eq_refl) as (Hdone & _).
      cbn [snd] in Hdone. simpl in Hfr, Hpk, Hdone. simpl.
      split; [lia|]. split.
      * intros _. exists 0%nat. rewrite Hdone. split; lia.
      * lia.
    + simpl in Hfr, Hpk. simpl.
      split; [lia|]. split; [discriminate|]. lia.
    + congruence.
Qed.

(** C8, as the code has it.  [loop] ends with [await this.loop()], so an
    activation stays pending while the next one runs.  A call of [loop]
    leaves as many activations pending as it found, and when it returns
    after completing [k] tasks, [k + 1] activations were pending at once
    on top of those it found; the loop budget is the only bound. *)
Theorem loop_nests_once_per_task (s : State) (fuel : nat) :
  frames (snd (loop fuel s)) = frames s /\
  (fst (loop fuel s) = Ret tt ->
   exists k,
     List.length (completedTasks (snd (loop fuel s))) =
       (List.length (completedTasks s) + k)%nat /\
     peak (snd (loop fuel s)) = Nat.max (peak s) (frames s + k + 1)) /\
  (peak (snd (loop fuel s)) <=
   Nat.max (peak s) (frames s + Z.to_nat (maxLoops s - numLoops s) + 1))%nat.
Proof. apply loop_depth. Qed.

Lemma filter_last_started (ts : list Task) (u : Task) :
  status u = started ->
  filter (fun t => TaskStatus_eqb (status t) started) (ts ++ [u]) <> [].
Proof.
  intros H. rewrite filter_app. simpl. rewrite H. simpl.
  intros E. apply app_eq_nil in E as [_ E]. discriminate.
Qed.

Lemma cycle_one_more (t : Task) (s : State) (p : Outcome unit * State) :
  alwaysOneMore -> Cycle t s p ->
  fst p = Ret tt /\ getRemainingTasks (snd p) <> [].
Proof.
  intros (HA & HE & HF) [e H|a e Ha H|a r e Ha Hr H|a r vs Ha Hr H].
  - destruct (HA (clock s) (value t)) as [a Ha]. congruence.
  - destruct (HE (S (clock s)) (value t) a) as [r Hr]. congruence.
  - destruct (HF (S (S (clock s))) (value t)
                (map value (getRemainingTasks (executed t a r s)))
                (completedTasks s ++ [value t]) r) as [v Hv]. congruence.
  - destruct (HF (S (S (clock s))) (value t)
                (map value (getRemainingTasks (executed t a r s)))
                (completedTasks s ++ [value t]) r) as [v Hv].
    assert (vs = [v]) by congruence. subst vs.
    split; [reflexivity|].
    unfold expanded, getRemainingTasks. cbn [List.length Nat.eqb].
    cbv iota. cbn [snd tasks enqueued enqueuedTasks storeAfter].
    unfold appendTask at 1. cbn [status startedTask TaskStatus_eqb].
    apply filter_last_started. reflexivity.
Qed.

Lemma loop_spends_budget (k fuel : nat) (s : State) :
  alwaysOneMore ->
  mode s = AUTOMATIC_MODE -> isRunning s = true ->
  getRemainingTasks s <> [] ->
  maxLoops s - numLoops s = Z.of_nat k ->
  fst (loop (S k + fuel) s) = Ret tt /\
  List.length (completedTasks (snd (loop (S k + fuel) s))) =
    (List.length (completedTasks s) + k)%nat.
Proof.
  intros Hapi. revert s. induction k as [|k IH]; intros s Hm Hrun Hne Hk.
  - cbn [Nat.add]. rewrite loop_S. unfold loopResult.
    assert (Ha : admits (entered s) = true).
    { unfold admits. simpl. rewrite Hm. exact Hrun. }
    rewrite (pass_limit _ _ (iteration_pass (entered s)) Ha Hne)
      by (simpl; change (maxLoops (entered s)) with (maxLoops s); lia).
    simpl. split; [reflexivity|lia].
  - change (S (S k) + fuel)%nat with (S (S k + fuel)).
    rewrite loop_S. unfold loopResult.
    assert (Ha : admits (entered s) = true).
    { unfold admits. simpl. rewrite Hm. exact Hrun. }
    destruct (getRemainingTasks s) as [|t rest] eqn:Hr; [congruence|].
    pose proof (iteration_pass (entered s)) as Hp.
    assert (Hle : numLoops (entered s) + 1 <= maxLoops (entered s)).
    { change (maxLoops (entered s)) with (maxLoops s). simpl. lia. }
    pose proof (pass_cycle _ _ t rest Hp Ha Hr Hle) as Hc.
    pose proof (cycle_one_more t _ _ Hapi
                  (taskCycle_cases t
                     (emitted (EDelay TIMEOUT_LONG) (counted (entered s)))))
      as [Hret Hmore].
    destruct (taskCycleResult t
                (emitted (EDelay TIMEOUT_LONG) (counted (entered s))))
      as [[[]|e|] s1]; try discriminate.
    cbn [continued fst snd] in *. rewrite Hc in Hp. rewrite Hc.
    pose proof (pass_settings _ _ Hp) as (_ & Hm1 & Hcm & _).
    pose proof (pass_continues _ _ Hp eq_refl)
      as (_ & Hn & _ & Hrun1 & _ & t0 & rest0 & _ & Hdone & _).
    cbn [fst snd] in *.
    destruct (IH s1) as [Hfst Hlen].
    + rewrite Hm1. exact Hm.
    + exact Hrun1.
    + exact Hmore.
    + rewrite (maxLoops_settings _ _ Hcm), Hn.
      change (maxLoops (entered s)) with (maxLoops s). simpl. lia.
    + destruct (loop (S k + fuel) s1) as [r s2]. cbn [fst snd] in *.
      split; [exact Hfst|]. simpl. rewrite Hlen, Hdone, length_app.
      simpl. lia.
Qed.

(** ** The order of a task's messages (C5) *)























(** *** The steps that announce a task *)









(** *** Across a task cycle, a pass, the loop and a run *)








(** A new agent on an empty store. *)
Lemma construct_consistent (g : string) (settings : option Z)
    (modeArg : option AgentMode) (playbackArg : option AgentPlaybackControl) :
  consistent (construct g settings modeArg playbackArg []).
Proof. repeat split; simpl; intros; auto; contradiction. Qed.



(** ** The constructor (C10) *)

(** C10.  The agent that the constructor makes.  Its mode is the
    supplied mode, or the automatic mode when none is supplied or the
    supplied one is falsy.  The ternary that sets its playback flag takes
    [playbackControl || this.mode == PAUSE_MODE] as its whole condition:
    with a supplied, truthy [playbackControl] the agent's flag is
    [AGENT_PAUSE] whatever the value supplied and whatever the mode, so
    that supplying [AGENT_PLAY] gives [AGENT_PAUSE] even in automatic
    mode; and the agent's flag is [AGENT_PLAY] exactly when the argument
    is absent or falsy and the agent's mode is not the pause mode. *)
Theorem constructor_playback_flag
    (g : string) (settings : option Z) (modeArg : option AgentMode)
    (playbackArg : option AgentPlaybackControl) (ts : list Task) :
  mode (construct g settings modeArg playbackArg ts) =
    match modeArg with
    | Some m => if truthyMode m then m else AUTOMATIC_MODE
    | None => AUTOMATIC_MODE
    end /\
  (forall p, playbackArg = Some p -> truthyPlayback p = true ->
             playbackControl (construct g settings modeArg playbackArg ts)
             = AGENT_PAUSE) /\
  (truthyPlayback AGENT_PLAY = true ->
   playbackControl
     (construct g settings (Some AUTOMATIC_MODE) (Some AGENT_PLAY) ts)
   = AGENT_PAUSE) /\
  (playbackControl (construct g settings modeArg playbackArg ts) = AGENT_PLAY
   <->
   (playbackArg = None \/
    exists p, playbackArg = Some p /\ truthyPlayback p = false) /\
   mode (construct g settings modeArg playbackArg ts) <> PAUSE_MODE) /\
  (playbackControl (construct g settings modeArg playbackArg ts) = AGENT_PAUSE
   <->
   (exists p, playbackArg = Some p /\ truthyPlayback p = true) \/
   mode (construct g settings modeArg playbackArg ts) = PAUSE_MODE).
Proof.
  change (mode (construct g settings modeArg playbackArg ts))
    with (initialMode modeArg).
  change (playbackControl (construct g settings modeArg playbackArg ts))
    with (initialPlayback modeArg playbackArg).
  change (playbackControl
            (construct g settings (Some AUTOMATIC_MODE) (Some AGENT_PLAY) ts))
    with (initialPlayback (Some AUTOMATIC_MODE) (Some AGENT_PLAY)).
  split; [reflexivity|]. split; [|split; [|split]].
  - intros p -> Hp. unfold initialPlayback. rewrite Hp. reflexivity.
  - intros Hp. unfold initialPlayback. rewrite Hp. reflexivity.
  - unfold initialPlayback.
    destruct playbackArg as [p|];
      [destruct (truthyPlayback p) eqn:Hp|];
      destruct (initialMode modeArg); simpl;
      (split;
       [ intros H; try discriminate H;
         (split; [eauto | discriminate])
       | intros [[H|[q [Hq Hf]]] Hm];
         try discriminate; try congruence ]).
  - unfold initialPlayback.
    destruct playbackArg as [p|];
      [destruct (truthyPlayback p) eqn:Hp|];
      destruct (initialMode modeArg); simpl;
      (split;
       [ intros H; try discriminate H; eauto
       | intros [[q [Hq Hf]]|Hm];
         try discriminate; try congruence; reflexivity ]).
Qed.

(** ** Classifying a failed start (C4) *)

Lemma errorKey_404 :
  errorKey (AxiosError (Some 404)) = "ERROR_OPENAI_API_KEY_NO_GPT4".
Proof. reflexivity. Qed.

Lemma errorKey_axios (st : option Z) :
  st <> Some 404 ->
  errorKey (AxiosError st) = "ERROR_ACCESSING_OPENAI_API_KEY".
Proof.
  intros H. unfold errorKey. destruct st as [c|]; [|reflexivity].
  destruct (Z.eqb_spec c 404) as [->|_]; [congruence|reflexivity].
Qed.

(** C4.  A failure with HTTP status 429 is not reported as exceeded quota:
    the second [if] of [getMessageFromError] has an [else] that overwrites
    the message chosen by the first, so status 429 ends with the generic
    access error. *)
Theorem quota_status_reported_as_generic_access_error :
  errorKey (AxiosError (Some 429)) = "ERROR_ACCESSING_OPENAI_API_KEY" /\
  errorKey (AxiosError (Some 429)) <> "ERROR_API_KEY_QUOTA" /\
  getMessageFromError (AxiosError (Some 429)) =
    translate "ERROR_ACCESSING_OPENAI_API_KEY" "errors".
Proof. repeat split. vm_compute. discriminate. Qed.

(** ** Stopping (C9) *)

Lemma stopAgent_eq (s : State) : stopAgent s = (Ret tt, stopped s).
Proof.
  destruct s. unfold stopAgent, stopped. exec.
  rewrite <- app_assoc. reflexivity.
Qed.

(** C9.  [stopAgent] emits the manual-shutdown message, clears [isRunning]
    and calls the shutdown callback; a second call on the stopped agent
    leaves the task store as it was and emits no task message. *)
Theorem stopAgent_twice (s : State) :
  let s1 := snd (stopAgent s) in
  let s2 := snd (stopAgent s1) in
  fst (stopAgent s) = Ret tt /\
  newEvents s s1 = [EMsg MManualShutdown; EShutdown] /\
  isRunning s1 = false /\
  fst (stopAgent s1) = Ret tt /\
  tasks s2 = tasks s1 /\
  tasks s1 = tasks s /\
  filter isTaskMessage (messages (newEvents s1 s2)) = [] /\
  isRunning s2 = false.
Proof.
  cbv zeta. rewrite !stopAgent_eq. simpl fst. simpl snd.
  rewrite (newEvents_app s (stopped s) [EMsg MManualShutdown; EShutdown])
    by reflexivity.
  rewrite (newEvents_app (stopped s) (stopped (stopped s))
             [EMsg MManualShutdown; EShutdown]) by reflexivity.
  repeat split.
Qed.

(** * Further properties of the agent

    What the run costs, what it records, and what it tells its owner. *)

(** ** The books of a run *)

Lemma completedValues_app (a b : list Event) :
  completedValues (a ++ b) = completedValues a ++ completedValues b.
Proof.
  induction a as [|e a IH]; simpl; [reflexivity|].
  destruct e as [m| | | |]; try exact IH.
  destruct m; try exact IH.
  destruct (TaskStatus_eqb (status t) completed); simpl; rewrite IH;
    reflexivity.
Qed.

Lemma count_cons (p : Event -> bool) (e : Event) (d : list Event) :
  count p (e :: d) = ((if p e then 1 else 0) + count p d)%nat.
Proof. unfold count. simpl. destruct (p e); reflexivity. Qed.

Lemma count_nil (p : Event -> bool) : count p [] = 0%nat.
Proof. reflexivity. Qed.

Lemma startedEvents_books (u : nat) (vs : list string) :
  completedValues (startedEvents u vs) = [] /\
  count isRequest (startedEvents u vs) = 0%nat /\
  count isPauseNotice (startedEvents u vs) = 0%nat /\
  forallb startEvent (startedEvents u vs) = true.
Proof.
  revert u. induction vs as [|v vs IH]; intros u; [repeat split|].
  unfold count in *. simpl. apply IH.
Qed.

Lemma hookEvents_books :
  completedValues hookEvents = [] /\
  count isRequest hookEvents = 0%nat /\
  count isPauseNotice hookEvents = 0%nat /\
  forallb startEvent hookEvents = true.
Proof. unfold hookEvents. destruct (hooked api); repeat split. Qed.

(** Rewrite the readings of an event list built from conses, appends,
    the hook's events and the enqueueing events. *)
Ltac read_events :=
  repeat first
    [ rewrite count_app | rewrite count_cons | rewrite count_nil
    | rewrite completedValues_app | rewrite forallb_app
    | rewrite hookEvents_selection
    | rewrite (proj1 hookEvents_books)
    | rewrite (proj1 (proj2 hookEvents_books))
    | rewrite (proj1 (proj2 (proj2 hookEvents_books)))
    | rewrite (proj2 (proj2 (proj2 hookEvents_books)))
    | rewrite startedEvents_selection
    | rewrite (proj1 (startedEvents_books _ _))
    | rewrite (proj1 (proj2 (startedEvents_books _ _)))
    | rewrite (proj1 (proj2 (proj2 (startedEvents_books _ _))))
    | rewrite (proj2 (proj2 (proj2 (startedEvents_books _ _)))) ].

Lemma cycle_books (t : Task) (s : State) (p : Outcome unit * State) :
  Cycle t s p ->
  exists d,
    trace (snd p) = trace s ++ d /\
    completedTasks (snd p) = completedTasks s ++ completedValues d /\
    (count isRequest d <= 3)%nat /\
    count isSelection d = 1%nat /\
    count isPauseNotice d = 0%nat.
Proof.
  intros [e H|a e Ha H|a r e Ha Hr H|a r vs Ha Hr H]; simpl snd.
  - exists ([EMsg (MTask (withStatus t executing)); EMsg MThinking;
             ECall (CAnalyze (value t))] ++ hookEvents).
    split; [flatten_trace; reflexivity|].
    read_events. simpl. rewrite app_nil_r. repeat split; lia.
  - exists ([EMsg (MTask (withStatus t executing)); EMsg MThinking;
             ECall (CAnalyze (value t)); EMsg (MAnalysis a);
             ECall (CExecute (value t) a)] ++ hookEvents).
    split; [flatten_trace; reflexivity|].
    read_events. simpl. rewrite app_nil_r. repeat split; lia.
  - exists ([EMsg (MTask (withStatus t executing)); EMsg MThinking;
             ECall (CAnalyze (value t)); EMsg (MAnalysis a);
             ECall (CExecute (value t) a);
             EMsg (MTask (withResult t r completed)); EDelay TIMEOUT_LONG;
             EMsg MThinking; ECall (followUpCall t r (executed t a r s))]
            ++ hookEvents
            ++ [EMsg (MError
                        (translate "ERROR_ADDING_ADDITIONAL_TASKS" "errors"));
                EMsg (MTask (withStatus t final))]).
    split; [flatten_trace; reflexivity|].
    read_events. simpl. repeat split; lia.
  - unfold expanded.
    destruct vs as [|v vs]; cbn [List.length Nat.eqb]; cbv iota.
    + exists [EMsg (MTask (withStatus t executing)); EMsg MThinking;
              ECall (CAnalyze (value t)); EMsg (MAnalysis a);
              ECall (CExecute (value t) a);
              EMsg (MTask (withResult t r completed)); EDelay TIMEOUT_LONG;
              EMsg MThinking; ECall (followUpCall t r (executed t a r s));
              EMsg (MTask (withStatus t final))].
      split; [flatten_trace; reflexivity|].
      simpl. unfold count. simpl. repeat split; lia.
    + exists ([EMsg (MTask (withStatus t executing)); EMsg MThinking;
               ECall (CAnalyze (value t)); EMsg (MAnalysis a);
               ECall (CExecute (value t) a);
               EMsg (MTask (withResult t r completed)); EDelay TIMEOUT_LONG;
               EMsg MThinking; ECall (followUpCall t r (executed t a r s))]
              ++ startedEvents (uuid s) (v :: vs)).
      split; [flatten_trace; reflexivity|].
      read_events. simpl. repeat split; lia.
Qed.

Lemma ledger_refl (s s' : State) :
  trace s' = trace s -> completedTasks s' = completedTasks s ->
  numLoops s' = numLoops s -> customMaxLoops s' = customMaxLoops s ->
  ledger s s'.
Proof.
  intros Ht Hc Hn Hm. exists []. rewrite !app_nil_r.
  unfold count. simpl. repeat split; auto; lia.
Qed.

Lemma ledger_trans (a b c : State) : ledger a b -> ledger b c -> ledger a c.
Proof.
  intros (d1 & T1 & C1 & Q1 & N1 & B1 & M1 & P1)
         (d2 & T2 & C2 & Q2 & N2 & B2 & M2 & P2).
  exists (d1 ++ d2).
  rewrite (maxLoops_settings _ _ M1) in B2.
  rewrite T2, T1, C2, C1, completedValues_app, !count_app, !app_assoc.
  repeat split; try lia. congruence.
Qed.

Lemma pass_books (s : State) (p : Outcome bool * State) :
  Pass s p -> ledger s (snd p).
Proof.
  intros [H|H Hr|t rest H Hr Hl|t rest H Hr Hl].
  - apply ledger_refl; reflexivity.
  - exists [EMsg MCompleted; EShutdown]. simpl. rewrite <- app_assoc.
    unfold count. simpl. rewrite app_nil_r. repeat split; lia.
  - exists [EMsg MLoop; EShutdown]. simpl. rewrite <- app_assoc.
    unfold count. simpl. rewrite app_nil_r. repeat split; lia.
  - pose proof (taskCycle_cases t (emitted (EDelay TIMEOUT_LONG) (counted s)))
      as Hc.
    pose proof (cycle_control _ _ _ Hc) as (_ & _ & Hn & _ & _ & Hm & _).
    pose proof (cycle_books _ _ _ Hc) as (d & Ht & Hd & Hq & Hsel & Hno).
    exists (EDelay TIMEOUT_LONG :: d). rewrite continued_snd.
    rewrite Ht, Hd, Hn, Hm, !count_cons, Hsel, Hno. simpl.
    rewrite <- app_assoc. simpl. repeat split; lia.
Qed.

Lemma loop_books (fuel : nat) (s : State) : ledger s (snd (loop fuel s)).
Proof.
  apply loop_relates.
  - intros a. apply ledger_refl; reflexivity.
  - apply ledger_trans.
  - intros a. apply ledger_refl; reflexivity.
  - intros a. apply ledger_refl; reflexivity.
  - apply pass_books.
Qed.

Lemma startEvent_books (d : list Event) :
  forallb startEvent d = true ->
  completedValues d = [] /\ count isSelection d = 0%nat /\
  count isPauseNotice d = 0%nat.
Proof.
  induction d as [|e d IH]; [repeat split|].
  simpl forallb. intros H. apply andb_true_iff in H as [He Hd].
  destruct (IH Hd) as (C & S & P). rewrite !count_cons, S, P.
  destruct e as [[]| | | |[]]; simpl in *; try discriminate; auto.
  apply TaskStatus_eqb_eq in He. rewrite He. simpl. auto.
Qed.

(** The start phase of [run], when it has one: the state in which [loop]
    is entered and the events up to there. *)
Lemma run_start (fuel : nat) (s : State) :
  exists s0 d0,
    run fuel s = runResult (loop fuel s0) /\
    trace s0 = trace s ++ d0 /\
    forallb startEvent d0 = true /\
    (count isRequest d0 <= if isRunning s then 0 else 1)%nat /\
    completedTasks s0 = completedTasks s /\
    numLoops s0 = numLoops s /\
    customMaxLoops s0 = customMaxLoops s /\
    mode s0 = mode s /\
    playbackControl s0 = playbackControl s /\
    isRunning s0 = true.
Proof.
  destruct (isRunning s) eqn:Hr.
  - exists s, []. rewrite app_nil_r.
    split; [apply run_running; exact Hr|]. repeat split; auto.
  - destruct (getInitialTasks api (clock (launched s))) as [vs|e] eqn:Hi.
    + exists (startSucceeded vs (launched s)),
        ([EMsg (MGoal (goal s)); EMsg MThinking; ECall CInitial]
         ++ startedEvents (uuid s) vs).
      split; [apply (run_starting fuel s _ Hr (startGoal_succeeded _ _ Hi))|].
      split; [flatten_trace; reflexivity|].
      read_events. simpl. repeat split; auto.
    + exists (startFailed e (launched s)),
        ([EMsg (MGoal (goal s)); EMsg MThinking; ECall CInitial]
         ++ hookEvents
         ++ [EMsg (MError (getMessageFromError e)); EShutdown]).
      split; [apply (run_starting fuel s _ Hr (startGoal_failed _ _ Hi))|].
      split; [flatten_trace; reflexivity|].
      read_events. simpl. repeat split; auto; lia.
Qed.

(** The end of [run]: the notice, when there is one. *)
Lemma run_end (p : Outcome unit * State) :
  exists d,
    trace (snd (runResult p)) = trace (snd p) ++ d /\
    completedTasks (snd (runResult p)) = completedTasks (snd p) /\
    (d = [] \/
     d = [EHandlePause (playbackControl (snd p))] /\ fst p = Ret tt /\
     mode (snd p) = PAUSE_MODE /\ isRunning (snd p) = false) /\
    (fst p = Ret tt -> mode (snd p) = PAUSE_MODE ->
     isRunning (snd p) = false ->
     d = [EHandlePause (playbackControl (snd p))]).
Proof.
  destruct p as [[[]|e|] s']; simpl;
    try solve [exists []; rewrite app_nil_r; repeat split; auto;
               discriminate].
  unfold notified.
  destruct (AgentMode_eqb (mode s') PAUSE_MODE) eqn:Hm;
    destruct (isRunning s') eqn:Hr; simpl.
  - exists []. rewrite app_nil_r. repeat split; auto. discriminate.
  - exists [EHandlePause (playbackControl s')].
    apply AgentMode_eqb_eq in Hm. repeat split; auto.
  - exists []. rewrite app_nil_r. repeat split; auto. discriminate.
  - exists []. rewrite app_nil_r. repeat split; auto.
    intros _ Hp. rewrite Hp in Hm. discriminate.
Qed.

(** A call of [run], taken apart: the start phase, the loop and the
    notice. *)
Lemma run_anatomy (fuel : nat) (s : State) :
  exists s0 d0 d1 d2,
    run fuel s = runResult (loop fuel s0) /\
    newEvents s (snd (run fuel s)) = d0 ++ d1 ++ d2 /\
    trace s0 = trace s ++ d0 /\
    trace (snd (loop fuel s0)) = trace s0 ++ d1 /\
    (* the start phase *)
    forallb startEvent d0 = true /\
    (count isRequest d0 <= if isRunning s then 0 else 1)%nat /\
    mode s0 = mode s /\ isRunning s0 = true /\
    (* the loop *)
    completedTasks (snd (loop fuel s0)) =
      completedTasks s ++ completedValues d1 /\
    (count isRequest d1 <= 3 * count isSelection d1)%nat /\
    Z.of_nat (count isSelection d1) <= Z.max 0 (maxLoops s - numLoops s) /\
    count isPauseNotice d1 = 0%nat /\
    (* the notice *)
    completedTasks (snd (run fuel s)) = completedTasks (snd (loop fuel s0)) /\
    (d2 = [] \/
     d2 = [EHandlePause (playbackControl (snd (loop fuel s0)))] /\
     fst (loop fuel s0) = Ret tt /\
     mode (snd (loop fuel s0)) = PAUSE_MODE /\
     isRunning (snd (loop fuel s0)) = false) /\
    (fst (loop fuel s0) = Ret tt -> mode (snd (loop fuel s0)) = PAUSE_MODE ->
     isRunning (snd (loop fuel s0)) = false ->
     d2 = [EHandlePause (playbackControl (snd (loop fuel s0)))]).
Proof.
  destruct (run_start fuel s)
    as (s0 & d0 & Hrun & T0 & F0 & Q0 & C0 & N0 & M0 & Md0 & _ & R0).
  destruct (loop_books fuel s0) as (d1 & T1 & C1 & Q1 & _ & B1 & _ & P1).
  destruct (run_end (loop fuel s0)) as (d2 & T2 & C2 & Hd2 & Hd2').
  exists s0, d0, d1, d2. rewrite Hrun.
  rewrite (maxLoops_settings _ _ M0), N0, C0 in *.
  split; [reflexivity|].
  split; [apply newEvents_app; rewrite T2, T1, T0, <- !app_assoc; reflexivity|].
  repeat (split; [assumption|]). assumption.
Qed.

(** X1.  The loop budget bounds the work of [run]: a call selects at most
    as many tasks as the budget has loops left, and with more fuel than
    that the model of [run] returns or raises. *)
Theorem run_selects_within_budget (s : State) (fuel : nat) :
  (count isSelection (newEvents s (snd (run fuel s))) <=
   Z.to_nat (maxLoops s - numLoops s))%nat /\
  ((Z.to_nat (maxLoops s - numLoops s) < fuel)%nat ->
   fst (run fuel s) <> OutOfFuel).
Proof.
  split; [|apply run_returns].
  destruct (run_anatomy fuel s)
    as (s0 & d0 & d1 & d2 & _ & Hev & _ & _ & F0 & _ & _ & _ & _ & _ & B1
        & _ & _ & Hd2 & _).
  destruct (startEvent_books d0 F0) as (_ & S0 & _).
  rewrite Hev, !count_app, S0.
  assert (count isSelection d2 = 0%nat) as ->
    by (destruct Hd2 as [->|[-> _]]; reflexivity).
  lia.
Qed.

(** X2.  The requests of a call of [run]: one for the initial tasks when
    the call starts the goal, and at most three for each task selected
    (analysis, execution, follow-ups); so never more than one plus three
    times the budget left. *)
Theorem run_requests_bounded (s : State) (fuel : nat) :
  (count isRequest (newEvents s (snd (run fuel s))) <=
   (if isRunning s then 0 else 1)
   + 3 * count isSelection (newEvents s (snd (run fuel s))))%nat /\
  (count isRequest (newEvents s (snd (run fuel s))) <=
   1 + 3 * Z.to_nat (maxLoops s - numLoops s))%nat.
Proof.
  destruct (run_anatomy fuel s)
    as (s0 & d0 & d1 & d2 & _ & Hev & _ & _ & F0 & Q0 & _ & _ & _ & Q1 & B1
        & _ & _ & Hd2 & _).
  destruct (startEvent_books d0 F0) as (_ & S0 & _).
  rewrite Hev, !count_app, S0.
  assert (count isSelection d2 = 0%nat /\ count isRequest d2 = 0%nat)
    as [-> ->] by (destruct Hd2 as [->|[-> _]]; split; reflexivity).
  destruct (isRunning s); lia.
Qed.

(** X3.  The completed list is the history of the run: after a call of
    [run] it is what it was, followed by the values of the tasks that the
    call announced as completed, in the order of the announcements.
    Nothing is ever removed from it or reordered. *)
Theorem completed_list_is_history (s : State) (fuel : nat) :
  completedTasks (snd (run fuel s)) =
  completedTasks s ++ completedValues (newEvents s (snd (run fuel s))).
Proof.
  destruct (run_anatomy fuel s)
    as (s0 & d0 & d1 & d2 & _ & Hev & _ & _ & F0 & _ & _ & _ & C1 & _ & _
        & _ & C2 & Hd2 & _).
  destruct (startEvent_books d0 F0) as (V0 & _ & _).
  rewrite Hev, !completedValues_app, V0, C2, C1.
  assert (completedValues d2 = []) as ->
    by (destruct Hd2 as [->|[-> _]]; reflexivity).
  rewrite app_nil_r. reflexivity.
Qed.

(** ** Telling the owner that the agent is paused *)

(** In pause mode every pass leaves the playback flag at [AGENT_PAUSE],
    and a call of [loop] that returns has made a pass. *)
Lemma loop_flag_paused (fuel : nat) (s : State) :
  mode s = PAUSE_MODE -> fst (loop fuel s) = Ret tt ->
  playbackControl (snd (loop fuel s)) = AGENT_PAUSE.
Proof.
  revert s. induction fuel as [|fuel IH]; intros s Hm; [discriminate|].
  rewrite loop_S. unfold loopResult.
  pose proof (iteration_pass (entered s)) as Hp.
  pose proof (pass_flags _ _ Hp) as (Hflag & _).
  pose proof (pass_settings _ _ Hp) as (_ & Hm1 & _).
  simpl in Hflag, Hm1. rewrite Hm in Hflag, Hm1.
  destruct (iteration (entered s)) as [[[]|e|] s1]; cbn [fst snd] in *;
    try discriminate.
  - specialize (IH s1 Hm1). destruct (loop fuel s1) as [r s2].
    cbn [fst snd] in *. exact IH.
  - intros _. exact Hflag.
Qed.

Lemma no_notice (d : list Event) (pc : AgentPlaybackControl) :
  count isPauseNotice d = 0%nat -> ~ In (EHandlePause pc) d.
Proof.
  induction d as [|e d IH]; [intros _ []|].
  rewrite count_cons. intros H [He|Hin].
  - subst e. simpl in H. lia.
  - apply IH; [lia|exact Hin].
Qed.

(** X4.  [run] calls [handlePause] at most once, as the last thing it
    does, only in pause mode, only when it returns with [isRunning]
    false, and then always with [AGENT_PAUSE]; and in pause mode a call
    that returns with [isRunning] false does make that call. *)
Theorem pause_notice_only_when_paused (s : State) (fuel : nat) :
  (count isPauseNotice (newEvents s (snd (run fuel s))) <= 1)%nat /\
  (forall pc,
     In (EHandlePause pc) (newEvents s (snd (run fuel s))) ->
     pc = AGENT_PAUSE /\ mode s = PAUSE_MODE /\
     fst (run fuel s) = Ret tt /\ isRunning (snd (run fuel s)) = false /\
     exists d, newEvents s (snd (run fuel s)) = d ++ [EHandlePause pc]) /\
  (mode s = PAUSE_MODE -> fst (run fuel s) = Ret tt ->
   isRunning (snd (run fuel s)) = false ->
   In (EHandlePause AGENT_PAUSE) (newEvents s (snd (run fuel s)))) /\
  (mode s = AUTOMATIC_MODE ->
   count isPauseNotice (newEvents s (snd (run fuel s))) = 0%nat).
Proof.
  destruct (run_anatomy fuel s)
    as (s0 & d0 & d1 & d2 & Hrun & Hev & _ & _ & F0 & _ & M0 & _ & _ & _ & _
        & P1 & _ & Hd2 & Hd2').
  destruct (startEvent_books d0 F0) as (_ & _ & P0).
  destruct (runResult_fields (loop fuel s0)) as (Hr & _ & Hf).
  destruct (loop_keeps_running fuel s0) as [Hm _].
  rewrite Hrun, Hr, Hf. rewrite Hrun in Hev. rewrite Hev, !count_app, P0, P1.
  rewrite Hm, M0 in *.
  assert (Hflag : mode s = PAUSE_MODE -> fst (loop fuel s0) = Ret tt ->
                  playbackControl (snd (loop fuel s0)) = AGENT_PAUSE).
  { intros Hp. apply loop_flag_paused. congruence. }
  split; [|split; [|split]].
  - destruct Hd2 as [->|[-> _]]; unfold count; simpl; lia.
  - intros pc Hin.
    apply in_app_or in Hin as [Hin|Hin]; [destruct (no_notice _ _ P0 Hin)|].
    apply in_app_or in Hin as [Hin|Hin]; [destruct (no_notice _ _ P1 Hin)|].
    destruct Hd2 as [->|[-> (Hret & Hp & Hstop)]]; [destruct Hin|].
    destruct Hin as [Heq|[]]. injection Heq as <-.
    rewrite (Hflag Hp Hret).
    repeat split; auto. exists (d0 ++ d1). rewrite app_assoc. reflexivity.
  - intros Hp Hret Hstop. rewrite (Hd2' Hret Hp Hstop), (Hflag Hp Hret).
    apply in_or_app. right. apply in_or_app. right. left. reflexivity.
  - intros Ha. destruct Hd2 as [->|[-> (_ & Hp & _)]]; [reflexivity|].
    congruence.
Qed.

(** ** The message for a failed start *)

(** X5.  [getMessageFromError] has three outcomes and no more: status
    404 gives the message for a missing GPT-4 key, every other axios
    error, with or without a response, gives the message for a failed
    access, and an error that is no axios error gives the message for
    failed initial tasks.  The message for an exceeded quota is never
    returned. *)
Theorem getMessageFromError_three_outcomes (e : Exn) :
  (e = AxiosError (Some 404) /\
   getMessageFromError e = translate "ERROR_OPENAI_API_KEY_NO_GPT4" "errors"
   \/
   (exists st, e = AxiosError st /\ st <> Some 404) /\
   getMessageFromError e =
     translate "ERROR_ACCESSING_OPENAI_API_KEY" "errors"
   \/
   (forall st, e <> AxiosError st) /\
   getMessageFromError e = translate "ERROR_RETRIEVE_INITIAL_TASKS" "errors")
  /\ errorKey e <> "ERROR_API_KEY_QUOTA".
Proof.
  unfold getMessageFromError.
  destruct e as [[c|]| |]; simpl errorKey.
  - destruct (Z.eqb_spec c 404) as [->|Hne].
    + split; [left; split; reflexivity|discriminate].
    + split; [|discriminate]. right. left. split; [|reflexivity].
      eexists. split; [reflexivity|]. congruence.
  - split; [|discriminate]. right. left. split; [|reflexivity].
    eexists. split; [reflexivity|]. discriminate.
  - split; [|discriminate]. right. right. split; [|reflexivity].
    intros st. discriminate.
  - split; [|discriminate]. right. right. split; [|reflexivity].
    intros st. discriminate.
Qed.

(** ** Stopping, and starting again *)

(** A call of [run] on an agent that is not running starts the goal:
    one goal message and one request for the initial tasks. *)
Lemma run_starting_events (fuel : nat) (s : State) :
  isRunning s = false ->
  count isInitialCall (newEvents s (snd (run fuel s))) = 1%nat /\
  count isGoalMessage (newEvents s (snd (run fuel s))) = 1%nat.
Proof.
  intros Hr.
  assert (Hs : exists s0 d0,
            run fuel s = runResult (loop fuel s0) /\
            trace s0 = trace s ++ d0 /\
            count isInitialCall d0 = 1%nat /\
            count isGoalMessage d0 = 1%nat).
  { destruct (getInitialTasks api (clock (launched s))) as [vs|e] eqn:Hi.
    - exists (startSucceeded vs (launched s)),
        ([EMsg (MGoal (goal s)); EMsg MThinking; ECall CInitial]
         ++ startedEvents (uuid s) vs).
      split; [apply (run_starting fuel s _ Hr (startGoal_succeeded _ _ Hi))|].
      split; [flatten_trace; reflexivity|].
      pose proof (startedEvents_cycle (uuid s) vs) as Hc.
      apply cycleEvent_loopEvent, loopEvent_not_start in Hc as [H1 H2].
      rewrite !count_app, H1, H2. split; reflexivity.
    - exists (startFailed e (launched s)),
        ([EMsg (MGoal (goal s)); EMsg MThinking; ECall CInitial]
         ++ hookEvents
         ++ [EMsg (MError (getMessageFromError e)); EShutdown]).
      split; [apply (run_starting fuel s _ Hr (startGoal_failed _ _ Hi))|].
      split; [flatten_trace; reflexivity|].
      rewrite !count_app. unfold hookEvents.
      destruct (hooked api); split; reflexivity. }
  destruct Hs as (s0 & d0 & Hrun & T0 & I0 & G0). rewrite Hrun.
  destruct (loop_events fuel s0) as [d [Ht Fd]].
  destruct (runResult_snd_trace (loop fuel s0)) as [d' [Ht' [I' [G' _]]]].
  destruct (loopEvent_not_start d Fd) as [I G].
  rewrite (newEvents_app s _ (d0 ++ d ++ d')).
  - rewrite !count_app, I, G, I', G', I0, G0. auto.
  - rewrite Ht', Ht, T0, <- !app_assoc. reflexivity.
Qed.

(** X6.  What [stopAgent] stops.  In automatic mode the next call of
    [loop] on the stopped agent returns at once: no event, no loop
    counted, store untouched.  In pause mode the pause check overwrites
    [isRunning] with what the playback flag says, so with the flag at
    [AGENT_PLAY] the pass goes on although the agent was stopped.  And in
    either mode a later call of [run] starts the goal again. *)
Theorem stop_then_loop_and_run (s : State) (fuel : nat) :
  (mode s = AUTOMATIC_MODE ->
   fst (loop (S fuel) (snd (stopAgent s))) = Ret tt /\
   newEvents (snd (stopAgent s)) (snd (loop (S fuel) (snd (stopAgent s))))
     = [] /\
   numLoops (snd (loop (S fuel) (snd (stopAgent s)))) = numLoops s /\
   tasks (snd (loop (S fuel) (snd (stopAgent s)))) = tasks s /\
   isRunning (snd (loop (S fuel) (snd (stopAgent s)))) = false) /\
  (mode s = PAUSE_MODE -> playbackControl s = AGENT_PLAY ->
   isRunning (snd (iteration (snd (stopAgent s)))) = true) /\
  count isInitialCall
    (newEvents (snd (stopAgent s)) (snd (run fuel (snd (stopAgent s)))))
    = 1%nat /\
  count isGoalMessage
    (newEvents (snd (stopAgent s)) (snd (run fuel (snd (stopAgent s)))))
    = 1%nat.
Proof.
  rewrite stopAgent_eq. cbn [snd].
  split; [|split; [|apply run_starting_events; reflexivity]].
  - intros Hm.
    assert (Ha : admits (stopped s) = false).
    { unfold admits. simpl. rewrite Hm. reflexivity. }
    rewrite (loop_suspends fuel (stopped s) Ha). cbn [fst snd].
    unfold newEvents. simpl. rewrite skipn_all. repeat split.
    unfold admits. simpl. rewrite Hm. reflexivity.
  - intros Hm Hpc.
    destruct (pass_flags _ _ (iteration_pass (stopped s))) as (_ & -> & _).
    unfold admits. simpl. rewrite Hm, Hpc. reflexivity.
Qed.

(** ** A goal without tasks *)

(** X7.  When the request for the initial tasks is answered with no task
    and none is waiting, [run] makes that one request and counts no loop.
    An agent that the pause check lets through announces completion and
    shuts down; an agent in pause mode with the flag at [AGENT_PAUSE], as
    the constructor leaves it, is suspended instead: it tells its owner
    that it is paused and announces completion only when resumed. *)
Theorem empty_decomposition (s : State) (fuel : nat) :
  isRunning s = false ->
  getRemainingTasks s = [] ->
  getInitialTasks api (clock s) = Resolved [] ->
  fst (run (S fuel) s) = Ret tt /\
  numLoops (snd (run (S fuel) s)) = numLoops s /\
  tasks (snd (run (S fuel) s)) = tasks s /\
  completedTasks (snd (run (S fuel) s)) = completedTasks s /\
  (mode s = AUTOMATIC_MODE \/ playbackControl s = AGENT_PLAY ->
   newEvents s (snd (run (S fuel) s)) =
     [EMsg (MGoal (goal s)); EMsg MThinking; ECall CInitial;
      EMsg MCompleted; EShutdown]) /\
  (mode s = PAUSE_MODE -> playbackControl s = AGENT_PAUSE ->
   newEvents s (snd (run (S fuel) s)) =
     [EMsg (MGoal (goal s)); EMsg MThinking; ECall CInitial;
      EHandlePause AGENT_PAUSE] /\
   newEvents s (snd (handleContinue (S fuel) (snd (run (S fuel) s)))) =
     [EMsg (MGoal (goal s)); EMsg MThinking; ECall CInitial;
      EHandlePause AGENT_PAUSE; EMsg MCompleted; EShutdown]).
Proof.
  intros Hr Hrem Hi.
  rewrite (run_starting (S fuel) s (startSucceeded [] (launched s)) Hr)
    by (apply (startGoal_succeeded (launched s)); exact Hi).
  set (s0 := startSucceeded [] (launched s)).
  assert (Hrem0 : getRemainingTasks (entered s0) = []) by exact Hrem.
  pose proof (iteration_pass (entered s0)) as Hp.
  rewrite loop_S. unfold loopResult.
  destruct (admits (entered s0)) eqn:Ha.
  - rewrite (pass_completed _ _ Hp Ha Hrem0). cbn [runResult fst snd].
    assert (Hn : notified
                   (exited (emitted EShutdown
                      (delivered MCompleted (admitted (entered s0))))) =
                 exited (emitted EShutdown
                      (delivered MCompleted (admitted (entered s0))))).
    { unfold notified. cbn [isRunning exited emitted delivered admitted
        set_frames set_trace]. rewrite Ha, andb_false_r. reflexivity. }
    rewrite Hn. do 4 (split; [reflexivity|]). split.
    + intros _. apply newEvents_app. flatten_trace. reflexivity.
    + intros Hm Hpc. unfold admits in Ha. simpl in Ha.
      rewrite Hm, Hpc in Ha. discriminate.
  - rewrite (pass_suspended _ _ Hp Ha). cbn [runResult fst snd].
    assert (Hmp : mode s = PAUSE_MODE /\ playbackControl s = AGENT_PAUSE).
    { unfold admits in Ha. simpl in Ha.
      destruct (mode s), (playbackControl s); try discriminate; auto. }
    destruct Hmp as [Hm Hpc].
    assert (Hn : notified (exited (admitted (entered s0))) =
                 emitted (EHandlePause AGENT_PAUSE)
                   (exited (admitted (entered s0)))).
    { unfold notified. cbn [isRunning mode exited emitted delivered admitted
        set_frames set_trace playbackControl]. rewrite Ha.
      simpl. rewrite Hm. reflexivity. }
    rewrite Hn. do 4 (split; [reflexivity|]).
    split; [intros [Hm'|Hpc']; congruence|]. intros _ _. split.
    + apply newEvents_app. flatten_trace. reflexivity.
    + set (s1 := emitted (EHandlePause AGENT_PAUSE)
                   (exited (admitted (entered s0)))).
      assert (Hc : handleContinue (S fuel) s1 =
                   run (S fuel) (launched (set_playbackControl AGENT_PLAY s1)))
        by reflexivity.
      rewrite Hc, run_running by reflexivity.
      set (s2 := launched (set_playbackControl AGENT_PLAY s1)).
      assert (Ha2 : admits (entered s2) = true).
      { unfold admits. simpl. rewrite Hm. reflexivity. }
      assert (Hrem2 : getRemainingTasks (entered s2) = []) by exact Hrem.
      rewrite loop_S. unfold loopResult.
      rewrite (pass_completed _ _ (iteration_pass (entered s2)) Ha2 Hrem2).
      cbn [runResult fst snd].
      assert (Hn2 : notified
                   (exited (emitted EShutdown
                      (delivered MCompleted (admitted (entered s2))))) =
                 exited (emitted EShutdown
                      (delivered MCompleted (admitted (entered s2))))).
      { unfold notified. cbn [isRunning exited emitted delivered admitted
          set_frames set_trace]. rewrite Ha2, andb_false_r. reflexivity. }
      rewrite Hn2. apply newEvents_app. flatten_trace. reflexivity.
Qed.

(** ** A failure that is not caught *)

Lemma cycle_failed (t : Task) (s : State) (p : Outcome unit * State)
    (e : Exn) :
  Cycle t s p ->
  (analyzeTask api (clock s) (value t) = Rejected e \/
   exists a, analyzeTask api (clock s) (value t) = Resolved a /\
             executeTask api (S (clock s)) (value t) a = Rejected e) ->
  p = (Throw e, failed (CAnalyze (value t)) (selected t s)) \/
  exists a, p = (Throw e, failed (CExecute (value t) a) (analysed t a s)).
Proof.
  intros [e' H|a' e' Ha' H|a' r' e' Ha' Hr' H|a' r' vs Ha' Hr' H]
         [Hf|[a [Ha Hf]]]; try congruence.
  - left. congruence.
  - right. exists a'. congruence.
Qed.

(** X8.  A failure of the analysis or of the execution of a task is not
    caught by the agent: [run] rejects with that very error.  The task
    stays announced as executing, the completed list is as it was, the
    loop is counted, no error message is sent, the owner is not told that
    the agent is paused, and [shutdown] is called exactly when the API
    was wired to the error hook. *)
Theorem uncaught_failure_ends_run (s : State) (t : Task) (rest : list Task)
    (e : Exn) (fuel : nat) :
  isRunning s = true ->
  admits s = true ->
  getRemainingTasks s = t :: rest ->
  numLoops s + 1 <= maxLoops s ->
  (analyzeTask api (clock s) (value t) = Rejected e \/
   exists a, analyzeTask api (clock s) (value t) = Resolved a /\
             executeTask api (S (clock s)) (value t) a = Rejected e) ->
  fst (run (S fuel) s) = Throw e /\
  completedTasks (snd (run (S fuel) s)) = completedTasks s /\
  numLoops (snd (run (S fuel) s)) = numLoops s + 1 /\
  (forall u, In u (tasks (snd (run (S fuel) s))) ->
             taskId u = taskId t -> status u = executing) /\
  filter isErrorMessage (messages (newEvents s (snd (run (S fuel) s)))) = [] /\
  count isPauseNotice (newEvents s (snd (run (S fuel) s))) = 0%nat /\
  existsb isShutdown (newEvents s (snd (run (S fuel) s))) = hooked api.
Proof.
  intros Hrun Hadm Hrem Hle Hfail.
  rewrite (run_running (S fuel) s Hrun), loop_S. unfold loopResult.
  rewrite (pass_cycle (entered s) _ t rest (iteration_pass (entered s))
             Hadm Hrem Hle).
  destruct (cycle_failed t _ _ e
              (taskCycle_cases t
                 (emitted (EDelay TIMEOUT_LONG) (counted (entered s)))) Hfail)
    as [->|[a ->]]; cbn [continued runResult fst snd].
  - split; [reflexivity|]. split; [reflexivity|]. split; [reflexivity|].
    split.
    { intros u Hin Hid.
      apply (updateTaskStatus_status (withStatus t executing) u (tasks s));
        assumption. }
    rewrite (newEvents_app s _
               ([EDelay TIMEOUT_LONG; EMsg (MTask (withStatus t executing));
                 EMsg MThinking; ECall (CAnalyze (value t))] ++ hookEvents))
      by (flatten_trace; reflexivity).
    unfold hookEvents. destruct (hooked api); repeat split.
  - split; [reflexivity|]. split; [reflexivity|]. split; [reflexivity|].
    split.
    { intros u Hin Hid.
      apply (updateTaskStatus_status (withStatus t executing) u (tasks s));
        assumption. }
    rewrite (newEvents_app s _
               ([EDelay TIMEOUT_LONG; EMsg (MTask (withStatus t executing));
                 EMsg MThinking; ECall (CAnalyze (value t));
                 EMsg (MAnalysis a); ECall (CExecute (value t) a)]
                ++ hookEvents))
      by (flatten_trace; reflexivity).
    unfold hookEvents. destruct (hooked api); repeat split.
Qed.

(** ** Tasks in execution *)

Lemma updateTaskStatus_noneExecuting (u : Task) (ts : list Task) :
  status u <> executing -> noneExecuting ts ->
  noneExecuting (updateTaskStatus u ts).
Proof.
  intros Hu Hts x Hin. unfold updateTaskStatus in Hin.
  apply in_map_iff in Hin as [y [Hy Hin]]. subst x.
  destruct (Nat.eqb (taskId y) (taskId u)); [exact Hu|apply Hts; exact Hin].
Qed.

(** The update that announces a task as executing, undone by the next
    update of the same task. *)
Lemma updateTaskStatus_settles (u c : Task) (ts : list Task) :
  taskId c = taskId u -> status c <> executing -> noneExecuting ts ->
  noneExecuting (updateTaskStatus c (updateTaskStatus u ts)).
Proof.
  intros Hid Hc Hts x Hin. unfold updateTaskStatus in Hin.
  rewrite map_map in Hin. apply in_map_iff in Hin as [y [Hy Hin]]. subst x.
  rewrite Hid.
  destruct (Nat.eqb_spec (taskId y) (taskId u)) as [Heq|Hne]; simpl.
  - rewrite Heq, Nat.eqb_refl. exact Hc.
  - destruct (Nat.eqb_spec (taskId y) (taskId u)); [contradiction|].
    apply Hts. exact Hin.
Qed.

Lemma appendTask_noneExecuting (u : Task) (ts : list Task) :
  status u <> executing -> noneExecuting ts -> noneExecuting (appendTask u ts).
Proof.
  intros Hu Hts. unfold appendTask.
  destruct (TaskStatus_eqb (status u) started); [|exact Hts].
  intros x Hin. apply in_app_or in Hin as [Hin|[<-|[]]]; auto.
Qed.

Lemma storeAfter_noneExecuting (u : Task) (ts : list Task) :
  status u <> executing -> noneExecuting ts ->
  noneExecuting (storeAfter (MTask u) ts).
Proof.
  intros Hu Hts. apply appendTask_noneExecuting; [exact Hu|].
  apply updateTaskStatus_noneExecuting; assumption.
Qed.

Lemma enqueuedTasks_noneExecuting (u : nat) (vs : list string)
    (ts : list Task) :
  noneExecuting ts -> noneExecuting (enqueuedTasks u vs ts).
Proof.
  revert u ts. induction vs as [|v vs IH]; intros u ts Hts; [exact Hts|].
  simpl. apply IH. apply storeAfter_noneExecuting; [discriminate|exact Hts].
Qed.

Lemma tasks_executed (t : Task) (a : Analysis) (r : string) (s : State) :
  tasks (executed t a r s) =
  updateTaskStatus (withResult t r completed)
    (updateTaskStatus (withStatus t executing) (tasks s)).
Proof. reflexivity. Qed.

Lemma executed_noneExecuting (t : Task) (a : Analysis) (r : string)
    (s : State) :
  noneExecuting (tasks s) -> noneExecuting (tasks (executed t a r s)).
Proof.
  intros H.
  rewrite tasks_executed.
  apply updateTaskStatus_settles; [reflexivity|discriminate|exact H].
Qed.

Lemma tasks_absorbed (t : Task) (r : string) (s : State) :
  tasks (absorbed t r s) = storeAfter (MTask (withStatus t final)) (tasks s).
Proof. reflexivity. Qed.

Lemma tasks_expanded (t : Task) (r : string) (vs : list string) (s : State) :
  tasks (expanded t r vs s) =
  if Nat.eqb (List.length vs) 0
  then storeAfter (MTask (withStatus t final))
         (enqueuedTasks (uuid s) vs (tasks s))
  else enqueuedTasks (uuid s) vs (tasks s).
Proof. unfold expanded. destruct (Nat.eqb (List.length vs) 0); reflexivity. Qed.

Lemma cycle_settles (t : Task) (s : State) (p : Outcome unit * State) :
  Cycle t s p -> fst p = Ret tt -> noneExecuting (tasks s) ->
  noneExecuting (tasks (snd p)).
Proof.
  intros [e H|a e Ha H|a r e Ha Hr H|a r vs Ha Hr H]; try discriminate;
    intros _ Hs; cbn [snd].
  - rewrite tasks_absorbed.
    apply storeAfter_noneExecuting; [discriminate|].
    apply executed_noneExecuting. exact Hs.
  - rewrite tasks_expanded.
    assert (He : noneExecuting
                   (enqueuedTasks (uuid (executed t a r s)) vs
                      (tasks (executed t a r s)))).
    { apply enqueuedTasks_noneExecuting, executed_noneExecuting. exact Hs. }
    destruct (Nat.eqb (List.length vs) 0); [|exact He].
    apply (storeAfter_noneExecuting (withStatus t final));
      [discriminate|exact He].
Qed.

Lemma pass_settles (s : State) (p : Outcome bool * State) :
  Pass s p -> (exists b, fst p = Ret b) -> noneExecuting (tasks s) ->
  noneExecuting (tasks (snd p)).
Proof.
  intros [H|H Hr|t rest H Hr Hl|t rest H Hr Hl] [b Hb] Hs; try exact Hs.
  pose proof (cycle_settles t _ _
                (taskCycle_cases t
                   (emitted (EDelay TIMEOUT_LONG) (counted s)))) as Hc.
  destruct (taskCycleResult t (emitted (EDelay TIMEOUT_LONG) (counted s)))
    as [[[]|e|] s']; try discriminate.
  apply Hc; [reflexivity|exact Hs].
Qed.

Lemma loop_settles (fuel : nat) (s : State) :
  fst (loop fuel s) = Ret tt -> noneExecuting (tasks s) ->
  noneExecuting (tasks (snd (loop fuel s))).
Proof.
  revert s. induction fuel as [|fuel IH]; intros s; [discriminate|].
  rewrite loop_S. unfold loopResult.
  pose proof (pass_settles _ _ (iteration_pass (entered s))) as Hp.
  destruct (iteration (entered s)) as [[[]|e|] s1]; cbn [fst snd] in *;
    try discriminate.
  - specialize (IH s1). destruct (loop fuel s1) as [r s2].
    cbn [fst snd] in *. intros Hr Hs. apply IH; [exact Hr|].
    apply Hp; [eexists; reflexivity|exact Hs].
  - intros _ Hs. apply Hp; [eexists; reflexivity|exact Hs].
Qed.

(** The start phase as far as the store goes. *)
Lemma run_start_store (fuel : nat) (s : State) :
  exists s0 vs,
    run fuel s = runResult (loop fuel s0) /\
    tasks s0 = enqueuedTasks (uuid s) vs (tasks s) /\
    uuid s0 = (uuid s + List.length vs)%nat /\
    completedTasks s0 = completedTasks s.
Proof.
  destruct (isRunning s) eqn:Hr.
  - exists s, []. rewrite Nat.add_0_r.
    split; [apply run_running; exact Hr|]. repeat split.
  - destruct (getInitialTasks api (clock (launched s))) as [vs|e] eqn:Hi.
    + exists (startSucceeded vs (launched s)), vs.
      split; [apply (run_starting fuel s _ Hr (startGoal_succeeded _ _ Hi))|].
      repeat split.
    + exists (startFailed e (launched s)), []. rewrite Nat.add_0_r.
      split; [apply (run_starting fuel s _ Hr (startGoal_failed _ _ Hi))|].
      repeat split.
Qed.

Lemma runResult_store (p : Outcome unit * State) :
  tasks (snd (runResult p)) = tasks (snd p) /\
  uuid (snd (runResult p)) = uuid (snd p) /\
  completedTasks (snd (runResult p)) = completedTasks (snd p).
Proof.
  destruct p as [[[]|e|] s']; simpl; auto.
  unfold notified.
  destruct (AgentMode_eqb (mode s') PAUSE_MODE && negb (isRunning s')); auto.
Qed.

(** X9.  A call of [run] that returns leaves no task in status
    [executing], if none was when it was called: every task that a pass
    announces as executing is announced as completed before the pass
    ends. *)
Theorem returned_run_leaves_none_executing (s : State) (fuel : nat) :
  noneExecuting (tasks s) ->
  fst (run fuel s) = Ret tt ->
  noneExecuting (tasks (snd (run fuel s))).
Proof.
  intros Hs.
  destruct (run_start_store fuel s) as (s0 & vs & -> & Ht & _).
  destruct (runResult_store (loop fuel s0)) as (-> & _).
  destruct (runResult_fields (loop fuel s0)) as (_ & _ & ->).
  intros Hr. apply loop_settles; [exact Hr|].
  rewrite Ht. apply enqueuedTasks_noneExecuting. exact Hs.
Qed.

(** ** The queue of waiting tasks *)

Lemma updateTaskStatus_ids (u : Task) (ts : list Task) :
  map taskId (updateTaskStatus u ts) = map taskId ts.
Proof.
  unfold updateTaskStatus. rewrite map_map. apply map_ext.
  intros y. destruct (Nat.eqb (taskId y) (taskId u)); reflexivity.
Qed.

Lemma updateTaskStatus_absent (u : Task) (ts : list Task) :
  ~ In (taskId u) (map taskId ts) -> updateTaskStatus u ts = ts.
Proof.
  intros H. unfold updateTaskStatus. rewrite <- (map_id ts) at 2.
  apply map_ext_in. intros y Hin.
  destruct (Nat.eqb_spec (taskId y) (taskId u)) as [Heq|]; [|reflexivity].
  destruct H. rewrite <- Heq. apply in_map. exact Hin.
Qed.

Lemma updateTaskStatus_at (u t : Task) (a b : list Task) :
  taskId t = taskId u ->
  ~ In (taskId u) (map taskId (a ++ b)) ->
  updateTaskStatus u (a ++ t :: b) = a ++ replaced u t :: b.
Proof.
  intros Hid Hno. rewrite map_app, in_app_iff in Hno.
  pose proof (updateTaskStatus_absent u a) as Ha.
  pose proof (updateTaskStatus_absent u b) as Hb.
  unfold updateTaskStatus in *. rewrite map_app. simpl.
  rewrite Ha, Hb by tauto.
  destruct (Nat.eqb_spec (taskId t) (taskId u)); [reflexivity|contradiction].
Qed.

Lemma numbered_ids (u : nat) (vs : list string) :
  map taskId (numbered u vs) = seq u (List.length vs).
Proof.
  revert u. induction vs as [|v vs IH]; intros u; [reflexivity|].
  simpl. rewrite IH. reflexivity.
Qed.

Lemma numbered_started (u : nat) (vs : list string) :
  filter (fun t => TaskStatus_eqb (status t) started) (numbered u vs) =
  numbered u vs.
Proof.
  revert u. induction vs as [|v vs IH]; intros u; [reflexivity|].
  simpl. rewrite IH. reflexivity.
Qed.

(** With every identifier of the store drawn already, enqueueing adds
    the new tasks at the end and touches nothing else. *)
Lemma enqueuedTasks_fresh (u : nat) (vs : list string) (ts : list Task) :
  (forall y, In y ts -> (taskId y < u)%nat) ->
  enqueuedTasks u vs ts = ts ++ numbered u vs.
Proof.
  revert u ts. induction vs as [|v vs IH]; intros u ts Hts; simpl.
  - rewrite app_nil_r. reflexivity.
  - unfold appendTask. cbn [status startedTask TaskStatus_eqb].
    rewrite updateTaskStatus_absent.
    + rewrite IH; [rewrite <- app_assoc; reflexivity|].
      intros y Hin. apply in_app_or in Hin as [Hin|[<-|[]]].
      * specialize (Hts y Hin). lia.
      * simpl. lia.
    + intros Hin. apply in_map_iff in Hin as [y [Hy Hin]].
      specialize (Hts y Hin). simpl in Hy. lia.
Qed.

Lemma filter_split {A} (p : A -> bool) (l : list A) (x : A) (r : list A) :
  filter p l = x :: r ->
  exists a b, l = a ++ x :: b /\ filter p a = [] /\ filter p b = r.
Proof.
  induction l as [|y l IH]; simpl; [discriminate|].
  destruct (p y) eqn:Hy.
  - intros H. injection H as -> Hr. exists [], l. auto.
  - intros H. destruct (IH H) as (a & b & -> & Ha & Hb).
    exists (y :: a), b. simpl. rewrite Hy. auto.
Qed.

Lemma wellNumbered_grows (s s' : State) (n : nat) :
  wellNumbered s ->
  map taskId (tasks s') = map taskId (tasks s) ++ seq (uuid s) n ->
  uuid s' = (uuid s + n)%nat ->
  wellNumbered s'.
Proof.
  intros [Hnd Hlt] Hids Hu.
  assert (Hold : forall i, In i (map taskId (tasks s)) -> (i < uuid s)%nat).
  { intros i Hin. apply in_map_iff in Hin as [y [<- Hin]]. auto. }
  split.
  - rewrite Hids. apply NoDup_app; [exact Hnd|apply seq_NoDup|].
    intros i Hin Hseq. apply in_seq in Hseq. specialize (Hold i Hin). lia.
  - intros y Hin. apply (in_map taskId) in Hin. rewrite Hids in Hin.
    apply in_app_or in Hin as [Hin|Hin].
    + specialize (Hold _ Hin). lia.
    + apply in_seq in Hin. lia.
Qed.

Lemma uuid_expanded (t : Task) (r : string) (vs : list string) (s : State) :
  uuid (expanded t r vs s) = (uuid s + List.length vs)%nat.
Proof. unfold expanded. destruct (Nat.eqb (List.length vs) 0); reflexivity. Qed.

Lemma trace_expanded (t : Task) (r : string) (vs : list string) (s : State) :
  exists d,
    trace (expanded t r vs s) =
    trace s ++ ECall (followUpCall t r s) :: d.
Proof.
  unfold expanded. destruct (Nat.eqb (List.length vs) 0).
  - exists (startedEvents (uuid s) vs ++ [EMsg (MTask (withStatus t final))]).
    simpl. rewrite <- !app_assoc. reflexivity.
  - exists (startedEvents (uuid s) vs).
    simpl. rewrite <- !app_assoc. reflexivity.
Qed.

Lemma trace_absorbed (t : Task) (r : string) (s : State) :
  exists d,
    trace (absorbed t r s) = trace s ++ ECall (followUpCall t r s) :: d.
Proof.
  eexists (hookEvents ++ [_; _]). simpl. rewrite <- !app_assoc. reflexivity.
Qed.

Lemma trace_executed (t : Task) (a : Analysis) (r : string) (s : State) :
  exists d, trace (executed t a r s) = trace s ++ d.
Proof.
  eexists [_; _; _; _; _; _; _; _]. simpl. rewrite <- !app_assoc.
  reflexivity.
Qed.

(** The store after a task cycle that returns: the task has been
    replaced where it stood, and the follow-ups stand at the end. *)
Lemma cycle_queue (t : Task) (s : State) (p : Outcome unit * State)
    (a b : list Task) :
  Cycle t s p -> fst p = Ret tt -> wellNumbered s ->
  tasks s = a ++ t :: b ->
  exists t' r vs d1 d2,
    tasks (snd p) = a ++ t' :: b ++ numbered (uuid s) vs /\
    taskId t' = taskId t /\ value t' = value t /\ status t' <> started /\
    uuid (snd p) = (uuid s + List.length vs)%nat /\
    completedTasks (snd p) = completedTasks s ++ [value t] /\
    trace (snd p) =
      trace s ++ d1 ++
      ECall (CAdditional (value t)
               (map value
                  (filter (fun t => TaskStatus_eqb (status t) started)
                     (a ++ b)))
               (completedTasks s ++ [value t]) r) :: d2 /\
    (getAdditionalTasks api (S (S (clock s))) (value t)
       (map value
          (filter (fun t => TaskStatus_eqb (status t) started) (a ++ b)))
       (completedTasks s ++ [value t]) r = Resolved vs \/
     vs = [] /\
     exists e,
       getAdditionalTasks api (S (S (clock s))) (value t)
         (map value
            (filter (fun t => TaskStatus_eqb (status t) started) (a ++ b)))
         (completedTasks s ++ [value t]) r = Rejected e).
Proof.
  intros Hc Hret [Hnd Hlt] Hts.
  assert (Hno : ~ In (taskId t) (map taskId (a ++ b))).
  { rewrite Hts, map_app in Hnd. simpl in Hnd.
    apply NoDup_remove_2 in Hnd. rewrite map_app. exact Hnd. }
  assert (Hex : forall a0 r,
            tasks (executed t a0 r s) =
            a ++ replaced (withResult t r completed)
                   (replaced (withStatus t executing) t) :: b).
  { intros a0 r. rewrite tasks_executed, Hts.
    rewrite (updateTaskStatus_at (withStatus t executing) t a b)
      by (auto; exact Hno).
    rewrite (updateTaskStatus_at (withResult t r completed)) by (auto; exact Hno).
    reflexivity. }
  assert (Hrem : forall a0 r,
            getRemainingTasks (executed t a0 r s) =
            filter (fun t => TaskStatus_eqb (status t) started) (a ++ b)).
  { intros a0 r. unfold getRemainingTasks. rewrite Hex, !filter_app.
    reflexivity. }
  assert (Hfin : forall r l,
            ~ In (taskId t) (map taskId l) ->
            storeAfter (MTask (withStatus t final))
              (a ++ replaced (withResult t r completed)
                      (replaced (withStatus t executing) t) :: b ++ l) =
            a ++ replaced (withStatus t final)
                   (replaced (withResult t r completed)
                      (replaced (withStatus t executing) t)) :: b ++ l).
  { intros r l Hl. unfold storeAfter, appendTask.
    cbn [status withStatus TaskStatus_eqb].
    apply updateTaskStatus_at; [reflexivity|].
    rewrite app_assoc, map_app, in_app_iff. cbn [taskId withStatus]. tauto. }
  assert (Hfresh : forall a0 r vs,
            enqueuedTasks (uuid s) vs (tasks (executed t a0 r s)) =
            tasks (executed t a0 r s) ++ numbered (uuid s) vs).
  { intros a0 r vs. apply enqueuedTasks_fresh. intros y Hin.
    rewrite Hex in Hin. apply in_app_or in Hin as [Hin|[<-|Hin]].
    - apply Hlt. rewrite Hts. apply in_or_app. auto.
    - simpl. apply Hlt. rewrite Hts. apply in_or_app. right. left. reflexivity.
    - apply Hlt. rewrite Hts. apply in_or_app. right. right. exact Hin. }
  destruct Hc as [e H|a0 e Ha H|a0 r e Ha Hr H|a0 r vs Ha Hr H];
    try discriminate; cbn [snd].
  - destruct (trace_absorbed t r (executed t a0 r s)) as [d2 Hd2].
    destruct (trace_executed t a0 r s) as [d1 Hd1].
    eexists _, r, [], d1, d2.
    rewrite tasks_absorbed, Hex.
    rewrite <- (app_nil_r b) at 1. rewrite (Hfin r []) by (simpl; tauto).
    rewrite Hd2, Hd1. unfold followUpCall. rewrite Hrem. rewrite Hrem in H.
    rewrite <- !app_assoc.
    split; [reflexivity|]. split; [reflexivity|]. split; [reflexivity|].
    split; [discriminate|]. split; [simpl; lia|].
    split; [reflexivity|]. split; [reflexivity|].
    right. split; [reflexivity|]. exists e. exact H.
  - destruct (trace_expanded t r vs (executed t a0 r s)) as [d2 Hd2].
    destruct (trace_executed t a0 r s) as [d1 Hd1].
    rewrite Hrem in H.
    assert (Hcall : followUpCall t r (executed t a0 r s) =
              CAdditional (value t)
                (map value
                   (filter (fun t => TaskStatus_eqb (status t) started)
                      (a ++ b)))
                (completedTasks s ++ [value t]) r).
    { unfold followUpCall. rewrite Hrem. reflexivity. }
    rewrite Hcall in Hd2.
    assert (Hdone : completedTasks (expanded t r vs (executed t a0 r s)) =
                    completedTasks s ++ [value t]).
    { unfold expanded. destruct (Nat.eqb (List.length vs) 0); reflexivity. }
    rewrite tasks_expanded, uuid_expanded, Hdone, Hd2, Hd1, <- !app_assoc.
    change (uuid (executed t a0 r s)) with (uuid s).
    rewrite Hfresh, Hex, <- app_assoc. cbn [app].
    destruct (Nat.eqb (List.length vs) 0).
    + eexists _, r, vs, d1, d2. rewrite Hfin.
      * split; [reflexivity|]. split; [reflexivity|]. split; [reflexivity|].
        split; [discriminate|]. auto.
      * rewrite numbered_ids. intros Hin. apply in_seq in Hin.
        assert (taskId t < uuid s)%nat; [|lia].
        apply Hlt. rewrite Hts. apply in_or_app. right. left. reflexivity.
    + eexists _, r, vs, d1, d2.
      split; [reflexivity|]. split; [reflexivity|]. split; [reflexivity|].
      split; [discriminate|]. auto.
Qed.

Lemma cycle_wellNumbered (t : Task) (s s' : State) (a b : list Task)
    (t' : Task) (vs : list string) :
  wellNumbered s -> tasks s = a ++ t :: b ->
  tasks s' = a ++ t' :: b ++ numbered (uuid s) vs ->
  taskId t' = taskId t ->
  uuid s' = (uuid s + List.length vs)%nat ->
  wellNumbered s'.
Proof.
  intros Hw Hts Hts' Hid Hu.
  apply (wellNumbered_grows s s' (List.length vs) Hw); [|exact Hu].
  rewrite Hts', Hts, !map_app. simpl. rewrite !map_app, numbered_ids, Hid.
  rewrite <- !app_assoc. reflexivity.
Qed.

Lemma pass_queue (s : State) (p : Outcome bool * State) (t : Task)
    (rest a b : list Task) :
  Pass s p -> fst p = Ret true -> wellNumbered s ->
  getRemainingTasks s = t :: rest ->
  tasks s = a ++ t :: b ->
  filter (fun t => TaskStatus_eqb (status t) started) a = [] ->
  filter (fun t => TaskStatus_eqb (status t) started) b = rest ->
  exists t' r vs d1 d2,
    tasks (snd p) = a ++ t' :: b ++ numbered (uuid s) vs /\
    taskId t' = taskId t /\ value t' = value t /\ status t' <> started /\
    uuid (snd p) = (uuid s + List.length vs)%nat /\
    completedTasks (snd p) = completedTasks s ++ [value t] /\
    trace (snd p) =
      trace s ++ d1 ++
      ECall (CAdditional (value t) (map value rest)
               (completedTasks s ++ [value t]) r) :: d2 /\
    getRemainingTasks (snd p) = rest ++ numbered (uuid s) vs /\
    wellNumbered (snd p) /\
    (getAdditionalTasks api (S (S (clock s))) (value t) (map value rest)
       (completedTasks s ++ [value t]) r = Resolved vs \/
     vs = [] /\
     exists e,
       getAdditionalTasks api (S (S (clock s))) (value t) (map value rest)
         (completedTasks s ++ [value t]) r = Rejected e).
Proof.
  intros [H|H Hr|t0 rest0 H Hr Hl|t0 rest0 H Hr Hl] Hret Hw Hrem Hts Ha Hb;
    try discriminate.
  assert (t0 = t) by congruence. subst t0.
  pose proof (taskCycle_cases t (emitted (EDelay TIMEOUT_LONG) (counted s)))
    as Hc.
  assert (Hret' : fst (taskCycleResult t
                         (emitted (EDelay TIMEOUT_LONG) (counted s))) = Ret tt).
  { destruct (taskCycleResult t (emitted (EDelay TIMEOUT_LONG) (counted s)))
      as [[[]|e|] s']; try discriminate; reflexivity. }
  destruct (cycle_queue t _ _ a b Hc Hret' Hw Hts)
    as (t' & r & vs & d1 & d2 & T & I & V & St & U & C & Tr & Rep).
  rewrite filter_app, Ha, Hb in Tr, Rep. cbn [app] in Tr, Rep.
  exists t', r, vs, (EDelay TIMEOUT_LONG :: d1), d2.
  rewrite continued_snd.
  do 6 (split; [assumption|]).
  split; [rewrite Tr; simpl; rewrite <- app_assoc; reflexivity|].
  split; [|split; [|exact Rep]].
  - unfold getRemainingTasks. rewrite T, filter_app. simpl.
    rewrite filter_app, numbered_started, Ha, Hb.
    destruct (TaskStatus_eqb (status t') started) eqn:E; [|reflexivity].
    apply TaskStatus_eqb_eq in E. contradiction.
  - apply (cycle_wellNumbered t s _ a b t' vs); assumption.
Qed.

(** X10.  The waiting tasks form a queue.  When the identifiers in the
    store are distinct, a pass that goes on to the next takes the first
    waiting task, tells the reasoning service, in its request for
    follow-ups, the values of the other waiting tasks in their order and
    the completed list with the task just done at its end, and leaves
    waiting those other tasks in their order, followed by the follow-ups
    in the order of the reply (none when the request failed), under fresh
    consecutive identifiers. *)
Theorem follow_ups_join_the_queue (s : State) (t : Task) (rest : list Task) :
  wellNumbered s ->
  getRemainingTasks s = t :: rest ->
  fst (iteration s) = Ret true ->
  exists r vs,
    In (ECall (CAdditional (value t) (map value rest)
                 (completedTasks s ++ [value t]) r))
       (newEvents s (snd (iteration s))) /\
    (getAdditionalTasks api (S (S (clock s))) (value t) (map value rest)
       (completedTasks s ++ [value t]) r = Resolved vs \/
     vs = [] /\
     exists e,
       getAdditionalTasks api (S (S (clock s))) (value t) (map value rest)
         (completedTasks s ++ [value t]) r = Rejected e) /\
    getRemainingTasks (snd (iteration s)) = rest ++ numbered (uuid s) vs /\
    uuid (snd (iteration s)) = (uuid s + List.length vs)%nat /\
    wellNumbered (snd (iteration s)).
Proof.
  intros Hw Hrem Hret.
  destruct (filter_split _ _ _ _ Hrem) as (a & b & Hts & Ha & Hb).
  destruct (pass_queue s _ t rest a b (iteration_pass s) Hret Hw Hrem Hts
              Ha Hb)
    as (t' & r & vs & d1 & d2 & T & I & V & St & U & C & Tr & Q & W & Rep).
  exists r, vs. split; [|auto].
  rewrite (newEvents_app s _ _ Tr). apply in_or_app. right. left.
  reflexivity.
Qed.

(** ** The order in which tasks are carried out *)

Lemma same_store (s s' : State) :
  tasks s' = tasks s -> uuid s' = uuid s ->
  completedTasks s' = completedTasks s ->
  wellNumbered s /\ inOrder s -> wellNumbered s' /\ inOrder s'.
Proof.
  unfold wellNumbered, inOrder, getRemainingTasks.
  intros -> -> ->. auto.
Qed.

Lemma filter_none {A} (p : A -> bool) (l : list A) :
  (forall y, In y l -> p y = false) -> filter p l = [].
Proof.
  induction l as [|y l IH]; [reflexivity|]. intros H. simpl.
  rewrite (H y (or_introl eq_refl)). apply IH. intros z Hz. apply H.
  right. exact Hz.
Qed.

Lemma done_not_waiting (done : list Task) :
  (forall y, In y done -> status y <> started) ->
  filter (fun t => TaskStatus_eqb (status t) started) done = [].
Proof.
  intros H. apply filter_none. intros y Hy.
  destruct (TaskStatus_eqb (status y) started) eqn:E; [|reflexivity].
  apply TaskStatus_eqb_eq in E. destruct (H y Hy E).
Qed.

Lemma enqueued_in_order (s s' : State) (vs : list string) :
  tasks s' = enqueuedTasks (uuid s) vs (tasks s) ->
  uuid s' = (uuid s + List.length vs)%nat ->
  completedTasks s' = completedTasks s ->
  wellNumbered s /\ inOrder s -> wellNumbered s' /\ inOrder s'.
Proof.
  intros Ht Hu Hc [Hw (done & Hts & Hdone & Hcompleted)].
  rewrite (enqueuedTasks_fresh _ _ _ (proj2 Hw)) in Ht. split.
  - apply (wellNumbered_grows s s' (List.length vs) Hw); [|exact Hu].
    rewrite Ht, map_app, numbered_ids. reflexivity.
  - exists done. unfold getRemainingTasks in *.
    rewrite Ht, filter_app, numbered_started, app_assoc, <- Hts.
    split; [reflexivity|]. split; [exact Hdone|]. congruence.
Qed.

Lemma pass_in_order (s : State) (p : Outcome bool * State) :
  Pass s p -> (exists b, fst p = Ret b) ->
  wellNumbered s /\ inOrder s -> wellNumbered (snd p) /\ inOrder (snd p).
Proof.
  intros Hp [[|] Hb] [Hw Ho].
  - destruct (pass_continues _ _ Hp Hb)
      as (_ & _ & _ & _ & _ & t & rest & Hrem & _).
    destruct Ho as (done & Hts & Hdone & Hcompleted).
    rewrite Hrem in Hts.
    assert (Hd : filter (fun t => TaskStatus_eqb (status t) started) done
                 = []) by (apply done_not_waiting; exact Hdone).
    assert (Hr : filter (fun t => TaskStatus_eqb (status t) started) rest
                 = rest).
    { pose proof Hrem as Hf. unfold getRemainingTasks in Hf.
      rewrite Hts, filter_app, Hd in Hf. simpl in Hf.
      destruct (TaskStatus_eqb (status t) started); [congruence|].
      assert (Hlen : List.length
                       (filter (fun t => TaskStatus_eqb (status t) started)
                          rest) = S (List.length rest)) by (rewrite Hf; auto).
      pose proof (filter_length_le
                    (fun t => TaskStatus_eqb (status t) started) rest).
      lia. }
    destruct (pass_queue s p t rest done rest Hp Hb Hw Hrem Hts Hd Hr)
      as (t' & r & vs & d1 & d2 & T & I & V & St & U & C & Tr & Q & W & _).
    split; [exact W|].
    exists (done ++ [t']).
    split; [rewrite Q, T, <- app_assoc; reflexivity|]. split.
    + intros y Hy. apply in_app_or in Hy as [Hy|[<-|[]]]; auto.
    + rewrite C, map_app. simpl. rewrite V, Hcompleted. reflexivity.
  - destruct (pass_stops _ _ Hp Hb) as (Hc & Ht & _).
    apply (same_store s); auto.
    destruct Hp as [H|H Hr|t rest H Hr Hl|t rest H Hr Hl]; try reflexivity.
    pose proof (cycle_completed t _ _
                  (taskCycle_cases t
                     (emitted (EDelay TIMEOUT_LONG) (counted s))))
      as [Hfuel _].
    destruct (taskCycleResult t (emitted (EDelay TIMEOUT_LONG) (counted s)))
      as [[[]|e|] s']; simpl in *; congruence.
Qed.

Lemma loop_in_order (fuel : nat) (s : State) :
  fst (loop fuel s) = Ret tt ->
  wellNumbered s /\ inOrder s ->
  wellNumbered (snd (loop fuel s)) /\ inOrder (snd (loop fuel s)).
Proof.
  revert s. induction fuel as [|fuel IH]; intros s; [discriminate|].
  rewrite loop_S. unfold loopResult.
  pose proof (pass_in_order _ _ (iteration_pass (entered s))) as Hp.
  destruct (iteration (entered s)) as [[[]|e|] s1]; cbn [fst snd] in *;
    try discriminate.
  - specialize (IH s1). destruct (loop fuel s1) as [r s2].
    cbn [fst snd] in *. intros Hr Hs.
    apply (same_store s2); try reflexivity.
    apply IH; [exact Hr|]. apply Hp; [eexists; reflexivity|].
    apply (same_store s); try reflexivity. exact Hs.
  - intros _ Hs. apply (same_store s1); try reflexivity.
    apply Hp; [eexists; reflexivity|].
    apply (same_store s); try reflexivity. exact Hs.
Qed.

(** X11.  Tasks are carried out in the order in which they were
    enqueued.  Take a store with distinct identifiers that lists the
    tasks carried out, in the order of the completed list, before the
    tasks that wait (an empty store and an empty completed list, to begin
    with).  After a call of [run] that returns, the store is again of
    that form: the completed list names, in store order, exactly the
    tasks that no longer wait, and every waiting task stands behind
    them. *)
Theorem tasks_done_in_the_order_enqueued (s : State) (fuel : nat) :
  wellNumbered s -> inOrder s ->
  fst (run fuel s) = Ret tt ->
  wellNumbered (snd (run fuel s)) /\ inOrder (snd (run fuel s)).
Proof.
  intros Hw Ho.
  destruct (run_start_store fuel s) as (s0 & vs & -> & Ht & Hu & Hc).
  destruct (runResult_store (loop fuel s0)) as (Ht' & Hu' & Hc').
  destruct (runResult_fields (loop fuel s0)) as (_ & _ & ->).
  intros Hr. apply (same_store (snd (loop fuel s0))); try assumption.
  apply loop_in_order; [exact Hr|].
  apply (enqueued_in_order s s0 vs); auto.
Qed.

(** ** The playback flag in automatic mode *)

Lemma selected_flag (pc : AgentPlaybackControl) (t : Task) (s : State) :
  selected t (set_playbackControl pc s) = set_playbackControl pc (selected t s).
Proof. reflexivity. Qed.

Lemma analysed_flag (pc : AgentPlaybackControl) (t : Task) (a : Analysis)
    (s : State) :
  analysed t a (set_playbackControl pc s) =
  set_playbackControl pc (analysed t a s).
Proof. reflexivity. Qed.

Lemma executed_flag (pc : AgentPlaybackControl) (t : Task) (a : Analysis)
    (r : string) (s : State) :
  executed t a r (set_playbackControl pc s) =
  set_playbackControl pc (executed t a r s).
Proof. reflexivity. Qed.

Lemma failed_flag (pc : AgentPlaybackControl) (c : ApiCall) (s : State) :
  failed c (set_playbackControl pc s) = set_playbackControl pc (failed c s).
Proof. reflexivity. Qed.

Lemma absorbed_flag (pc : AgentPlaybackControl) (t : Task) (r : string)
    (s : State) :
  absorbed t r (set_playbackControl pc s) =
  set_playbackControl pc (absorbed t r s).
Proof. reflexivity. Qed.

Lemma expanded_flag (pc : AgentPlaybackControl) (t : Task) (r : string)
    (vs : list string) (s : State) :
  expanded t r vs (set_playbackControl pc s) =
  set_playbackControl pc (expanded t r vs s).
Proof. unfold expanded. destruct (Nat.eqb (List.length vs) 0); reflexivity. Qed.

Lemma flag_unread (pc : AgentPlaybackControl) (s : State) :
  clock (set_playbackControl pc s) = clock s /\
  getRemainingTasks (set_playbackControl pc s) = getRemainingTasks s /\
  completedTasks (set_playbackControl pc s) = completedTasks s.
Proof. repeat split. Qed.

(** A task cycle never reads the playback flag. *)
Lemma taskCycleResult_flag (pc : AgentPlaybackControl) (t : Task)
    (s : State) :
  taskCycleResult t (set_playbackControl pc s) =
  flagged pc (taskCycleResult t s).
Proof.
  unfold taskCycleResult, flagged. cbv zeta.
  rewrite selected_flag.
  destruct (flag_unread pc (selected t s)) as (-> & _).
  destruct (analyzeTask api (clock (selected t s)) (value t)) as [a|e];
    [|rewrite failed_flag; reflexivity].
  rewrite analysed_flag.
  destruct (flag_unread pc (analysed t a s)) as (-> & _).
  destruct (executeTask api (clock (analysed t a s)) (value t) a) as [r|e];
    [|rewrite failed_flag; reflexivity].
  rewrite executed_flag.
  destruct (flag_unread pc (executed t a r s)) as (-> & -> & ->).
  destruct (getAdditionalTasks api (clock (executed t a r s)) (value t)
              (map value (getRemainingTasks (executed t a r s)))
              (completedTasks (executed t a r s)) r) as [vs|e].
  - rewrite expanded_flag. reflexivity.
  - rewrite absorbed_flag. reflexivity.
Qed.

(** In automatic mode a pass never reads the playback flag. *)
Lemma iteration_flag (pc : AgentPlaybackControl) (s : State) :
  mode s = AUTOMATIC_MODE ->
  iteration (set_playbackControl pc s) =
  (fst (iteration s), set_playbackControl pc (snd (iteration s))).
Proof.
  intros Hm. rewrite !iteration_eq.
  assert (Ha : admits (set_playbackControl pc s) = admits s).
  { unfold admits. simpl. rewrite Hm. reflexivity. }
  assert (Had : admitted (set_playbackControl pc s) =
                set_playbackControl pc (admitted s)).
  { unfold admitted. rewrite Ha. simpl. rewrite Hm. reflexivity. }
  assert (Hc : counted (set_playbackControl pc s) =
               set_playbackControl pc (counted s)).
  { unfold counted. rewrite Had. reflexivity. }
  unfold iterationResult. rewrite Ha, Had, Hc.
  destruct (admits s); cbv beta iota delta [negb]; [|reflexivity].
  change (getRemainingTasks (set_playbackControl pc (admitted s)))
    with (getRemainingTasks (admitted s)).
  destruct (getRemainingTasks (admitted s)) as [|t rest]; [reflexivity|].
  change (maxLoops (set_playbackControl pc (counted s)))
    with (maxLoops (counted s)).
  change (numLoops (set_playbackControl pc (counted s)))
    with (numLoops (counted s)).
  destruct (Z.ltb (maxLoops (counted s)) (numLoops (counted s)));
    [reflexivity|].
  change (emitted (EDelay TIMEOUT_LONG) (set_playbackControl pc (counted s)))
    with (set_playbackControl pc (emitted (EDelay TIMEOUT_LONG) (counted s))).
  rewrite taskCycleResult_flag. unfold flagged.
  destruct (taskCycleResult t (emitted (EDelay TIMEOUT_LONG) (counted s)))
    as [[[]|e|] s']; reflexivity.
Qed.

Lemma loop_flag (pc : AgentPlaybackControl) (fuel : nat) (s : State) :
  mode s = AUTOMATIC_MODE ->
  loop fuel (set_playbackControl pc s) = flagged pc (loop fuel s).
Proof.
  revert s. induction fuel as [|fuel IH]; intros s Hm; [reflexivity|].
  rewrite !loop_S. unfold loopResult.
  change (entered (set_playbackControl pc s))
    with (set_playbackControl pc (entered s)).
  rewrite (iteration_flag pc (entered s)) by exact Hm.
  pose proof (pass_settings _ _ (iteration_pass (entered s))) as (_ & Hm1 & _).
  destruct (iteration (entered s)) as [[[]|e|] s1]; cbn [fst snd] in *;
    try reflexivity.
  rewrite IH by (rewrite Hm1; exact Hm).
  destruct (loop fuel s1) as [r s2]. reflexivity.
Qed.

Lemma runResult_automatic (p : Outcome unit * State) :
  mode (snd p) = AUTOMATIC_MODE -> runResult p = p.
Proof.
  destruct p as [[[]|e|] s']; simpl; try reflexivity.
  intros Hm. unfold notified. rewrite Hm. reflexivity.
Qed.

Lemma loop_playback_automatic (fuel : nat) (s : State) :
  mode s = AUTOMATIC_MODE ->
  playbackControl (snd (loop fuel s)) = playbackControl s.
Proof.
  intros Hm.
  assert (H : mode (snd (loop fuel s)) = mode s /\
              (mode s = AUTOMATIC_MODE ->
               playbackControl (snd (loop fuel s)) = playbackControl s)).
  { apply (loop_relates
             (fun a b => mode b = mode a /\
                         (mode a = AUTOMATIC_MODE ->
                          playbackControl b = playbackControl a))).
    - auto.
    - intros a b c [M1 P1] [M2 P2]. split; [congruence|].
      intros Ha. rewrite P2, P1; congruence.
    - intros a. simpl. auto.
    - intros a. simpl. auto.
    - intros a p Hp. destruct (pass_settings _ _ Hp) as (_ & Hma & _).
      destruct (pass_flags _ _ Hp) as (Hpc & _).
      split; [exact Hma|]. intros Ha. rewrite Hpc. simpl. rewrite Ha.
      reflexivity. }
  apply H. exact Hm.
Qed.

(** X12.  In automatic mode the playback flag is dead: [run] does the
    same with either value of the flag, whatever the reasoning service
    answers, and it never changes the flag.  So [updatePlayBackControl]
    has an effect in pause mode only. *)
Theorem automatic_mode_ignores_playback (s : State) (fuel : nat)
    (pc : AgentPlaybackControl) :
  mode s = AUTOMATIC_MODE ->
  run fuel (snd (updatePlayBackControl pc s)) =
    flagged pc (run fuel s) /\
  playbackControl (snd (run fuel s)) = playbackControl s.
Proof.
  intros Hm.
  change (snd (updatePlayBackControl pc s)) with (set_playbackControl pc s).
  assert (Hauto : forall s0, mode s0 = AUTOMATIC_MODE ->
            runResult (loop fuel s0) = loop fuel s0).
  { intros s0 H0. apply runResult_automatic.
    destruct (loop_keeps_running fuel s0) as [-> _]. exact H0. }
  destruct (isRunning s) eqn:Hr.
  - rewrite (run_running fuel s Hr),
      (run_running fuel (set_playbackControl pc s) Hr).
    rewrite !Hauto by exact Hm.
    split; [apply loop_flag; exact Hm|].
    apply loop_playback_automatic. exact Hm.
  - change (isRunning s) with (isRunning (set_playbackControl pc s)) in Hr.
    destruct (getInitialTasks api (clock (launched s))) as [vs|e] eqn:Hi.
    + rewrite (run_starting fuel _ _ Hr
                 (startGoal_succeeded (launched (set_playbackControl pc s))
                    vs Hi)).
      rewrite (run_starting fuel s _ Hr (startGoal_succeeded _ _ Hi)).
      rewrite !Hauto by exact Hm.
      split; [apply (loop_flag pc fuel (startSucceeded vs (launched s)));
              exact Hm|].
      apply (loop_playback_automatic fuel (startSucceeded vs (launched s))).
      exact Hm.
    + rewrite (run_starting fuel _ _ Hr
                 (startGoal_failed (launched (set_playbackControl pc s))
                    e Hi)).
      rewrite (run_starting fuel s _ Hr (startGoal_failed _ _ Hi)).
      rewrite !Hauto by exact Hm.
      split; [apply (loop_flag pc fuel (startFailed e (launched s)));
              exact Hm|].
      apply (loop_playback_automatic fuel (startFailed e (launched s))).
      exact Hm.
Qed.

(** ** The start phase when the initial tasks arrive *)

Lemma messages_startedEvents (u : nat) (vs : list string) :
  messages (startedEvents u vs) = map MTask (numbered u vs).
Proof.
  revert u. induction vs as [|v vs IH]; intros u; [reflexivity|].
  simpl. rewrite IH. reflexivity.
Qed.

(** X13.  When the initial tasks arrive, the start phase announces the
    goal, then enqueues the tasks in the order of the reply, one message
    each, with status [started] and fresh consecutive identifiers, after
    a short delay before each; on a store with distinct identifiers they
    join the end of the store and of the waiting tasks.  It makes one
    request, sends no error message and does not shut down. *)
Theorem start_enqueues_in_reply_order (s : State) (vs : list string) :
  wellNumbered s ->
  getInitialTasks api (clock s) = Resolved vs ->
  fst ((updateIsRunning true ;; startGoal) s) = Ret tt /\
  newEvents s (snd ((updateIsRunning true ;; startGoal) s)) =
    [EMsg (MGoal (goal s)); EMsg MThinking; ECall CInitial]
    ++ startedEvents (uuid s) vs /\
  messages (newEvents s (snd ((updateIsRunning true ;; startGoal) s))) =
    MGoal (goal s) :: MThinking :: map MTask (numbered (uuid s) vs) /\
  tasks (snd ((updateIsRunning true ;; startGoal) s)) =
    tasks s ++ numbered (uuid s) vs /\
  getRemainingTasks (snd ((updateIsRunning true ;; startGoal) s)) =
    getRemainingTasks s ++ numbered (uuid s) vs /\
  isRunning (snd ((updateIsRunning true ;; startGoal) s)) = true /\
  wellNumbered (snd ((updateIsRunning true ;; startGoal) s)).
Proof.
  intros Hw Hi.
  assert (Hstart : (updateIsRunning true ;; startGoal) s =
                   (Ret tt, startSucceeded vs (launched s))).
  { unfold updateIsRunning, setIsRunning, bind, modify. cbv beta iota.
    apply (startGoal_succeeded (launched s)). exact Hi. }
  assert (Hev : newEvents s (startSucceeded vs (launched s)) =
                [EMsg (MGoal (goal s)); EMsg MThinking; ECall CInitial]
                ++ startedEvents (uuid s) vs).
  { apply newEvents_app. flatten_trace. reflexivity. }
  assert (Ht : tasks (startSucceeded vs (launched s)) =
               tasks s ++ numbered (uuid s) vs).
  { apply (enqueuedTasks_fresh (uuid s) vs (tasks s)). apply Hw. }
  rewrite Hstart. cbn [fst snd]. rewrite Hev, Ht.
  split; [reflexivity|]. split; [reflexivity|].
  split; [simpl; rewrite messages_startedEvents; reflexivity|].
  split; [reflexivity|]. split; [|split; [reflexivity|]].
  - unfold getRemainingTasks. rewrite Ht, filter_app, numbered_started.
    reflexivity.
  - apply (wellNumbered_grows s _ (List.length vs) Hw); [|reflexivity].
    rewrite Ht, map_app, numbered_ids. reflexivity.
Qed.

(** ** Resuming a paused agent *)

(** X14.  One resume, one task.  In pause mode, [handleContinue] on an
    agent with a task waiting and budget left starts nothing anew and
    selects exactly one task, whatever the playback flag and [isRunning]
    were.  When the call returns, that task has been completed, the agent
    is paused again, and the last thing it did was to tell its owner
    so. *)
Theorem resume_carries_out_one_task (s : State) (t : Task)
    (rest : list Task) (fuel : nat) :
  mode s = PAUSE_MODE ->
  getRemainingTasks s = t :: rest ->
  numLoops s + 1 <= maxLoops s ->
  count isSelection (newEvents s (snd (handleContinue (S (S fuel)) s)))
    = 1%nat /\
  count isInitialCall (newEvents s (snd (handleContinue (S (S fuel)) s)))
    = 0%nat /\
  numLoops (snd (handleContinue (S (S fuel)) s)) = numLoops s + 1 /\
  (fst (handleContinue (S (S fuel)) s) = Ret tt ->
   completedTasks (snd (handleContinue (S (S fuel)) s)) =
     completedTasks s ++ [value t] /\
   isRunning (snd (handleContinue (S (S fuel)) s)) = false /\
   playbackControl (snd (handleContinue (S (S fuel)) s)) = AGENT_PAUSE /\
   exists d,
     newEvents s (snd (handleContinue (S (S fuel)) s)) =
     d ++ [EHandlePause AGENT_PAUSE]).
Proof.
  intros Hm Hrem Hle.
  set (s0 := launched (set_playbackControl AGENT_PLAY s)).
  assert (Hc : handleContinue (S (S fuel)) s = run (S (S fuel)) s0)
    by reflexivity.
  rewrite Hc, (run_running (S (S fuel)) s0 eq_refl), loop_S.
  unfold loopResult.
  assert (Ha : admits (entered s0) = true).
  { unfold admits. simpl. rewrite Hm. reflexivity. }
  pose proof (iteration_pass (entered s0)) as Hp.
  pose proof (pass_within_budget (entered s0) _ t rest Hp Ha Hrem Hle)
    as [Hn Hone].
  pose proof (pass_flags _ _ Hp) as (Hflag & Hrun & _).
  pose proof (pass_settings _ _ Hp) as (_ & Hm1 & _).
  pose proof (pass_trace _ _ Hp) as (d & Ht & Hd & _).
  rewrite (newEvents_app (entered s0) _ d Ht) in Hone.
  destruct (loopEvent_not_start d Hd) as [Hinit _].
  simpl in Hflag, Hm1, Hn. rewrite Hm in Hflag, Hm1.
  destruct (iteration (entered s0)) as [[[]|e|] s1] eqn:Hit;
    cbn [fst snd] in *.
  - assert (Ha1 : admits s1 = false).
    { unfold admits. rewrite Hm1, Hflag. reflexivity. }
    rewrite (loop_suspends fuel s1 Ha1). cbn [runResult fst snd].
    assert (Hnote : notified (exited (exited (admitted (entered s1)))) =
                    emitted (EHandlePause AGENT_PAUSE)
                      (exited (exited (admitted (entered s1))))).
    { unfold notified.
      cbn [mode isRunning playbackControl exited admitted entered
           set_frames].
      change (admits (entered s1)) with (admits s1).
      rewrite Hm1, Ha1. reflexivity. }
    rewrite Hnote.
    assert (Hev : newEvents s
                    (emitted (EHandlePause AGENT_PAUSE)
                       (exited (exited (admitted (entered s1))))) =
                  d ++ [EHandlePause AGENT_PAUSE]).
    { apply newEvents_app. simpl. rewrite Ht. simpl.
      rewrite <- app_assoc. reflexivity. }
    rewrite Hev, !count_app, Hone, Hinit.
    split; [reflexivity|]. split; [reflexivity|]. split; [exact Hn|].
    intros _.
    pose proof (pass_continues _ _ Hp eq_refl)
      as (_ & _ & _ & _ & _ & t0 & rest0 & Hr0 & Hdone & _).
    cbn [fst snd] in *.
    change (getRemainingTasks (entered s0)) with (getRemainingTasks s) in Hr0.
    assert (t0 = t) by congruence. subst t0.
    split; [exact Hdone|]. split; [exact Ha1|].
    split; [simpl; rewrite Hm1; reflexivity|].
    exists d. reflexivity.
  - pose proof (pass_stops _ _ Hp eq_refl) as (_ & _ & _ & Hzero & _).
    cbn [snd] in Hzero.
    rewrite (newEvents_app (entered s0) _ d Ht) in Hzero. congruence.
  - cbn [runResult fst snd].
    rewrite (newEvents_app s (exited s1) d) by exact Ht.
    rewrite Hone, Hinit.
    split; [reflexivity|]. split; [reflexivity|]. split; [exact Hn|].
    discriminate.
  - destruct (pass_returns _ _ Hp). reflexivity.
Qed.

(** ** What a run never touches *)

(** X15.  [run] never changes the goal, the mode or the loop budget, and
    never lowers the loop counter or rewrites what has happened: the
    events before the call are a prefix of the events after it.  The
    message service is told that the agent runs exactly when the call
    starts the goal. *)
Theorem run_keeps_settings (s : State) (fuel : nat) :
  goal (snd (run fuel s)) = goal s /\
  mode (snd (run fuel s)) = mode s /\
  customMaxLoops (snd (run fuel s)) = customMaxLoops s /\
  maxLoops (snd (run fuel s)) = maxLoops s /\
  numLoops s <= numLoops (snd (run fuel s)) /\
  serviceRunning (snd (run fuel s)) =
    (serviceRunning s || negb (isRunning s)) /\
  exists d, trace (snd (run fuel s)) = trace s ++ d.
Proof.
  assert (Hloop : forall s0, keepsSettings s0 (snd (loop fuel s0))).
  { intros s0. apply loop_relates; unfold keepsSettings.
    - intros a. repeat split. lia.
    - intros a b c (G1 & M1 & C1 & S1 & N1) (G2 & M2 & C2 & S2 & N2).
      repeat split; try congruence. lia.
    - intros a. simpl. repeat split. lia.
    - intros a. simpl. repeat split. lia.
    - intros a p Hp. destruct (pass_settings _ _ Hp) as (G & M & C & S1 & _).
      destruct (pass_flags _ _ Hp) as (_ & _ & N).
      repeat split; try assumption. lia. }
  assert (Hstart : exists s0,
            run fuel s = runResult (loop fuel s0) /\
            keepsSettings (set_serviceRunning
                             (serviceRunning s || negb (isRunning s)) s) s0 /\
            exists d, trace s0 = trace s ++ d).
  { destruct (run_start fuel s) as (s0 & d0 & Hrun & T0 & _).
    destruct (isRunning s) eqn:Hr.
    - exists s. split; [apply run_running; exact Hr|]. split.
      + unfold keepsSettings. simpl. rewrite orb_false_r.
        repeat split. lia.
      + exists []. rewrite app_nil_r. reflexivity.
    - destruct (getInitialTasks api (clock (launched s))) as [vs|e] eqn:Hi.
      + exists (startSucceeded vs (launched s)).
        split;
          [apply (run_starting fuel s _ Hr (startGoal_succeeded _ _ Hi))|].
        split.
        * unfold keepsSettings. simpl. rewrite orb_true_r.
          repeat split. lia.
        * eexists. flatten_trace. reflexivity.
      + exists (startFailed e (launched s)).
        split; [apply (run_starting fuel s _ Hr (startGoal_failed _ _ Hi))|].
        split.
        * unfold keepsSettings. simpl. rewrite orb_true_r.
          repeat split. lia.
        * eexists. flatten_trace. reflexivity. }
  destruct Hstart as (s0 & -> & (G0 & M0 & C0 & S0 & N0) & d0 & T0).
  destruct (Hloop s0) as (G1 & M1 & C1 & S1 & N1).
  destruct (loop_events fuel s0) as (d1 & T1 & _).
  destruct (run_end (loop fuel s0)) as (d2 & T2 & _).
  assert (Hkeep : keepsSettings (snd (loop fuel s0))
                    (snd (runResult (loop fuel s0)))).
  { unfold keepsSettings.
    destruct (loop fuel s0) as [[[]|e|] s1]; simpl;
      try (repeat split; lia).
    unfold notified.
    destruct (AgentMode_eqb (mode s1) PAUSE_MODE && negb (isRunning s1));
      simpl; repeat split; lia. }
  destruct Hkeep as (G2 & M2 & C2 & S2 & N2). simpl in G0, M0, C0, S0, N0.
  split; [congruence|]. split; [congruence|].
  split; [congruence|].
  split; [apply maxLoops_settings; congruence|].
  split; [lia|]. split; [congruence|].
  exists (d0 ++ d1 ++ d2). rewrite T2, T1, T0, <- !app_assoc. reflexivity.
Qed.

(** ** Pacing *)

Lemma totalDelay_app (a b : list Event) :
  totalDelay (a ++ b) = totalDelay a + totalDelay b.
Proof.
  induction a as [|e a IH]; simpl; [reflexivity|].
  destruct e; rewrite IH; lia.
Qed.

Lemma paced_app (a b : list Event) : paced a -> paced b -> paced (a ++ b).
Proof.
  unfold paced. intros Ha Hb.
  rewrite totalDelay_app, !count_app, Ha, Hb. lia.
Qed.

Lemma paced_nil : paced [].
Proof. reflexivity. Qed.

Lemma startedEvents_paced (u : nat) (vs : list string) :
  paced (startedEvents u vs).
Proof.
  revert u. induction vs as [|v vs IH]; intros u; [reflexivity|].
  change (startedEvents u (v :: vs))
    with ([EDelay TIMOUT_SHORT; EMsg (MTask (startedTask u v))]
          ++ startedEvents (S u) vs).
  apply paced_app; [reflexivity|apply IH].
Qed.

Lemma hookEvents_paced : paced hookEvents.
Proof. unfold hookEvents. destruct (hooked api); reflexivity. Qed.

Lemma cycle_paced (t : Task) (s : State) (p : Outcome unit * State) :
  Cycle t s p ->
  exists d, trace (snd p) = trace s ++ d /\ paced (EDelay TIMEOUT_LONG :: d).
Proof.
  intros [e H|a e Ha H|a r e Ha Hr H|a r vs Ha Hr H]; simpl snd.
  - exists ([EMsg (MTask (withStatus t executing)); EMsg MThinking;
             ECall (CAnalyze (value t))] ++ hookEvents).
    split; [flatten_trace; reflexivity|].
    apply (paced_app [_; _; _; _]); [reflexivity|apply hookEvents_paced].
  - exists ([EMsg (MTask (withStatus t executing)); EMsg MThinking;
             ECall (CAnalyze (value t)); EMsg (MAnalysis a);
             ECall (CExecute (value t) a)] ++ hookEvents).
    split; [flatten_trace; reflexivity|].
    apply (paced_app [_; _; _; _; _; _]); [reflexivity|apply hookEvents_paced].
  - exists ([EMsg (MTask (withStatus t executing)); EMsg MThinking;
             ECall (CAnalyze (value t)); EMsg (MAnalysis a);
             ECall (CExecute (value t) a);
             EMsg (MTask (withResult t r completed)); EDelay TIMEOUT_LONG;
             EMsg MThinking; ECall (followUpCall t r (executed t a r s))]
            ++ hookEvents
            ++ [EMsg (MError
                        (translate "ERROR_ADDING_ADDITIONAL_TASKS" "errors"));
                EMsg (MTask (withStatus t final))]).
    split; [flatten_trace; reflexivity|].
    apply (paced_app [_; _; _; _; _; _; _; _; _; _]); [reflexivity|].
    apply paced_app; [apply hookEvents_paced|reflexivity].
  - unfold expanded.
    destruct (Nat.eqb (List.length vs) 0).
    + exists ([EMsg (MTask (withStatus t executing)); EMsg MThinking;
               ECall (CAnalyze (value t)); EMsg (MAnalysis a);
               ECall (CExecute (value t) a);
               EMsg (MTask (withResult t r completed)); EDelay TIMEOUT_LONG;
               EMsg MThinking; ECall (followUpCall t r (executed t a r s))]
              ++ startedEvents (uuid s) vs
              ++ [EMsg (MTask (withStatus t final))]).
      split; [flatten_trace; reflexivity|].
      apply (paced_app [_; _; _; _; _; _; _; _; _; _]); [reflexivity|].
      apply paced_app; [apply startedEvents_paced|reflexivity].
    + exists ([EMsg (MTask (withStatus t executing)); EMsg MThinking;
               ECall (CAnalyze (value t)); EMsg (MAnalysis a);
               ECall (CExecute (value t) a);
               EMsg (MTask (withResult t r completed)); EDelay TIMEOUT_LONG;
               EMsg MThinking; ECall (followUpCall t r (executed t a r s))]
              ++ startedEvents (uuid s) vs).
      split; [flatten_trace; reflexivity|].
      apply (paced_app [_; _; _; _; _; _; _; _; _; _]); [reflexivity|].
      apply startedEvents_paced.
Qed.

Lemma pass_paced (s : State) (p : Outcome bool * State) :
  Pass s p -> exists d, trace (snd p) = trace s ++ d /\ paced d.
Proof.
  intros [H|H Hr|t rest H Hr Hl|t rest H Hr Hl].
  - exists []. simpl. rewrite app_nil_r. split; reflexivity.
  - exists [EMsg MCompleted; EShutdown]. simpl. rewrite <- app_assoc.
    split; reflexivity.
  - exists [EMsg MLoop; EShutdown]. simpl. rewrite <- app_assoc.
    split; reflexivity.
  - destruct (cycle_paced t _ _
                (taskCycle_cases t
                   (emitted (EDelay TIMEOUT_LONG) (counted s))))
      as (d & Ht & Hd).
    exists (EDelay TIMEOUT_LONG :: d). rewrite continued_snd, Ht.
    simpl. rewrite <- app_assoc. split; [reflexivity|exact Hd].
Qed.

Lemma loop_paced (fuel : nat) (s : State) :
  exists d, trace (snd (loop fuel s)) = trace s ++ d /\ paced d.
Proof.
  apply (loop_relates
           (fun a b => exists d, trace b = trace a ++ d /\ paced d)).
  - intros a. exists []. rewrite app_nil_r. split; reflexivity.
  - intros a b c (d1 & T1 & P1) (d2 & T2 & P2). exists (d1 ++ d2).
    rewrite T2, T1, app_assoc. split; [reflexivity|].
    apply paced_app; assumption.
  - intros a. exists []. simpl. rewrite app_nil_r. split; reflexivity.
  - intros a. exists []. simpl. rewrite app_nil_r. split; reflexivity.
  - apply pass_paced.
Qed.

(** X18.  The time a call of [run] spends waiting: one second before
    each task it selects and one after each task it announces as
    completed, eight tenths of a second before each task it enqueues,
    and nothing else. *)
Theorem waiting_time_of_a_run (s : State) (fuel : nat) :
  totalDelay (newEvents s (snd (run fuel s))) =
  1000 * Z.of_nat
           (count isSelection (newEvents s (snd (run fuel s)))
            + count isCompletion (newEvents s (snd (run fuel s))))
  + 800 * Z.of_nat (count isEnqueue (newEvents s (snd (run fuel s)))).
Proof.
  change (paced (newEvents s (snd (run fuel s)))).
  assert (Hstart : exists s0 d0,
            run fuel s = runResult (loop fuel s0) /\
            trace s0 = trace s ++ d0 /\ paced d0).
  { destruct (isRunning s) eqn:Hr.
    - exists s, []. rewrite app_nil_r.
      split; [apply run_running; exact Hr|]. split; reflexivity.
    - destruct (getInitialTasks api (clock (launched s))) as [vs|e] eqn:Hi.
      + exists (startSucceeded vs (launched s)),
          ([EMsg (MGoal (goal s)); EMsg MThinking; ECall CInitial]
           ++ startedEvents (uuid s) vs).
        split;
          [apply (run_starting fuel s _ Hr (startGoal_succeeded _ _ Hi))|].
        split; [flatten_trace; reflexivity|].
        apply paced_app; [reflexivity|apply startedEvents_paced].
      + exists (startFailed e (launched s)),
          ([EMsg (MGoal (goal s)); EMsg MThinking; ECall CInitial]
           ++ hookEvents
           ++ [EMsg (MError (getMessageFromError e)); EShutdown]).
        split; [apply (run_starting fuel s _ Hr (startGoal_failed _ _ Hi))|].
        split; [flatten_trace; reflexivity|].
        apply paced_app; [reflexivity|].
        apply paced_app; [apply hookEvents_paced|reflexivity]. }
  destruct Hstart as (s0 & d0 & -> & T0 & P0).
  destruct (loop_paced fuel s0) as (d1 & T1 & P1).
  destruct (run_end (loop fuel s0)) as (d2 & T2 & _ & Hd2 & _).
  rewrite (newEvents_app s _ (d0 ++ d1 ++ d2))
    by (rewrite T2, T1, T0, <- !app_assoc; reflexivity).
  apply paced_app; [exact P0|]. apply paced_app; [exact P1|].
  destruct Hd2 as [->|[-> _]]; reflexivity.
Qed.

(** ** The first run of a paused agent *)

(** X19.  An agent in pause mode whose playback flag is [AGENT_PAUSE],
    as the constructor leaves it, does not carry out any task in its
    first [run]: the call asks for the initial tasks, enqueues what it
    gets, selects no task, counts no loop, leaves [isRunning] false and
    ends by telling the owner that the agent is paused. *)
Theorem paused_agent_only_decomposes (s : State) (fuel : nat) :
  mode s = PAUSE_MODE ->
  playbackControl s = AGENT_PAUSE ->
  isRunning s = false ->
  fst (run (S fuel) s) = Ret tt /\
  count isSelection (newEvents s (snd (run (S fuel) s))) = 0%nat /\
  count isRequest (newEvents s (snd (run (S fuel) s))) = 1%nat /\
  numLoops (snd (run (S fuel) s)) = numLoops s /\
  completedTasks (snd (run (S fuel) s)) = completedTasks s /\
  isRunning (snd (run (S fuel) s)) = false /\
  (exists d,
     newEvents s (snd (run (S fuel) s)) = d ++ [EHandlePause AGENT_PAUSE]) /\
  (forall vs,
     getInitialTasks api (clock s) = Resolved vs ->
     messages (newEvents s (snd (run (S fuel) s))) =
       MGoal (goal s) :: MThinking :: map MTask (numbered (uuid s) vs)).
Proof.
  intros Hm Hpc Hr.
  assert (Hend : forall s0 d0,
            mode s0 = PAUSE_MODE -> playbackControl s0 = AGENT_PAUSE ->
            trace s0 = trace s ++ d0 ->
            runResult (loop (S fuel) s0) =
              (Ret tt,
               emitted (EHandlePause AGENT_PAUSE)
                 (exited (admitted (entered s0)))) /\
            newEvents s
              (emitted (EHandlePause AGENT_PAUSE)
                 (exited (admitted (entered s0)))) =
              d0 ++ [EHandlePause AGENT_PAUSE]).
  { intros s0 d0 Hm0 Hpc0 T0.
    assert (Ha : admits s0 = false).
    { unfold admits. rewrite Hm0, Hpc0. reflexivity. }
    rewrite (loop_suspends fuel s0 Ha). cbn [runResult]. split.
    - unfold notified.
      cbn [mode isRunning playbackControl exited admitted entered
           set_frames].
      change (admits (entered s0)) with (admits s0).
      rewrite Hm0, Ha. reflexivity.
    - apply newEvents_app. simpl. rewrite T0, <- app_assoc. reflexivity. }
  destruct (getInitialTasks api (clock (launched s))) as [vs|e] eqn:Hi.
  - rewrite (run_starting (S fuel) s _ Hr (startGoal_succeeded _ _ Hi)).
    destruct (Hend (startSucceeded vs (launched s))
                ([EMsg (MGoal (goal s)); EMsg MThinking; ECall CInitial]
                 ++ startedEvents (uuid s) vs) Hm Hpc)
      as [-> Hev]; [flatten_trace; reflexivity|].
    cbn [fst snd]. rewrite Hev.
    split; [reflexivity|]. rewrite !count_app, !messages_app.
    rewrite startedEvents_selection, (proj1 (proj2 (startedEvents_books _ _))).
    split; [reflexivity|]. split; [reflexivity|]. split; [reflexivity|].
    split; [reflexivity|].
    split; [simpl; unfold admits; simpl; rewrite Hm, Hpc; reflexivity|].
    split; [eexists; reflexivity|].
    intros vs' Hvs. change (clock (launched s)) with (clock s) in Hi.
    assert (vs' = vs) by congruence. subst vs'.
    simpl. rewrite messages_startedEvents, app_nil_r. reflexivity.
  - rewrite (run_starting (S fuel) s _ Hr (startGoal_failed _ _ Hi)).
    destruct (Hend (startFailed e (launched s))
                ([EMsg (MGoal (goal s)); EMsg MThinking; ECall CInitial]
                 ++ hookEvents
                 ++ [EMsg (MError (getMessageFromError e)); EShutdown])
                Hm Hpc)
      as [-> Hev]; [flatten_trace; reflexivity|].
    cbn [fst snd]. rewrite Hev.
    split; [reflexivity|]. rewrite !count_app.
    rewrite hookEvents_selection, (proj1 (proj2 hookEvents_books)).
    split; [reflexivity|]. split; [reflexivity|]. split; [reflexivity|].
    split; [reflexivity|].
    split; [simpl; unfold admits; simpl; rewrite Hm, Hpc; reflexivity|].
    split; [eexists; reflexivity|].
    intros vs' Hvs. change (clock (launched s)) with (clock s) in Hi.
    congruence.
Qed.

(** ** Closing a run *)

Lemma cycleEvent_not_closing (d : list Event) :
  forallb cycleEvent d = true -> count isClosing d = 0%nat.
Proof.
  induction d as [|e d IH]; [reflexivity|]. simpl forallb.
  intros H. apply andb_true_iff in H as [He Hd].
  rewrite count_cons, (IH Hd).
  destruct e as [[]| | | |[]]; simpl in *; congruence.
Qed.

Lemma startEvent_not_closing (d : list Event) :
  forallb startEvent d = true -> count isClosing d = 0%nat.
Proof.
  induction d as [|e d IH]; [reflexivity|]. simpl forallb.
  intros H. apply andb_true_iff in H as [He Hd].
  rewrite count_cons, (IH Hd).
  destruct e as [[]| | | |[]]; simpl in *; congruence.
Qed.

Lemma closedOnce_after (a d : list Event) :
  count isClosing a = 0%nat -> closedOnce d -> closedOnce (a ++ d).
Proof.
  intros Ha [Hd|(d' & m & -> & Hm & Hd')].
  - left. rewrite count_app. lia.
  - right. exists (a ++ d'), m. rewrite app_assoc, count_app.
    split; [reflexivity|]. split; [exact Hm|lia].
Qed.

(** A call of [loop] sends a closing message at most once, and then it
    shuts down and returns. *)
Lemma loop_closes (fuel : nat) (s : State) :
  exists d,
    trace (snd (loop fuel s)) = trace s ++ d /\ closedOnce d /\
    (count isClosing d <> 0%nat -> fst (loop fuel s) = Ret tt).
Proof.
  revert s. induction fuel as [|fuel IH]; intros s.
  - exists []. simpl. rewrite app_nil_r. split; [reflexivity|].
    split; [left; reflexivity|]. intros H. destruct H. reflexivity.
  - rewrite loop_S. unfold loopResult.
    pose proof (iteration_pass (entered s)) as Hp.
    inversion Hp as [H Heq|H Hr Heq|t rest H Hr Hl Heq|t rest H Hr Hl Heq].
    + exists []. simpl. rewrite app_nil_r. split; [reflexivity|].
      split; [left; reflexivity|]. reflexivity.
    + exists [EMsg MCompleted; EShutdown]. simpl. rewrite <- app_assoc.
      split; [reflexivity|]. split; [|reflexivity].
      right. exists [], MCompleted. auto.
    + exists [EMsg MLoop; EShutdown]. simpl. rewrite <- app_assoc.
      split; [reflexivity|]. split; [|reflexivity].
      right. exists [], MLoop. auto.
    + destruct (cycle_trace t _ _
                  (taskCycle_cases t
                     (emitted (EDelay TIMEOUT_LONG) (counted (entered s)))))
        as (d1 & T1 & F1 & _).
      apply cycleEvent_not_closing in F1.
      destruct (taskCycleResult t
                  (emitted (EDelay TIMEOUT_LONG) (counted (entered s))))
        as [[[]|e|] s1]; cbn [continued fst snd] in *.
      * destruct (IH s1) as (d2 & T2 & C2 & R2).
        destruct (loop fuel s1) as [r s2]. cbn [fst snd] in *.
        exists ((EDelay TIMEOUT_LONG :: d1) ++ d2).
        split; [simpl; rewrite T2, T1; simpl; rewrite <- !app_assoc;
                reflexivity|].
        split; [apply closedOnce_after;
                [rewrite count_cons; simpl; exact F1|exact C2]|].
        rewrite count_app, count_cons, F1. simpl. exact R2.
      * exists (EDelay TIMEOUT_LONG :: d1).
        split; [simpl; rewrite T1; simpl; rewrite <- !app_assoc;
                reflexivity|].
        rewrite count_cons, F1. simpl.
        split; [left; rewrite count_cons, F1; reflexivity|].
        intros H0. destruct H0. reflexivity.
      * exists (EDelay TIMEOUT_LONG :: d1).
        split; [simpl; rewrite T1; simpl; rewrite <- !app_assoc;
                reflexivity|].
        rewrite count_cons, F1. simpl.
        split; [left; rewrite count_cons, F1; reflexivity|].
        intros H0. destruct H0. reflexivity.
Qed.

(** X20.  A call of [run] announces the end at most once: among its
    events there is at most one completed or loop-limit message, and when
    there is one, the call of [shutdown] follows it at once, no task
    message, request or delay comes after it, and [run] returns. *)
Theorem run_closes_at_most_once (s : State) (fuel : nat) :
  (count isClosing (newEvents s (snd (run fuel s))) <= 1)%nat /\
  (count isClosing (newEvents s (snd (run fuel s))) = 1%nat ->
   fst (run fuel s) = Ret tt /\
   exists d m d2,
     newEvents s (snd (run fuel s)) = d ++ [EMsg m; EShutdown] ++ d2 /\
     (m = MCompleted \/ m = MLoop) /\
     count isClosing d = 0%nat /\
     (d2 = [] \/ exists pc, d2 = [EHandlePause pc])).
Proof.
  destruct (run_start fuel s) as (s0 & d0 & -> & T0 & F0 & _).
  apply startEvent_not_closing in F0.
  destruct (loop_closes fuel s0) as (d1 & T1 & C1 & R1).
  destruct (run_end (loop fuel s0)) as (d2 & T2 & _ & Hd2 & _).
  destruct (runResult_fields (loop fuel s0)) as (_ & _ & ->).
  rewrite (newEvents_app s _ (d0 ++ d1 ++ d2))
    by (rewrite T2, T1, T0, <- !app_assoc; reflexivity).
  assert (Hz : count isClosing d2 = 0%nat)
    by (destruct Hd2 as [->|[-> _]]; reflexivity).
  rewrite !count_app, F0, Hz.
  destruct C1 as [C1|(d' & m & -> & Hm & C1)].
  - split; [lia|]. intros H. lia.
  - assert (Hone : count isClosing (d' ++ [EMsg m; EShutdown]) = 1%nat).
    { rewrite count_app, C1. destruct Hm as [->| ->]; reflexivity. }
    split; [lia|]. intros _.
    split; [apply R1; lia|].
    exists (d0 ++ d'), m, d2. rewrite <- !app_assoc.
    split; [reflexivity|]. split; [exact Hm|].
    split; [rewrite count_app; lia|].
    destruct Hd2 as [->|[-> _]]; [left; reflexivity|right; eexists;
                                                    reflexivity].
Qed.

End Orchestrator.

Arguments Ret {A} a.
Arguments Throw {A} e.
Arguments OutOfFuel {A}.
Arguments Message Analysis : clear implicits.
Arguments ApiCall Analysis : clear implicits.
Arguments Event Analysis : clear implicits.
Arguments AgentApi Analysis : clear implicits.
Arguments State Analysis : clear implicits.
Arguments M Analysis A : clear implicits.

(** * Concrete runs

    The scenario of the specification: the goal "Plan a trip to Paris", a
    reasoning service that answers with three tasks and, once, with one
    follow-up task. *)

(** A translation table that shows the key. *)
Definition plainTranslate (key namespace : string) : string := key.

Definition truthy {A : Type} (_ : A) : bool := true.

Definition parisGoal : string := "Plan a trip to Paris".

Definition parisApi : AgentApi string :=
  mkApi
    (fun _ => Resolved ["Book flights"; "Book hotel"; "Draft itinerary"])
    (fun _ _ => Resolved "reason")
    (fun _ _ _ => Resolved "done")
    (fun _ current _ _ _ =>
       if String.eqb current "Book flights"
       then Resolved ["Compare airlines"] else Resolved [])
    true.

(** The service is down when the goal is to be decomposed. *)
Definition downApi : AgentApi string :=
  mkApi
    (fun _ => Rejected OtherError)
    (fun _ _ => Resolved "reason")
    (fun _ _ _ => Resolved "done")
    (fun _ _ _ _ _ => Resolved [])
    true.

(** The service fails whenever it is asked for follow-up tasks. *)
Definition noFollowUpApi : AgentApi string :=
  mkApi
    (fun _ => Resolved ["Book flights"; "Book hotel"; "Draft itinerary"])
    (fun _ _ => Resolved "reason")
    (fun _ _ _ => Resolved "done")
    (fun _ _ _ _ _ => Rejected (AxiosError (Some 500%Z)))
    true.

(** The service fails when it is asked for follow-up tasks while exactly
    two tasks wait, and at no other request. *)
Definition pickyApi : AgentApi string :=
  mkApi
    (fun _ => Resolved ["Book flights"; "Book hotel"; "Draft itinerary"])
    (fun _ _ => Resolved "reason")
    (fun _ _ _ => Resolved "done")
    (fun _ _ remaining _ _ =>
       if Nat.eqb (List.length remaining) 2
       then Rejected (AxiosError (Some 500%Z)) else Resolved [])
    true.

(** A service that always has one more task. *)
Definition chainApi : AgentApi unit :=
  mkApi
    (fun _ => Resolved ["t"])
    (fun _ _ => Resolved tt)
    (fun _ _ _ => Resolved "done")
    (fun _ _ _ _ _ => Resolved ["next"])
    false.

(** The service cannot analyse a task. *)
Definition noAnalysisApi : AgentApi string :=
  mkApi
    (fun _ => Resolved ["Book flights"; "Book hotel"; "Draft itinerary"])
    (fun _ _ => Rejected (AxiosError (Some 500%Z)))
    (fun _ _ _ => Resolved "done")
    (fun _ _ _ _ _ => Resolved [])
    true.

(** The service finds nothing to do for the goal. *)
Definition idleApi : AgentApi string :=
  mkApi
    (fun _ => Resolved [])
    (fun _ _ => Resolved "reason")
    (fun _ _ _ => Resolved "done")
    (fun _ _ _ _ _ => Resolved [])
    true.

(** A new agent, as [handleNewGoal] makes it, on an empty store. *)
Definition newAgent (m : AgentMode) (budget : option Z) : State string :=
  construct truthy truthy parisGoal budget (Some m) None [].

(** The paused agent after its first [run]: three tasks wait. *)
Definition pausedParis : State string :=
  snd (run plainTranslate 25 parisApi 4 (newAgent PAUSE_MODE None)).

(** The same agent as [handleContinue] prepares it for [run]. *)
Definition resumedParis : State string :=
  launched (set_playbackControl AGENT_PLAY pausedParis).

(** The automatic agent after its start phase. *)
Definition startedParis (api : AgentApi string) (budget : option Z)
    : State string :=
  snd (bind (updateIsRunning true) (fun _ => startGoal plainTranslate api)
         (newAgent AUTOMATIC_MODE budget)).

(** An agent in the middle of a run with one task waiting and a budget
    of [c + 1] loops. *)
Definition chainStart (c : nat) : State unit :=
  mkState "chain" [] true 0 AUTOMATIC_MODE AGENT_PLAY (Some (Z.of_nat (S c))) true
    [startedTask 0 "t"] [] 1 0 0 0.


(** ** The scenarios of the specification *)

(** The first pass completes "Book flights"; its follow-up joins the
    queue behind the two tasks that were waiting. *)
Example paris_first_pass :
  map value
    (getRemainingTasks
       (snd (iteration plainTranslate 25 parisApi
               (startedParis parisApi None)))) =
  ["Book hotel"; "Draft itinerary"; "Compare airlines"].
Proof. reflexivity. Qed.

(** Two resumes of the paused agent complete exactly two tasks. *)
Example two_resumes_two_tasks :
  completedTasks
    (snd (handleContinue plainTranslate 25 parisApi 3
            (snd (handleContinue plainTranslate 25 parisApi 3 pausedParis))))
  = ["Book flights"; "Book hotel"] /\
  isRunning
    (snd (handleContinue plainTranslate 25 parisApi 3
            (snd (handleContinue plainTranslate 25 parisApi 3 pausedParis))))
  = false.
Proof. split; reflexivity. Qed.

(** With a budget of three loops the run stops after three tasks, on the
    loop-limit message. *)
Example budget_of_three :
  fst (run plainTranslate 25 parisApi 5 (newAgent AUTOMATIC_MODE (Some 3)))
  = Ret tt /\
  completedTasks
    (snd (run plainTranslate 25 parisApi 5
            (newAgent AUTOMATIC_MODE (Some 3))))
  = ["Book flights"; "Book hotel"; "Draft itinerary"] /\
  map value
    (getRemainingTasks
       (snd (run plainTranslate 25 parisApi 5
               (newAgent AUTOMATIC_MODE (Some 3)))))
  = ["Compare airlines"] /\
  existsb isLoopMessage
    (trace
       (snd (run plainTranslate 25 parisApi 5
               (newAgent AUTOMATIC_MODE (Some 3)))))
  = true.
Proof. repeat split; reflexivity. Qed.

(** ** The claims on these runs *)

(** C1 at the resumed Paris agent: one resume completes "Book flights",
    selects nothing else, and leaves the agent suspended. *)
Lemma pause_mode_one_cycle_per_resume_witness :
  mode resumedParis = PAUSE_MODE /\
  playbackControl resumedParis = AGENT_PLAY /\
  count isSelection
    (newEvents resumedParis
       (snd (loop plainTranslate 25 parisApi 2 resumedParis))) = 1%nat /\
  isRunning (snd (loop plainTranslate 25 parisApi 2 resumedParis)) = false /\
  completedTasks (snd (loop plainTranslate 25 parisApi 2 resumedParis)) =
    ["Book flights"].
Proof.
  split; [reflexivity|]. split; [reflexivity|].
  destruct (pause_mode_one_cycle_per_resume plainTranslate 25 parisApi
              resumedParis 0 eq_refl) as [_ HPlay].
  destruct (HPlay eq_refl) as (_ & _ & _ & _ & Hone).
  destruct (Hone (startedTask 0 "Book flights")
              [startedTask 1 "Book hotel"; startedTask 2 "Draft itinerary"]
              eq_refl) as (Hsel & _ & Hdone).
  - vm_compute. discriminate.
  - split; [exact Hsel|]. apply Hdone. reflexivity.
Defined.


(** C3 at a new automatic agent whose service is down. *)
Lemma failed_start_reports_once_witness :
  isRunning (newAgent AUTOMATIC_MODE None) = false /\
  messages (trace (startedParis downApi None)) =
    [MGoal parisGoal; MThinking; MError "ERROR_RETRIEVE_INITIAL_TASKS"] /\
  numLoops (startedParis downApi None) = 0 /\
  isRunning (startedParis downApi None) = true /\
  numLoops
    (snd (run plainTranslate 25 downApi 3 (newAgent AUTOMATIC_MODE None))) = 0.
Proof.
  split; [reflexivity|].
  destruct (failed_start_reports_once plainTranslate 25 downApi
              (newAgent AUTOMATIC_MODE None) OtherError 2 eq_refl eq_refl)
    as (_ & Hm & _ & Hn & _ & Hr & Hrun).
  destruct (Hrun eq_refl) as (_ & _ & Hn').
  split; [exact Hm|]. split; [exact Hn|]. split; [exact Hr|exact Hn'].
Defined.

(** C3 as stated fails on the same run: after [run] returns, [isRunning]
    is still true, and a completed message has followed the error. *)
Lemma failed_start_still_running_and_completed :
  isRunning
    (snd (run plainTranslate 25 downApi 3 (newAgent AUTOMATIC_MODE None)))
    = true /\
  messages
    (trace
       (snd (run plainTranslate 25 downApi 3 (newAgent AUTOMATIC_MODE None))))
    = [MGoal parisGoal; MThinking; MError "ERROR_RETRIEVE_INITIAL_TASKS";
       MCompleted].
Proof. split; reflexivity. Qed.



(** C6 at the started agent whose service fails on follow-ups. *)
Lemma followup_failure_absorbed_witness :
  getAdditionalTasks pickyApi 2 "Book flights" [] ["Book flights"] "done"
    = Resolved [] /\
  fst (iteration plainTranslate 25 pickyApi
         (startedParis pickyApi None)) = Ret true /\
  filter isErrorMessage
    (messages
       (newEvents (startedParis pickyApi None)
          (snd (iteration plainTranslate 25 pickyApi
                  (startedParis pickyApi None)))))
    = [MError "ERROR_ADDING_ADDITIONAL_TASKS"].
Proof.
  split; [reflexivity|].
  destruct (followup_failure_absorbed plainTranslate 25 pickyApi
              (startedParis pickyApi None)
              (startedTask 0 "Book flights")
              [startedTask 1 "Book hotel"; startedTask 2 "Draft itinerary"]
              "reason" "done" (AxiosError (Some 500%Z)))
    as (Hf & _ & He & _).
  - reflexivity.
  - reflexivity.
  - vm_compute. discriminate.
  - reflexivity.
  - reflexivity.
  - reflexivity.
  - split; [exact Hf|exact He].
Defined.

(** Supplying [AGENT_PLAY] to the constructor: the agent starts paused,
    in automatic mode too. *)
Lemma constructor_playback_flag_witness :
  playbackControl
    (construct (Analysis := string) truthy truthy parisGoal None (Some AUTOMATIC_MODE)
       (Some AGENT_PLAY) []) = AGENT_PAUSE /\
  mode
    (construct (Analysis := string) truthy truthy parisGoal None (Some AUTOMATIC_MODE)
       (Some AGENT_PLAY) []) = AUTOMATIC_MODE.
Proof.
  destruct (constructor_playback_flag (Analysis := string) truthy truthy parisGoal None
              (Some AUTOMATIC_MODE) (Some AGENT_PLAY) [])
    as (Hm & Hp & _).
  split; [apply (Hp AGENT_PLAY); reflexivity|exact Hm].
Defined.

(** C7 at the resumed Paris agent: no second decomposition. *)
Lemma run_while_running_only_resumes_witness :
  isRunning resumedParis = true /\
  count isInitialCall
    (newEvents resumedParis
       (snd (run plainTranslate 25 parisApi 3 resumedParis))) = 0%nat.
Proof.
  split; [reflexivity|].
  destruct (run_while_running_only_resumes plainTranslate 25 parisApi
              resumedParis 3 eq_refl) as (_ & H & _).
  exact H.
Defined.

(** C7 as stated fails: after the first [run] has started the paused
    agent and suspended, a second call of [run] finds [isRunning] false,
    decomposes the goal again and enqueues the three tasks again. *)
Lemma run_after_suspension_decomposes_again :
  isRunning pausedParis = false /\
  count isInitialCall (trace pausedParis) = 1%nat /\
  count isInitialCall
    (trace (snd (run plainTranslate 25 parisApi 3 pausedParis))) = 2%nat /\
  map value (tasks (snd (run plainTranslate 25 parisApi 3 pausedParis))) =
    ["Book flights"; "Book hotel"; "Draft itinerary";
     "Book flights"; "Book hotel"; "Draft itinerary"].
Proof. repeat split; reflexivity. Qed.

Lemma chainApi_alwaysOneMore : alwaysOneMore chainApi.
Proof.
  repeat split.
  - intros n v. exists tt. reflexivity.
  - intros n v a. exists "done". reflexivity.
  - intros n c remaining done r. exists "next". reflexivity.
Qed.

(** C8 as stated fails: no constant bounds the number of activations of
    [loop] that are pending at once. *)
Lemma recursion_depth_unbounded :
  ~ exists c : nat,
      forall (api : AgentApi unit) (s : State unit) (fuel : nat),
        frames s = 0%nat -> peak s = 0%nat ->
        (peak (snd (loop plainTranslate 25 api fuel s)) <= c)%nat.
Proof.
  intros [c H].
  specialize (H chainApi (chainStart c) (S (S c) + 0)%nat eq_refl eq_refl).
  destruct (loop_spends_budget plainTranslate 25 chainApi (S c) 0
              (chainStart c) chainApi_alwaysOneMore eq_refl eq_refl)
    as [Hret Hlen].
  - discriminate.
  - unfold maxLoops. cbn [customMaxLoops chainStart numLoops].
    destruct (Z.eqb_spec (Z.of_nat (S c)) 0); lia.
  - destruct (loop_depth plainTranslate 25 chainApi (S (S c) + 0)
                (chainStart c)) as (_ & Hd & _).
    destruct (Hd Hret) as [k [Hk Hp]].
    rewrite Hlen in Hk. cbn [frames peak chainStart] in Hp. lia.
Qed.

(** * Further properties, on concrete runs *)

Lemma startedParis_wellNumbered :
  wellNumbered (startedParis parisApi None).
Proof.
  assert (Ht : tasks (startedParis parisApi None) =
               numbered 0 ["Book flights"; "Book hotel"; "Draft itinerary"])
    by reflexivity.
  assert (Hu : uuid (startedParis parisApi None) = 3%nat) by reflexivity.
  unfold wellNumbered. rewrite Ht, Hu. split.
  - simpl. repeat (constructor; [simpl; intuition discriminate|]).
    constructor.
  - intros t [<-|[<-|[<-|[]]]]; simpl; lia.
Qed.

Lemma newAgent_wellNumbered (m : AgentMode) (budget : option Z) :
  wellNumbered (newAgent m budget).
Proof. split; [constructor|intros t []]. Qed.

Lemma empty_decomposition_witness :
  isRunning (newAgent AUTOMATIC_MODE None) = false /\
  newEvents (newAgent AUTOMATIC_MODE None)
    (snd (run plainTranslate 25 idleApi 1 (newAgent AUTOMATIC_MODE None))) =
  [EMsg (MGoal parisGoal); EMsg MThinking; ECall CInitial;
   EMsg MCompleted; EShutdown].
Proof.
  split; [reflexivity|].
  destruct (empty_decomposition plainTranslate 25 idleApi
              (newAgent AUTOMATIC_MODE None) 0)
    as (_ & _ & _ & _ & H & _).
  - reflexivity.
  - reflexivity.
  - reflexivity.
  - apply H. left. reflexivity.
Defined.

Lemma uncaught_failure_ends_run_witness :
  isRunning (startedParis noAnalysisApi None) = true /\
  fst (run plainTranslate 25 noAnalysisApi 1 (startedParis noAnalysisApi None))
    = Throw (AxiosError (Some 500%Z)) /\
  completedTasks
    (snd (run plainTranslate 25 noAnalysisApi 1
            (startedParis noAnalysisApi None))) = [].
Proof.
  split; [reflexivity|].
  destruct (uncaught_failure_ends_run plainTranslate 25 noAnalysisApi
              (startedParis noAnalysisApi None)
              (startedTask 0 "Book flights")
              [startedTask 1 "Book hotel"; startedTask 2 "Draft itinerary"]
              (AxiosError (Some 500%Z)) 0)
    as (Hf & Hc & _).
  - reflexivity.
  - reflexivity.
  - reflexivity.
  - vm_compute. discriminate.
  - left. reflexivity.
  - split; [exact Hf|exact Hc].
Defined.

Lemma returned_run_leaves_none_executing_witness :
  noneExecuting (tasks (newAgent AUTOMATIC_MODE None)) /\
  noneExecuting
    (tasks (snd (run plainTranslate 25 parisApi 8
                   (newAgent AUTOMATIC_MODE None)))).
Proof.
  assert (H : noneExecuting (tasks (newAgent AUTOMATIC_MODE None)))
    by (intros t []).
  split; [exact H|].
  apply (returned_run_leaves_none_executing plainTranslate 25 parisApi
           (newAgent AUTOMATIC_MODE None) 8 H).
  reflexivity.
Defined.

Lemma follow_ups_join_the_queue_witness :
  wellNumbered (startedParis parisApi None) /\
  getRemainingTasks (startedParis parisApi None) =
    [startedTask 0 "Book flights"; startedTask 1 "Book hotel";
     startedTask 2 "Draft itinerary"] /\
  wellNumbered
    (snd (iteration plainTranslate 25 parisApi (startedParis parisApi None))).
Proof.
  split; [exact startedParis_wellNumbered|]. split; [reflexivity|].
  destruct (follow_ups_join_the_queue plainTranslate 25 parisApi
              (startedParis parisApi None)
              (startedTask 0 "Book flights")
              [startedTask 1 "Book hotel"; startedTask 2 "Draft itinerary"]
              startedParis_wellNumbered)
    as (r & vs & _ & _ & _ & _ & W).
  - reflexivity.
  - reflexivity.
  - exact W.
Defined.

Lemma tasks_done_in_the_order_enqueued_witness :
  wellNumbered (newAgent AUTOMATIC_MODE None) /\
  inOrder (newAgent AUTOMATIC_MODE None) /\
  inOrder
    (snd (run plainTranslate 25 parisApi 8 (newAgent AUTOMATIC_MODE None))).
Proof.
  assert (H : inOrder (newAgent AUTOMATIC_MODE None)).
  { exists []. repeat split. intros y []. }
  split; [apply newAgent_wellNumbered|]. split; [exact H|].
  apply (tasks_done_in_the_order_enqueued plainTranslate 25 parisApi
           (newAgent AUTOMATIC_MODE None) 8
           (newAgent_wellNumbered AUTOMATIC_MODE None) H).
  reflexivity.
Defined.

Lemma automatic_mode_ignores_playback_witness :
  mode (newAgent AUTOMATIC_MODE None) = AUTOMATIC_MODE /\
  run plainTranslate 25 parisApi 8
    (snd (updatePlayBackControl AGENT_PAUSE (newAgent AUTOMATIC_MODE None))) =
  flagged AGENT_PAUSE
    (run plainTranslate 25 parisApi 8 (newAgent AUTOMATIC_MODE None)).
Proof.
  split; [reflexivity|].
  apply (automatic_mode_ignores_playback plainTranslate 25 parisApi
           (newAgent AUTOMATIC_MODE None) 8 AGENT_PAUSE).
  reflexivity.
Defined.

Lemma start_enqueues_in_reply_order_witness :
  wellNumbered (newAgent AUTOMATIC_MODE None) /\
  tasks (startedParis parisApi None) =
    numbered 0 ["Book flights"; "Book hotel"; "Draft itinerary"].
Proof.
  split; [apply newAgent_wellNumbered|].
  destruct (start_enqueues_in_reply_order plainTranslate parisApi
              (newAgent AUTOMATIC_MODE None)
              ["Book flights"; "Book hotel"; "Draft itinerary"]
              (newAgent_wellNumbered AUTOMATIC_MODE None))
    as (_ & _ & _ & H & _).
  - reflexivity.
  - exact H.
Defined.

Lemma resume_carries_out_one_task_witness :
  mode pausedParis = PAUSE_MODE /\
  count isSelection
    (newEvents pausedParis
       (snd (handleContinue plainTranslate 25 parisApi 2 pausedParis)))
    = 1%nat.
Proof.
  split; [reflexivity|].
  destruct (resume_carries_out_one_task plainTranslate 25 parisApi
              pausedParis (startedTask 0 "Book flights")
              [startedTask 1 "Book hotel"; startedTask 2 "Draft itinerary"]
              0)
    as (H & _).
  - reflexivity.
  - reflexivity.
  - vm_compute. discriminate.
  - exact H.
Defined.

Lemma paused_agent_only_decomposes_witness :
  mode (newAgent PAUSE_MODE None) = PAUSE_MODE /\
  playbackControl (newAgent PAUSE_MODE None) = AGENT_PAUSE /\
  count isSelection
    (newEvents (newAgent PAUSE_MODE None)
       (snd (run plainTranslate 25 parisApi 1 (newAgent PAUSE_MODE None))))
    = 0%nat /\
  isRunning (snd (run plainTranslate 25 parisApi 1 (newAgent PAUSE_MODE None)))
    = false.
Proof.
  split; [reflexivity|]. split; [reflexivity|].
  destruct (paused_agent_only_decomposes plainTranslate 25 parisApi
              (newAgent PAUSE_MODE None) 0)
    as (_ & Hsel & _ & _ & _ & Hrun & _).
  - reflexivity.
  - reflexivity.
  - reflexivity.
  - split; [exact Hsel|exact Hrun].
Defined.

(** * The lookup of a node's block definition *)

Lemma find_by_key {A} (key : A -> string) (l : list A) (k : string)
    (d : A) :
  NoDup (map key l) ->
  (find (fun x => String.eqb (key x) k) l = Some d <->
   In d l /\ key d = k).
Proof.
  intros Hnd. split.
  - intros H. apply find_some in H as [Hin Hk].
    apply String.eqb_eq in Hk. auto.
  - induction l as [|y l IH]; intros [Hin Hk]; [destruct Hin|].
    simpl in Hnd. apply NoDup_cons_iff in Hnd as [Hy Hnd]. simpl.
    destruct (String.eqb_spec (key y) k) as [Heq|Hne].
    + destruct Hin as [->|Hin]; [reflexivity|].
      destruct Hy. rewrite Heq, <- Hk. apply in_map. exact Hin.
    + destruct Hin as [->|Hin]; [contradiction|]. apply IH; auto.
Qed.

Lemma find_by_key_none {A} (key : A -> string) (l : list A) (k : string) :
  find (fun x => String.eqb (key x) k) l = None <-> ~ In k (map key l).
Proof.
  induction l as [|y l IH]; simpl; [tauto|].
  destruct (String.eqb_spec (key y) k) as [Heq|Hne].
  - split; [discriminate|]. intros H. destruct H. left. exact Heq.
  - rewrite IH. tauto.
Qed.

Lemma block_types_distinct :
  NoDup (map NodeBlockDefinition.type getNodeBlockDefinitions).
Proof.
  simpl. repeat (constructor; [simpl; intuition discriminate|]).
  constructor.
Qed.

(** X16.  No two block definitions share a type, so the lookup of a
    node's block definition is unambiguous: it returns a definition
    exactly when that definition is listed and has the type of the
    node's block, it returns nothing exactly when no listed definition
    has that type, and looking up the type of a listed definition gives
    that definition back. *)
Theorem node_block_lookup_is_unambiguous :
  (forall node d,
     getNodeBlockDefinitionFromNode node = Some d <->
     In d getNodeBlockDefinitions /\
     NodeBlockDefinition.type d =
       NodeBlock.type (WorkflowNode.block (Node.data node))) /\
  (forall node,
     getNodeBlockDefinitionFromNode node = None <->
     ~ In (NodeBlock.type (WorkflowNode.block (Node.data node)))
          (map NodeBlockDefinition.type getNodeBlockDefinitions)) /\
  (forall d,
     In d getNodeBlockDefinitions ->
     getNodeBlockDefinitionFromNode
       (Node.mk (WorkflowNode.mk (NodeBlock.mk (NodeBlockDefinition.type d))))
     = Some d).
Proof.
  split; [|split].
  - intros node d. apply find_by_key. exact block_types_distinct.
  - intros node. apply find_by_key_none.
  - intros d Hin. apply find_by_key; [exact block_types_distinct|].
    split; [exact Hin|reflexivity].
Qed.

(** * The Enter key *)

(** X17.  Pressing Enter never reaches an agent that the page holds.
    The handler acts only when deploying is enabled, which requires that
    the page holds no agent; its call of [handleContinue] for a paused
    agent then finds none and returns.  So what Enter does is what
    [handleNewGoal] does, and with an agent on the page neither Enter nor
    [setAgentRun] does anything. *)
Theorem enter_never_reaches_the_agent (isEmptyOrBlank : string -> bool)
    (trim : string -> string) (Agent Session : Type)
    (p : Home.Page Agent Session) (key : string) (shiftKey : bool) :
  Home.handleKeyPress isEmptyOrBlank trim key shiftKey p =
    (if String.eqb key "Enter"
        && negb (Home.disableDeployAgent isEmptyOrBlank p)
        && negb shiftKey
     then Home.handleNewGoal trim (Home.nameInput p) (Home.goalInput p) p
     else []) /\
  (forall c,
     In c (Home.handleKeyPress isEmptyOrBlank trim key shiftKey p) ->
     Home.onAgent c = false) /\
  (Home.agent p <> None ->
   Home.handleKeyPress isEmptyOrBlank trim key shiftKey p = [] /\
   forall newName newGoal, Home.setAgentRun trim newName newGoal p = []).
Proof.
  assert (Hnew : forall n g c,
            In c (Home.handleNewGoal trim n g p) -> Home.onAgent c = false).
  { intros n g c. unfold Home.handleNewGoal.
    destruct (String.eqb (trim n) EmptyString
              || String.eqb (trim g) EmptyString); [intros []|].
    destruct (Home.session p); simpl; intuition (subst; reflexivity). }
  assert (Heq : Home.handleKeyPress isEmptyOrBlank trim key shiftKey p =
    (if String.eqb key "Enter"
        && negb (Home.disableDeployAgent isEmptyOrBlank p)
        && negb shiftKey
     then Home.handleNewGoal trim (Home.nameInput p) (Home.goalInput p) p
     else [])).
  { unfold Home.handleKeyPress, Home.disableDeployAgent, Home.handleContinue.
    destruct (Home.agent p).
    - simpl. rewrite andb_false_r. reflexivity.
    - destruct (Home.isAgentPaused p); reflexivity. }
  split; [exact Heq|]. split.
  - intros c. rewrite Heq.
    destruct (String.eqb key "Enter"
              && negb (Home.disableDeployAgent isEmptyOrBlank p)
              && negb shiftKey); [apply Hnew|intros []].
  - intros Ha. split.
    + rewrite Heq. unfold Home.disableDeployAgent.
      destruct (Home.agent p); [|contradiction].
      simpl. rewrite andb_false_r. reflexivity.
    + intros n g. unfold Home.setAgentRun.
      destruct (Home.agent p); [reflexivity|contradiction].
Qed.

Lemma enter_never_reaches_the_agent_witness :
  Home.handleKeyPress (fun v => String.eqb v EmptyString) (fun v => v)
    "Enter" false
    (Home.mkPage (Some tt) (Some tt) "Paris" parisGoal true) = [].
Proof.
  apply (enter_never_reaches_the_agent (fun v => String.eqb v EmptyString)
           (fun v => v) unit unit
           (Home.mkPage (Some tt) (Some tt) "Paris" parisGoal true)
           "Enter" false).
  discriminate.
Defined.
